(** * Trajectory cost of the DP road-graph path optimizer

    A shallow embedding of
    [modules/planning/tasks/optimizers/road_graph/trajectory_cost.cc]
    (class [apollo::planning::TrajectoryCost]) and the properties its
    specification states about it.

    Number model.  A C++ [double] is a real number ([R]): [+], [-], [*], [/]
    are the field operations, [std::fabs] is [Rabs], [std::exp] is [exp],
    [std::sqrt] is [sqrt], [std::atan] is [atan], [std::max]/[std::min]/
    [std::fmax] are [Rmax]/[Rmin]/[Rmax], [std::floor] is [Zfloor].
    Rounding, infinities and NaN are outside the model ([sqrt] of a negative
    number is [0] here, where the machine has NaN).  Where the rounding
    decides how many samples or time steps are taken, the class is
    written a second time, in [Machine], over the sum, the difference and
    the quotient as the platform computes them ([DoubleArith], with
    [binary64_arith] for binary64 and [exact_arith] for the operations of
    [R]); over [exact_arith] it is the class as written first.  A [for]
    loop over a [double] counter runs on fuel and answers [Fail OutOfFuel]
    when the fuel is used up before the loop condition fails.  A [uint32_t] level is an [N]; the [uint32_t] counter
    of the constructor's loop is a [Z] whose increment wraps around at
    [2^32]; [num_of_time_stamps_] and the [size_t] index of the time loop
    are [nat]. *)

From Stdlib Require Import Reals Lra Lia List Bool ZArith NArith.
From Stdlib Require Import ROrderedType Zfloor.
Import ListNotations.

#[local] Open Scope R_scope.

(** ** Comparisons of [double] as booleans *)

Definition Rltb (x y : R) : bool := if Rlt_dec x y then true else false.
Definition Rleb (x y : R) : bool := if Rle_dec x y then true else false.
Definition Rgtb (x y : R) : bool := Rltb y x.
Definition Reqb (x y : R) : bool := if Req_dec_T x y then true else false.

(** ** ComparableCost *)

(** Modelled from the spec: the class [ComparableCost]
    ([modules/planning/tasks/optimizers/road_graph/comparable_cost.h]) is not
    part of the sources at hand.  The record has the two flags
    [cost_items[HAS_COLLISION]] and [cost_items[OUT_OF_BOUNDARY]] and the two
    scalars of the data model; a default-constructed cost has both flags
    cleared and both scalars zero. *)
Record ComparableCost : Type := mkCost {
  has_collision : bool;
  out_of_boundary : bool;
  smoothness_cost : R;
  safety_cost : R
}.

(** Modelled from the spec: a default-constructed [ComparableCost]. *)
Definition cost_default : ComparableCost := mkCost false false 0 0.

(** Modelled from the spec: [ComparableCost::operator+=], the combination
    rule: logical OR on the flags, arithmetic sum on the scalars. *)
Definition cost_add (a b : ComparableCost) : ComparableCost :=
  mkCost (has_collision a || has_collision b)
         (out_of_boundary a || out_of_boundary b)
         (smoothness_cost a + smoothness_cost b)
         (safety_cost a + safety_cost b).

(** The assignments the source makes to the fields of a local cost:
    [cost_items[HAS_COLLISION] = true], [cost_items[OUT_OF_BOUNDARY] = true],
    [smoothness_cost = x] and [safety_cost = x]. *)
Definition set_has_collision (c : ComparableCost) : ComparableCost :=
  mkCost true (out_of_boundary c) (smoothness_cost c) (safety_cost c).
Definition set_out_of_boundary (c : ComparableCost) : ComparableCost :=
  mkCost (has_collision c) true (smoothness_cost c) (safety_cost c).
Definition set_smoothness_cost (c : ComparableCost) (x : R) : ComparableCost :=
  mkCost (has_collision c) (out_of_boundary c) x (safety_cost c).
Definition set_safety_cost (c : ComparableCost) (x : R) : ComparableCost :=
  mkCost (has_collision c) (out_of_boundary c) (smoothness_cost c) x.

Definition cost_total (c : ComparableCost) : R :=
  smoothness_cost c + safety_cost c.

(** Modelled from the spec: the comparison of [ComparableCost]
    ([ComparableCost::CompareTo], absent from the sources): lexicographic,
    first on [has_collision], then on [out_of_boundary], then on the scalar
    sum.  [Gt] reads "compares worse", [Lt] "compares better". *)
Definition CompareTo (a b : ComparableCost) : comparison :=
  match has_collision a, has_collision b with
  | true, false => Gt
  | false, true => Lt
  | _, _ =>
      match out_of_boundary a, out_of_boundary b with
      | true, false => Gt
      | false, true => Lt
      | _, _ => Rcompare (cost_total a) (cost_total b)
      end
  end.

(** [a] is at most as bad as [b]. *)
Definition cost_le (a b : ComparableCost) : Prop := CompareTo a b <> Gt.

(** ** Outcome of a call

    A call either returns, or its station loop does not come to an end
    within the fuel given ([OutOfFuel]), or [std::vector::at] throws
    [std::out_of_range] ([OutOfRange]), or a [double] outside the range of
    [uint32_t] is cast to it ([UndefinedCast]), or a loop over a [uint32_t]
    counter can never leave ([Diverges]). *)

Inductive Failure : Type := OutOfFuel | OutOfRange | UndefinedCast | Diverges.

Inductive Result (A : Type) : Type :=
| Ok (a : A)
| Fail (e : Failure).
Arguments Ok {A} a.
Arguments Fail {A} e.

Definition bind {A B : Type} (m : Result A) (k : A -> Result B) : Result B :=
  match m with
  | Ok a => k a
  | Fail e => Fail e
  end.

Notation "x <- m ;; k" := (bind m (fun x => k))
  (at level 61, m at next level, right associativity).

(** ** Data consumed through the collaborators' interfaces *)

Module Vec2d.
Record t : Type := mk { x : R; y : R }.

(** Modelled from the spec: [Vec2d::operator+] ([modules/common/math/vec2d.h]
    is not part of the sources at hand), the component-wise sum. *)
Definition add (a b : t) : t := mk (x a + x b) (y a + y b).

(** Modelled from the spec: [Vec2d::rotate], absent like [operator+]: the
    vector rotated by [angle]. *)
Definition rotate (a : t) (angle : R) : t :=
  mk (x a * cos angle - y a * sin angle) (x a * sin angle + y a * cos angle).
End Vec2d.

Module Box2d.
(** An oriented rectangle: [Box2d(center, heading, length, width)]. *)
Record t : Type := mk { center : Vec2d.t; heading : R; length : R; width : R }.
End Box2d.

Module SLPoint.
Record t : Type := mk { s : R; l : R }.
End SLPoint.

Module SLBoundary.
Record t : Type := mk { start_s : R; end_s : R; start_l : R; end_l : R }.
End SLBoundary.

Module SpeedPoint.
Record t : Type := mk { s : R; t_ : R; v : R }.
(** A default-constructed [common::SpeedPoint]. *)
Definition default : t := mk 0 0 0.
End SpeedPoint.

Module SpeedData.
(** [EvaluateByTime t] is [Some p] when the call returns [true] and writes
    [p] through its out-parameter, [None] when it returns [false] and leaves
    the out-parameter alone. *)
Record t : Type := mk {
  TotalTime : R;
  EvaluateByTime : R -> option SpeedPoint.t
}.
End SpeedData.

Module VehicleParam.
Record t : Type := mk {
  front_edge_to_center : R;
  back_edge_to_center : R;
  left_edge_to_center : R;
  right_edge_to_center : R;
  length : R;
  width : R
}.
End VehicleParam.

Module ReferencePoint.
Record t : Type := mk { heading : R; kappa : R }.
End ReferencePoint.

Module ReferenceLine.
(** [GetLaneWidth] and [SLToXY] answer through out-parameters and return a
    [bool] the caller drops: [None] is the call that returns [false] and
    writes nothing. *)
Record t : Type := mk {
  GetLaneWidth : R -> option (R * R);
  SLToXY : SLPoint.t -> option Vec2d.t;
  GetReferencePoint : R -> ReferencePoint.t
}.
End ReferenceLine.

Module QuinticPolynomialCurve1d.
(** [Evaluate order param]: the derivative of order [order] at [param]. *)
Record t : Type := mk { Evaluate : nat -> R -> R }.
End QuinticPolynomialCurve1d.

Module TrajectoryPoint.
Record t : Type := mk { x : R; y : R; theta : R; relative_time : R }.
End TrajectoryPoint.

Inductive PerceptionObstacleType : Type :=
| UNKNOWN | UNKNOWN_MOVABLE | UNKNOWN_UNMOVABLE | PEDESTRIAN | BICYCLE | VEHICLE.

Module Obstacle.
Record t : Type := mk {
  IsIgnore : bool;
  LongitudinalDecision_has_stop : bool;
  PerceptionSLBoundary : SLBoundary.t;
  Perception_type : PerceptionObstacleType;
  IsVirtual : bool;
  IsStatic : bool;
  GetPointAtTime : R -> TrajectoryPoint.t;
  GetBoundingBox : TrajectoryPoint.t -> Box2d.t
}.
End Obstacle.

Module DpPolyPathConfig.
(** The fields of the configuration message that the source reads. *)
Record t : Type := mk {
  eval_time_interval : R;
  path_resolution : R;
  path_l_cost : R;
  path_l_cost_param_l0 : R;
  path_l_cost_param_b : R;
  path_l_cost_param_k : R;
  path_dl_cost : R;
  path_ddl_cost : R;
  path_end_l_cost : R;
  obstacle_ignore_distance : R;
  obstacle_collision_cost : R;
  obstacle_collision_distance : R;
  obstacle_risk_distance : R
}.
End DpPolyPathConfig.

(** What the source takes from outside the class: helper functions of the
    math library, [libm], the command-line flags and the vehicle
    configuration singleton. *)
Record Externals : Type := mkExternals {
  Sigmoid : R -> R;
  DistanceTo : Box2d.t -> Box2d.t -> R;
  atan2 : R -> R -> R;
  NormalizeAngle : R -> R;
  FLAGS_prediction_total_time : R;
  FLAGS_lateral_ignore_buffer : R;
  VehicleConfigHelper_vehicle_param : VehicleParam.t
}.

(** The data members of [TrajectoryCost]. *)
Module TrajectoryCost.
Record t : Type := mk {
  config_ : DpPolyPathConfig.t;
  reference_line_ : ReferenceLine.t;
  is_change_lane_path_ : bool;
  vehicle_param_ : VehicleParam.t;
  heuristic_speed_data_ : SpeedData.t;
  init_sl_point_ : SLPoint.t;
  adc_sl_boundary_ : SLBoundary.t;
  num_of_time_stamps_ : nat;
  static_obstacle_sl_boundaries_ : list SLBoundary.t;
  dynamic_obstacle_boxes_ : list (list Box2d.t)
}.
End TrajectoryCost.

(** ** The class [TrajectoryCost] *)

Definition uint32_max : Z := 4294967295.

(** [static_cast<uint32_t>] of a [double] that [std::floor] returned. *)
Definition static_cast_uint32 (z : Z) : Result nat :=
  if ((0 <=? z) && (z <=? uint32_max))%Z then Ok (Z.to_nat z)
  else Fail UndefinedCast.

(** [PointFactory::ToSLPoint]. *)
Definition ToSLPoint (s l : R) : SLPoint.t := SLPoint.mk s l.

Definition kBuff : R := 0.5.

(** The obstacle's box at one trajectory point, [kBuff] added to its length
    and to its width. *)
Definition expanded_obstacle_box (obstacle_box : Box2d.t) : Box2d.t :=
  Box2d.mk (Box2d.center obstacle_box) (Box2d.heading obstacle_box)
           (Box2d.length obstacle_box + kBuff) (Box2d.width obstacle_box + kBuff).

Definition uint32_modulus : Z := 4294967296.

(** [for (uint32_t t = 0; t <= num_of_time_stamps_; ++t)] of the
    constructor: [t] is the counter, [++t] wraps around at [2^32]. *)
Fixpoint box_by_time_loop (ptr_obstacle : Obstacle.t) (eval_time_interval : R)
    (num_of_time_stamps : Z) (fuel : nat) (t : Z) (box_by_time : list Box2d.t)
    : Result (list Box2d.t) :=
  if (t <=? num_of_time_stamps)%Z then
    match fuel with
    | O => Fail Diverges
    | S fuel' =>
        let trajectory_point :=
          Obstacle.GetPointAtTime ptr_obstacle (IZR t * eval_time_interval) in
        let obstacle_box :=
          Obstacle.GetBoundingBox ptr_obstacle trajectory_point in
        box_by_time_loop ptr_obstacle eval_time_interval num_of_time_stamps
          fuel' ((t + 1) mod uint32_modulus)%Z
          (box_by_time ++ [expanded_obstacle_box obstacle_box])
    end
  else Ok box_by_time.

(** The loop is given [num_of_time_stamps_ + 1] rounds.  It leaves within
    them unless [num_of_time_stamps_] is the largest [uint32_t]: then
    [t <= num_of_time_stamps_] holds for every [t], the counter is back at
    [0] after [2^32] rounds and the loop never leaves. *)
Definition box_by_time_of (ptr_obstacle : Obstacle.t) (eval_time_interval : R)
    (num_of_time_stamps : nat) : Result (list Box2d.t) :=
  box_by_time_loop ptr_obstacle eval_time_interval (Z.of_nat num_of_time_stamps)
    (S num_of_time_stamps) 0%Z [].

Definition is_bycycle_or_pedestrian (ptr_obstacle : Obstacle.t) : bool :=
  match Obstacle.Perception_type ptr_obstacle with
  | BICYCLE | PEDESTRIAN => true
  | _ => false
  end.

Section Methods.

Variable ext : Externals.

(** One round of [for (const auto *ptr_obstacle : obstacles)] in the
    constructor; the pair holds [static_obstacle_sl_boundaries_] and
    [dynamic_obstacle_boxes_]. *)
Definition classify_obstacle (config : DpPolyPathConfig.t)
    (vehicle_param : VehicleParam.t) (init_sl_point : SLPoint.t)
    (num_of_time_stamps : nat)
    (caches : list SLBoundary.t * list (list Box2d.t))
    (ptr_obstacle : Obstacle.t)
    : Result (list SLBoundary.t * list (list Box2d.t)) :=
  if Obstacle.IsIgnore ptr_obstacle then Ok caches
  else if Obstacle.LongitudinalDecision_has_stop ptr_obstacle then Ok caches
  else
    let sl_boundary := Obstacle.PerceptionSLBoundary ptr_obstacle in
    let adc_left_l :=
      SLPoint.l init_sl_point + VehicleParam.left_edge_to_center vehicle_param in
    let adc_right_l :=
      SLPoint.l init_sl_point - VehicleParam.right_edge_to_center vehicle_param in
    if Rltb (adc_left_l + FLAGS_lateral_ignore_buffer ext)
            (SLBoundary.start_l sl_boundary)
       || Rgtb (adc_right_l - FLAGS_lateral_ignore_buffer ext)
               (SLBoundary.end_l sl_boundary)
    then Ok caches
    else if Obstacle.IsVirtual ptr_obstacle then Ok caches
    else if Obstacle.IsStatic ptr_obstacle || is_bycycle_or_pedestrian ptr_obstacle
    then Ok (fst caches ++ [sl_boundary], snd caches)
    else
      box_by_time <- box_by_time_of ptr_obstacle
                       (DpPolyPathConfig.eval_time_interval config)
                       num_of_time_stamps ;;
      Ok (fst caches, snd caches ++ [box_by_time]).

Fixpoint classify_obstacles (config : DpPolyPathConfig.t)
    (vehicle_param : VehicleParam.t) (init_sl_point : SLPoint.t)
    (num_of_time_stamps : nat) (obstacles : list Obstacle.t)
    (caches : list SLBoundary.t * list (list Box2d.t))
    : Result (list SLBoundary.t * list (list Box2d.t)) :=
  match obstacles with
  | [] => Ok caches
  | ptr_obstacle :: rest =>
      caches' <- classify_obstacle config vehicle_param init_sl_point
                   num_of_time_stamps caches ptr_obstacle ;;
      classify_obstacles config vehicle_param init_sl_point
        num_of_time_stamps rest caches'
  end.

(** [TrajectoryCost::TrajectoryCost].  Divided by an interval of [0] the
    total time is an infinity or NaN, which [std::floor] hands on to the
    cast: no [uint32_t] stands for it. *)
Definition TrajectoryCost_ctor (config : DpPolyPathConfig.t)
    (reference_line : ReferenceLine.t) (is_change_lane_path : bool)
    (obstacles : list Obstacle.t) (vehicle_param : VehicleParam.t)
    (heuristic_speed_data : SpeedData.t) (init_sl_point : SLPoint.t)
    (adc_sl_boundary : SLBoundary.t) : Result TrajectoryCost.t :=
  let total_time :=
    Rmin (SpeedData.TotalTime heuristic_speed_data)
         (FLAGS_prediction_total_time ext) in
  num_of_time_stamps <-
    (if Reqb (DpPolyPathConfig.eval_time_interval config) 0
     then Fail UndefinedCast
     else static_cast_uint32
            (Zfloor (total_time / DpPolyPathConfig.eval_time_interval config))) ;;
  caches <- classify_obstacles config vehicle_param init_sl_point
              num_of_time_stamps obstacles ([], []) ;;
  Ok (TrajectoryCost.mk config reference_line is_change_lane_path
        vehicle_param heuristic_speed_data init_sl_point adc_sl_boundary
        num_of_time_stamps (fst caches) (snd caches)).

Variable this : TrajectoryCost.t.

#[local] Abbreviation config_ := (TrajectoryCost.config_ this).
#[local] Abbreviation init_sl_point_ := (TrajectoryCost.init_sl_point_ this).

(** The lambda [quasi_softmax] of [CalculatePathCost]. *)
Definition quasi_softmax (x : R) : R :=
  let l0 := DpPolyPathConfig.path_l_cost_param_l0 config_ in
  let b := DpPolyPathConfig.path_l_cost_param_b config_ in
  let k := DpPolyPathConfig.path_l_cost_param_k config_ in
  (b + exp (- k * (x - l0))) / (1 + exp (- k * (x - l0))).

(** [TrajectoryCost::IsOffRoad]. *)
Definition IsOffRoad (ref_s l dl : R) (is_change_lane_path : bool) : bool :=
  let kIgnoreDistance := 5 in
  if Rltb (ref_s - SLPoint.s init_sl_point_) kIgnoreDistance then false
  else
    let rear_center := Vec2d.mk 0 l in
    let param := VehicleConfigHelper_vehicle_param ext in
    let vec_to_center :=
      Vec2d.mk
        ((VehicleParam.front_edge_to_center param
          - VehicleParam.back_edge_to_center param) / 2)
        ((VehicleParam.left_edge_to_center param
          - VehicleParam.right_edge_to_center param) / 2) in
    let rear_center_to_center := Vec2d.rotate vec_to_center (atan dl) in
    let center := Vec2d.add rear_center rear_center_to_center in
    let front_center := Vec2d.add center rear_center_to_center in
    let buffer := 0.1 in
    let r_w :=
      (VehicleParam.left_edge_to_center param
       + VehicleParam.right_edge_to_center param) / 2 in
    let r_l := VehicleParam.back_edge_to_center param in
    let r := sqrt (r_w * r_w + r_l * r_l) in
    let widths :=
      match ReferenceLine.GetLaneWidth (TrajectoryCost.reference_line_ this) ref_s with
      | Some lr => lr
      | None => (0, 0)
      end in
    let left_width := fst widths in
    let right_width := snd widths in
    let left_bound := Rmax (SLPoint.l init_sl_point_ + r + buffer) left_width in
    let right_bound := Rmin (SLPoint.l init_sl_point_ - r - buffer) (- right_width) in
    if Rgtb (Vec2d.y rear_center + r + buffer / 2) left_bound
       || Rltb (Vec2d.y rear_center - r - buffer / 2) right_bound
    then true
    else if Rgtb (Vec2d.y front_center + r + buffer / 2) left_bound
            || Rltb (Vec2d.y front_center - r - buffer / 2) right_bound
    then true
    else false.

(** The [for] loop of [CalculatePathCost]; the state is the counter
    [curve_s], the local [cost] and the local [path_cost]. *)
Fixpoint path_cost_loop (fuel : nat) (curve : QuinticPolynomialCurve1d.t)
    (start_s end_s : R) (curve_s : R) (cost : ComparableCost) (path_cost : R)
    : Result (ComparableCost * R) :=
  if Rltb curve_s (end_s - start_s) then
    match fuel with
    | O => Fail OutOfFuel
    | S fuel' =>
        let l := QuinticPolynomialCurve1d.Evaluate curve 0 curve_s in
        let path_cost :=
          path_cost
          + l * l * DpPolyPathConfig.path_l_cost config_ * quasi_softmax (Rabs l) in
        let dl := Rabs (QuinticPolynomialCurve1d.Evaluate curve 1 curve_s) in
        let cost :=
          if IsOffRoad (curve_s + start_s) l dl
               (TrajectoryCost.is_change_lane_path_ this)
          then set_out_of_boundary cost else cost in
        let path_cost :=
          path_cost + dl * dl * DpPolyPathConfig.path_dl_cost config_ in
        let ddl := Rabs (QuinticPolynomialCurve1d.Evaluate curve 2 curve_s) in
        let path_cost :=
          path_cost + ddl * ddl * DpPolyPathConfig.path_ddl_cost config_ in
        path_cost_loop fuel' curve start_s end_s
          (curve_s + DpPolyPathConfig.path_resolution config_) cost path_cost
    end
  else Ok (cost, path_cost).

(** [TrajectoryCost::CalculatePathCost]. *)
Definition CalculatePathCost (fuel : nat) (curve : QuinticPolynomialCurve1d.t)
    (start_s end_s : R) (curr_level total_level : N) : Result ComparableCost :=
  let cost := cost_default in
  let path_cost := 0 in
  st <- path_cost_loop fuel curve start_s end_s 0 cost path_cost ;;
  let cost := fst st in
  let path_cost := snd st in
  let path_cost := path_cost * DpPolyPathConfig.path_resolution config_ in
  let path_cost :=
    if (curr_level =? total_level)%N then
      let end_l := QuinticPolynomialCurve1d.Evaluate curve 0 (end_s - start_s) in
      path_cost
      + sqrt (end_l - SLPoint.l init_sl_point_ / 2)
        * DpPolyPathConfig.path_end_l_cost config_
    else path_cost in
  Ok (set_smoothness_cost cost path_cost).

Definition kSafeDistance : R := 0.6.

(** [TrajectoryCost::GetCostFromObsSL]. *)
Definition GetCostFromObsSL (adc_s adc_l : R) (obs_sl_boundary : SLBoundary.t)
    : ComparableCost :=
  let vehicle_param := VehicleConfigHelper_vehicle_param ext in
  let obstacle_cost := cost_default in
  if Rleb (SLBoundary.start_l obs_sl_boundary * SLBoundary.end_l obs_sl_boundary) 0
  then obstacle_cost
  else
    let adc_front_s := adc_s + VehicleParam.front_edge_to_center vehicle_param in
    let adc_end_s := adc_s - VehicleParam.back_edge_to_center vehicle_param in
    let adc_left_l := adc_l + VehicleParam.left_edge_to_center vehicle_param in
    let adc_right_l := adc_l - VehicleParam.right_edge_to_center vehicle_param in
    if Rltb (adc_left_l + FLAGS_lateral_ignore_buffer ext)
            (SLBoundary.start_l obs_sl_boundary)
       || Rgtb (adc_right_l - FLAGS_lateral_ignore_buffer ext)
               (SLBoundary.end_l obs_sl_boundary)
    then obstacle_cost
    else
      let no_overlap :=
        (Rltb adc_front_s (SLBoundary.start_s obs_sl_boundary)
         || Rgtb adc_end_s (SLBoundary.end_s obs_sl_boundary))
        || (Rltb (adc_left_l + 0.1) (SLBoundary.start_l obs_sl_boundary)
            || Rgtb (adc_right_l - 0.1) (SLBoundary.end_l obs_sl_boundary)) in
      let obstacle_cost :=
        if negb no_overlap then set_has_collision obstacle_cost
        else obstacle_cost in
      if Rgtb adc_front_s (SLBoundary.end_s obs_sl_boundary) then obstacle_cost
      else
        let delta_l :=
          Rmax (adc_right_l - SLBoundary.end_l obs_sl_boundary)
               (SLBoundary.start_l obs_sl_boundary - adc_left_l) in
        if Rltb delta_l kSafeDistance then
          set_safety_cost obstacle_cost
            (safety_cost obstacle_cost
             + DpPolyPathConfig.obstacle_collision_cost config_
               * Sigmoid ext
                   (DpPolyPathConfig.obstacle_collision_distance config_ - delta_l))
        else obstacle_cost.

(** The inner loop of [CalculateStaticObstacleCost], over
    [static_obstacle_sl_boundaries_]. *)
Definition static_obstacles_at (curr_s curr_l : R) (obstacle_cost : ComparableCost)
    : ComparableCost :=
  fold_left
    (fun acc obs_sl_boundary =>
       cost_add acc (GetCostFromObsSL curr_s curr_l obs_sl_boundary))
    (TrajectoryCost.static_obstacle_sl_boundaries_ this) obstacle_cost.

(** The outer loop of [CalculateStaticObstacleCost], over [curr_s]. *)
Fixpoint static_cost_loop (fuel : nat) (curve : QuinticPolynomialCurve1d.t)
    (start_s end_s : R) (curr_s : R) (obstacle_cost : ComparableCost)
    : Result ComparableCost :=
  if Rleb curr_s end_s then
    match fuel with
    | O => Fail OutOfFuel
    | S fuel' =>
        let curr_l :=
          QuinticPolynomialCurve1d.Evaluate curve 0 (curr_s - start_s) in
        static_cost_loop fuel' curve start_s end_s
          (curr_s + DpPolyPathConfig.path_resolution config_)
          (static_obstacles_at curr_s curr_l obstacle_cost)
    end
  else Ok obstacle_cost.

(** [TrajectoryCost::CalculateStaticObstacleCost]. *)
Definition CalculateStaticObstacleCost (fuel : nat)
    (curve : QuinticPolynomialCurve1d.t) (start_s end_s : R)
    : Result ComparableCost :=
  obstacle_cost <- static_cost_loop fuel curve start_s end_s start_s cost_default ;;
  Ok (set_safety_cost obstacle_cost
        (safety_cost obstacle_cost * DpPolyPathConfig.path_resolution config_)).

(** [TrajectoryCost::GetBoxFromSLPoint]. *)
Definition GetBoxFromSLPoint (sl : SLPoint.t) (dl : R) : Box2d.t :=
  let xy_point :=
    match ReferenceLine.SLToXY (TrajectoryCost.reference_line_ this) sl with
    | Some p => p
    | None => Vec2d.mk 0 0
    end in
  let reference_point :=
    ReferenceLine.GetReferencePoint (TrajectoryCost.reference_line_ this)
      (SLPoint.s sl) in
  let one_minus_kappa_r_d :=
    1 - ReferencePoint.kappa reference_point * SLPoint.l sl in
  let delta_theta := atan2 ext dl one_minus_kappa_r_d in
  let theta :=
    NormalizeAngle ext (delta_theta + ReferencePoint.heading reference_point) in
  Box2d.mk xy_point theta
    (VehicleParam.length (TrajectoryCost.vehicle_param_ this))
    (VehicleParam.width (TrajectoryCost.vehicle_param_ this)).

(** [TrajectoryCost::GetCostBetweenObsBoxes]. *)
Definition GetCostBetweenObsBoxes (ego_box obstacle_box : Box2d.t)
    : ComparableCost :=
  let obstacle_cost := cost_default in
  let distance := DistanceTo ext obstacle_box ego_box in
  if Rgtb distance (DpPolyPathConfig.obstacle_ignore_distance config_)
  then obstacle_cost
  else
    let obstacle_cost :=
      set_safety_cost obstacle_cost
        (safety_cost obstacle_cost
         + DpPolyPathConfig.obstacle_collision_cost config_
           * Sigmoid ext
               (DpPolyPathConfig.obstacle_collision_distance config_ - distance)) in
    let obstacle_cost :=
      set_safety_cost obstacle_cost
        (safety_cost obstacle_cost
         + 20 * Sigmoid ext
                  (DpPolyPathConfig.obstacle_risk_distance config_ - distance)) in
    obstacle_cost.

(** The inner loop of [CalculateDynamicObstacleCost], over
    [dynamic_obstacle_boxes_]; [obstacle_trajectory.at(index)] throws when
    the trajectory has no entry [index]. *)
Fixpoint dynamic_obstacles_at (ego_box : Box2d.t) (index : nat)
    (trajectories : list (list Box2d.t)) (obstacle_cost : ComparableCost)
    : Result ComparableCost :=
  match trajectories with
  | [] => Ok obstacle_cost
  | obstacle_trajectory :: rest =>
      match nth_error obstacle_trajectory index with
      | None => Fail OutOfRange
      | Some obstacle_box =>
          dynamic_obstacles_at ego_box index rest
            (cost_add obstacle_cost (GetCostBetweenObsBoxes ego_box obstacle_box))
      end
  end.

(** The station the heuristic speed profile gives at [time_stamp], from the
    ego's initial station on. *)
Definition ref_s_at (time_stamp : R) : R :=
  let speed_point :=
    match SpeedData.EvaluateByTime (TrajectoryCost.heuristic_speed_data_ this)
            time_stamp with
    | Some p => p
    | None => SpeedPoint.default
    end in
  SpeedPoint.s speed_point + SLPoint.s init_sl_point_.

(** The ego box of one time step of [CalculateDynamicObstacleCost]. *)
Definition ego_box_at (curve : QuinticPolynomialCurve1d.t) (start_s ref_s : R)
    : Box2d.t :=
  let s := ref_s - start_s in
  let l := QuinticPolynomialCurve1d.Evaluate curve 0 s in
  let dl := QuinticPolynomialCurve1d.Evaluate curve 1 s in
  let sl := ToSLPoint ref_s l in
  GetBoxFromSLPoint sl dl.

(** The outer loop of [CalculateDynamicObstacleCost]: [n] is what is left
    of [num_of_time_stamps_ - index]; [continue] goes on with the next
    index and time stamp, [break] leaves with the cost so far. *)
Fixpoint dynamic_cost_loop (n : nat) (curve : QuinticPolynomialCurve1d.t)
    (start_s end_s : R) (index : nat) (time_stamp : R)
    (obstacle_cost : ComparableCost) : Result ComparableCost :=
  match n with
  | O => Ok obstacle_cost
  | S n' =>
      let ref_s := ref_s_at time_stamp in
      if Rltb ref_s start_s then
        dynamic_cost_loop n' curve start_s end_s (S index)
          (time_stamp + DpPolyPathConfig.eval_time_interval config_) obstacle_cost
      else if Rgtb ref_s end_s then Ok obstacle_cost
      else
        let ego_box := ego_box_at curve start_s ref_s in
        obstacle_cost' <-
          dynamic_obstacles_at ego_box index
            (TrajectoryCost.dynamic_obstacle_boxes_ this) obstacle_cost ;;
        dynamic_cost_loop n' curve start_s end_s (S index)
          (time_stamp + DpPolyPathConfig.eval_time_interval config_) obstacle_cost'
  end.

Definition kDynamicObsWeight : R := 1 / 1000000.

(** [TrajectoryCost::CalculateDynamicObstacleCost]. *)
Definition CalculateDynamicObstacleCost (curve : QuinticPolynomialCurve1d.t)
    (start_s end_s : R) : Result ComparableCost :=
  let obstacle_cost := cost_default in
  match TrajectoryCost.dynamic_obstacle_boxes_ this with
  | [] => Ok obstacle_cost
  | _ :: _ =>
      let time_stamp := 0 in
      obstacle_cost <-
        dynamic_cost_loop (TrajectoryCost.num_of_time_stamps_ this) curve
          start_s end_s 0%nat time_stamp obstacle_cost ;;
      Ok (set_safety_cost obstacle_cost
            (safety_cost obstacle_cost
             * (DpPolyPathConfig.eval_time_interval config_ * kDynamicObsWeight)))
  end.

(** [TrajectoryCost::Calculate]. *)
Definition Calculate (fuel : nat) (curve : QuinticPolynomialCurve1d.t)
    (start_s end_s : R) (curr_level total_level : N) : Result ComparableCost :=
  let total_cost := cost_default in
  path_cost <- CalculatePathCost fuel curve start_s end_s curr_level total_level ;;
  let total_cost := cost_add total_cost path_cost in
  static_cost <- CalculateStaticObstacleCost fuel curve start_s end_s ;;
  let total_cost := cost_add total_cost static_cost in
  dynamic_cost <- CalculateDynamicObstacleCost curve start_s end_s ;;
  let total_cost := cost_add total_cost dynamic_cost in
  Ok total_cost.

(** ** The member calls

    A call of one of the four cost functions, with its arguments. *)

Inductive MemberCall : Type :=
| CallCalculate (fuel : nat) (curve : QuinticPolynomialCurve1d.t)
    (start_s end_s : R) (curr_level total_level : N)
| CallCalculatePathCost (fuel : nat) (curve : QuinticPolynomialCurve1d.t)
    (start_s end_s : R) (curr_level total_level : N)
| CallCalculateStaticObstacleCost (fuel : nat)
    (curve : QuinticPolynomialCurve1d.t) (start_s end_s : R)
| CallCalculateDynamicObstacleCost (curve : QuinticPolynomialCurve1d.t)
    (start_s end_s : R).

End Methods.

(** ** The specification's reading of the costs *)

Definition Rsum (xs : list R) : R := fold_right Rplus 0 xs.

(** The shaping function of the 0th-derivative term as the specification
    writes it, with its parameters [(l0, b, k)] explicit. *)
Definition spec_quasi_softmax (l0 b k x : R) : R :=
  (b + exp (- k * (x - l0))) / (1 + exp (- k * (x - l0))).

(** The penalty of one sample station: [l], [dl], [ddl] are the magnitudes
    of the curve's value and of its first and second derivative there. *)
Definition spec_path_term (config : DpPolyPathConfig.t)
    (curve : QuinticPolynomialCurve1d.t) (curve_s : R) : R :=
  let l := Rabs (QuinticPolynomialCurve1d.Evaluate curve 0 curve_s) in
  let dl := Rabs (QuinticPolynomialCurve1d.Evaluate curve 1 curve_s) in
  let ddl := Rabs (QuinticPolynomialCurve1d.Evaluate curve 2 curve_s) in
  l ^ 2 * DpPolyPathConfig.path_l_cost config
    * spec_quasi_softmax (DpPolyPathConfig.path_l_cost_param_l0 config)
        (DpPolyPathConfig.path_l_cost_param_b config)
        (DpPolyPathConfig.path_l_cost_param_k config) (Rabs l)
  + dl ^ 2 * DpPolyPathConfig.path_dl_cost config
  + ddl ^ 2 * DpPolyPathConfig.path_ddl_cost config.

(** The end-offset penalty of the terminal level. *)
Definition spec_end_l_term (this : TrajectoryCost.t)
    (curve : QuinticPolynomialCurve1d.t) (start_s end_s : R) : R :=
  let end_l := QuinticPolynomialCurve1d.Evaluate curve 0 (end_s - start_s) in
  let init_l := SLPoint.l (TrajectoryCost.init_sl_point_ this) in
  sqrt (end_l - init_l / 2)
  * DpPolyPathConfig.path_end_l_cost (TrajectoryCost.config_ this).

(** The smoothness cost over the sample stations [0], [resolution], ...,
    [(n - 1) * resolution]: the sum of the penalties, times the
    resolution, plus the terminal-level term when it applies. *)
Definition spec_smoothness_cost (this : TrajectoryCost.t)
    (curve : QuinticPolynomialCurve1d.t) (start_s end_s : R)
    (curr_level total_level : N) (n : nat) : R :=
  let config := TrajectoryCost.config_ this in
  let resolution := DpPolyPathConfig.path_resolution config in
  Rsum (map (fun k => spec_path_term config curve (INR k * resolution)) (seq 0 n))
  * resolution
  + (if (curr_level =? total_level)%N
     then spec_end_l_term this curve start_s end_s else 0).

(** Whether the sample station of index [j] is off the road, as the loop
    of [CalculatePathCost] asks. *)
Definition off_road_at (ext : Externals) (this : TrajectoryCost.t)
    (curve : QuinticPolynomialCurve1d.t) (start_s : R) (j : nat) : bool :=
  let curve_s :=
    INR j * DpPolyPathConfig.path_resolution (TrajectoryCost.config_ this) in
  IsOffRoad ext this (curve_s + start_s)
    (QuinticPolynomialCurve1d.Evaluate curve 0 curve_s)
    (Rabs (QuinticPolynomialCurve1d.Evaluate curve 1 curve_s))
    (TrajectoryCost.is_change_lane_path_ this).

(** The sample station of index [j] of [CalculateStaticObstacleCost], and
    whether the ego there collides with one of the cached static
    boundaries, as [GetCostFromObsSL] finds. *)
Definition static_station (this : TrajectoryCost.t) (start_s : R) (j : nat) : R :=
  start_s
  + INR j * DpPolyPathConfig.path_resolution (TrajectoryCost.config_ this).


(** The longest prefix of a list whose members all pass [keep]. *)
Fixpoint take_while {A : Type} (keep : A -> bool) (xs : list A) : list A :=
  match xs with
  | [] => []
  | x :: rest => if keep x then x :: take_while keep rest else []
  end.

(** The ego station of time index [i]: the speed profile's station at
    [i * eval_time_interval] plus the initial station. *)
Definition spec_station (this : TrajectoryCost.t) (i : nat) : R :=
  ref_s_at this
    (INR i * DpPolyPathConfig.eval_time_interval (TrajectoryCost.config_ this)).

(** A step is skipped when its station is below [start_s]; the loop stops
    at a step whose station exceeds [end_s]. *)
Definition step_skipped (this : TrajectoryCost.t) (start_s : R) (i : nat) : bool :=
  Rltb (spec_station this i) start_s.
Definition step_stops (this : TrajectoryCost.t) (end_s : R) (i : nat) : bool :=
  Rgtb (spec_station this i) end_s.

(** The time indices at which the dynamic cost is evaluated, from [index]
    on, for any [start_s] and [end_s], also [end_s < start_s]: the loop
    asks first whether a step is skipped, so it stops at the first step
    that is not skipped and whose station exceeds [end_s]. *)
Definition evaluated_steps_from (this : TrajectoryCost.t) (start_s end_s : R)
    (index n : nat) : list nat :=
  filter (fun i => negb (step_skipped this start_s i))
    (take_while
       (fun i => step_skipped this start_s i || negb (step_stops this end_s i))
       (seq index n)).

Definition evaluated_steps (this : TrajectoryCost.t) (start_s end_s : R)
    : list nat :=
  evaluated_steps_from this start_s end_s 0
    (TrajectoryCost.num_of_time_stamps_ this).

(** The penalty of [ego_box] against the entry [index] of each of
    [trajectories]. *)
Definition penalties_at (ext : Externals) (this : TrajectoryCost.t)
    (ego_box : Box2d.t) (index : nat) (trajectories : list (list Box2d.t)) : R :=
  Rsum (map (fun obstacle_trajectory =>
               match nth_error obstacle_trajectory index with
               | Some obstacle_box =>
                   safety_cost (GetCostBetweenObsBoxes ext this ego_box obstacle_box)
               | None => 0
               end) trajectories).

(** The penalty of time index [i]: the ego footprint of that step against
    the footprint of index [i] of every cached trajectory. *)
Definition spec_step_penalty (ext : Externals) (this : TrajectoryCost.t)
    (curve : QuinticPolynomialCurve1d.t) (start_s : R) (i : nat) : R :=
  penalties_at ext this
    (ego_box_at ext this curve start_s (spec_station this i)) i
    (TrajectoryCost.dynamic_obstacle_boxes_ this).

Definition spec_dynamic_safety_cost (ext : Externals) (this : TrajectoryCost.t)
    (curve : QuinticPolynomialCurve1d.t) (start_s end_s : R) : R :=
  Rsum (map (spec_step_penalty ext this curve start_s)
          (evaluated_steps this start_s end_s))
  * (DpPolyPathConfig.eval_time_interval (TrajectoryCost.config_ this)
     * kDynamicObsWeight).

(** A cached trajectory that has [num_time_steps + 1] footprints, the one of
    index [t] being the box of one obstacle at time [t * interval], longer
    and wider by [0.5]. *)
Definition trajectory_time_aligned (obstacles : list Obstacle.t)
    (interval : R) (num_time_steps : nat) (trajectory : list Box2d.t) : Prop :=
  length trajectory = S num_time_steps
  /\ exists ptr_obstacle,
       In ptr_obstacle obstacles
       /\ forall t, (t <= num_time_steps)%nat ->
            let obstacle_box :=
              Obstacle.GetBoundingBox ptr_obstacle
                (Obstacle.GetPointAtTime ptr_obstacle (INR t * interval)) in
            nth_error trajectory t
            = Some (Box2d.mk (Box2d.center obstacle_box)
                      (Box2d.heading obstacle_box)
                      (Box2d.length obstacle_box + 0.5)
                      (Box2d.width obstacle_box + 0.5)).

(** ** A small scenario

    A straight road, a vehicle of 5 by 2, a speed profile of constant speed
    2 over 2 seconds, steps of half a second, and a curve that stays at
    lateral offset 0. *)

Definition logistic (x : R) : R := 1 / (1 + exp (- x)).

Definition ex_vehicle_param : VehicleParam.t := VehicleParam.mk 4 1 1 1 5 2.

(** The distance of two boxes is taken between their centers here, the
    heading is [atan] of the slope, angles are left as they are. *)
Definition ex_ext : Externals :=
  mkExternals logistic
    (fun a b =>
       Rabs (Vec2d.x (Box2d.center a) - Vec2d.x (Box2d.center b))
       + Rabs (Vec2d.y (Box2d.center a) - Vec2d.y (Box2d.center b)))
    (fun y x => atan (y / x))
    (fun a => a)
    5 3 ex_vehicle_param.

Definition ex_config : DpPolyPathConfig.t :=
  DpPolyPathConfig.mk 0.5 1 1 1.5 0.4 1.5 4000 1000 10000 20 30000 0.5 2.

Definition ex_reference_line : ReferenceLine.t :=
  ReferenceLine.mk
    (fun _ => Some (2, 2))
    (fun sl => Some (Vec2d.mk (SLPoint.s sl) (SLPoint.l sl)))
    (fun _ => ReferencePoint.mk 0 0).

Definition ex_speed_data : SpeedData.t :=
  SpeedData.mk 2 (fun t => Some (SpeedPoint.mk (2 * t) t 2)).

Definition ex_init_sl_point : SLPoint.t := SLPoint.mk 0 0.
Definition ex_adc_sl_boundary : SLBoundary.t := SLBoundary.mk (-1) 4 (-1) 1.

(** A parked car on the right, a vehicle driving ahead along the road, and
    an obstacle that is to be ignored. *)
Definition ex_static_obstacle : Obstacle.t :=
  Obstacle.mk false false (SLBoundary.mk 6 8 1 2) VEHICLE false true
    (fun _ => TrajectoryPoint.mk 7 1.5 0 0)
    (fun p => Box2d.mk (Vec2d.mk (TrajectoryPoint.x p) (TrajectoryPoint.y p))
                (TrajectoryPoint.theta p) 2 1).

Definition ex_dynamic_obstacle : Obstacle.t :=
  Obstacle.mk false false (SLBoundary.mk 10 14 (-1) 1) VEHICLE false false
    (fun t => TrajectoryPoint.mk (12 + 3 * t) 0 0 t)
    (fun p => Box2d.mk (Vec2d.mk (TrajectoryPoint.x p) (TrajectoryPoint.y p))
                (TrajectoryPoint.theta p) 4 2).

Definition ex_ignored_obstacle : Obstacle.t :=
  Obstacle.mk true false (SLBoundary.mk 0 1 0 1) VEHICLE false false
    (fun _ => TrajectoryPoint.mk 0 0 0 0)
    (fun _ => Box2d.mk (Vec2d.mk 0 0) 0 1 1).

Definition ex_obstacles : list Obstacle.t :=
  [ex_static_obstacle; ex_ignored_obstacle; ex_dynamic_obstacle].

Definition ex_box (t : Z) : Box2d.t :=
  Box2d.mk (Vec2d.mk (12 + 3 * (IZR t * 0.5)) 0) 0 (4 + kBuff) (2 + kBuff).

(** The object the constructor builds from the scenario. *)
Definition ex_this : TrajectoryCost.t :=
  TrajectoryCost.mk ex_config ex_reference_line false ex_vehicle_param
    ex_speed_data ex_init_sl_point ex_adc_sl_boundary 4
    [SLBoundary.mk 6 8 1 2]
    [[ex_box 0; ex_box 1; ex_box 2; ex_box 3; ex_box 4]].

Definition ex_curve : QuinticPolynomialCurve1d.t :=
  QuinticPolynomialCurve1d.mk (fun _ _ => 0).

(** ** The constructor's filter, read as predicates *)

(** Whether the constructor goes on to classify [ptr_obstacle]: it is not
    to be ignored, has no stop decision, is within lateral reach of the ego
    and is not virtual. *)
Definition obstacle_kept (ext : Externals) (vehicle_param : VehicleParam.t)
    (init_sl_point : SLPoint.t) (ptr_obstacle : Obstacle.t) : bool :=
  let sl_boundary := Obstacle.PerceptionSLBoundary ptr_obstacle in
  let adc_left_l :=
    SLPoint.l init_sl_point + VehicleParam.left_edge_to_center vehicle_param in
  let adc_right_l :=
    SLPoint.l init_sl_point - VehicleParam.right_edge_to_center vehicle_param in
  negb (Obstacle.IsIgnore ptr_obstacle)
  && negb (Obstacle.LongitudinalDecision_has_stop ptr_obstacle)
  && negb (Rltb (adc_left_l + FLAGS_lateral_ignore_buffer ext)
                (SLBoundary.start_l sl_boundary)
           || Rgtb (adc_right_l - FLAGS_lateral_ignore_buffer ext)
                   (SLBoundary.end_l sl_boundary))
  && negb (Obstacle.IsVirtual ptr_obstacle).

Definition static_like (ptr_obstacle : Obstacle.t) : bool :=
  Obstacle.IsStatic ptr_obstacle || is_bycycle_or_pedestrian ptr_obstacle.

Definition kept_as_static (ext : Externals) (vehicle_param : VehicleParam.t)
    (init_sl_point : SLPoint.t) (ptr_obstacle : Obstacle.t) : bool :=
  obstacle_kept ext vehicle_param init_sl_point ptr_obstacle
  && static_like ptr_obstacle.

Definition kept_as_dynamic (ext : Externals) (vehicle_param : VehicleParam.t)
    (init_sl_point : SLPoint.t) (ptr_obstacle : Obstacle.t) : bool :=
  obstacle_kept ext vehicle_param init_sl_point ptr_obstacle
  && negb (static_like ptr_obstacle).

(** The footprints of [ptr_obstacle] at the times [0], [interval], ...,
    [num_time_steps * interval], each longer and wider by [kBuff]. *)
Definition obstacle_trajectory (interval : R) (num_time_steps : nat)
    (ptr_obstacle : Obstacle.t) : list Box2d.t :=
  map (fun t =>
         expanded_obstacle_box
           (Obstacle.GetBoundingBox ptr_obstacle
              (Obstacle.GetPointAtTime ptr_obstacle (INR t * interval))))
    (seq 0 (S num_time_steps)).

(** The number of time steps the constructor computes, before the cast. *)
Definition time_steps_floor (ext : Externals) (config : DpPolyPathConfig.t)
    (heuristic_speed_data : SpeedData.t) : Z :=
  Zfloor (Rmin (SpeedData.TotalTime heuristic_speed_data)
               (FLAGS_prediction_total_time ext)
          / DpPolyPathConfig.eval_time_interval config).

(** ** The quantities of the off-road check *)

(** The radius [r] that [IsOffRoad] puts around the rear and the front
    center. *)
Definition footprint_radius (ext : Externals) : R :=
  let param := VehicleConfigHelper_vehicle_param ext in
  let r_w :=
    (VehicleParam.left_edge_to_center param
     + VehicleParam.right_edge_to_center param) / 2 in
  let r_l := VehicleParam.back_edge_to_center param in
  sqrt (r_w * r_w + r_l * r_l).

(** The lateral offset of [front_center] for a rear center at [l] and a
    slope [dl]. *)
Definition front_center_y (ext : Externals) (l dl : R) : R :=
  let param := VehicleConfigHelper_vehicle_param ext in
  let vec_to_center :=
    Vec2d.mk
      ((VehicleParam.front_edge_to_center param
        - VehicleParam.back_edge_to_center param) / 2)
      ((VehicleParam.left_edge_to_center param
        - VehicleParam.right_edge_to_center param) / 2) in
  let rear_center_to_center := Vec2d.rotate vec_to_center (atan dl) in
  Vec2d.y (Vec2d.add (Vec2d.add (Vec2d.mk 0 l) rear_center_to_center)
             rear_center_to_center).

(** The lane widths [IsOffRoad] works with at [ref_s]: both stay [0] when
    [GetLaneWidth] fails. *)
Definition lane_widths (this : TrajectoryCost.t) (ref_s : R) : R * R :=
  match ReferenceLine.GetLaneWidth (TrajectoryCost.reference_line_ this) ref_s with
  | Some lr => lr
  | None => (0, 0)
  end.

Definition left_bound (ext : Externals) (this : TrajectoryCost.t) (ref_s : R) : R :=
  Rmax (SLPoint.l (TrajectoryCost.init_sl_point_ this)
        + footprint_radius ext + 0.1)
       (fst (lane_widths this ref_s)).

Definition right_bound (ext : Externals) (this : TrajectoryCost.t) (ref_s : R) : R :=
  Rmin (SLPoint.l (TrajectoryCost.init_sl_point_ this)
        - footprint_radius ext - 0.1)
       (- snd (lane_widths this ref_s)).

(** ** The static cost, sample by sample *)

(** What the cached static boundaries add to the safety cost at the sample
    station of index [j]. *)
Definition static_penalty_at (ext : Externals) (this : TrajectoryCost.t)
    (curve : QuinticPolynomialCurve1d.t) (start_s : R) (j : nat) : R :=
  let curr_s := static_station this start_s j in
  let curr_l := QuinticPolynomialCurve1d.Evaluate curve 0 (curr_s - start_s) in
  Rsum (map (fun obs_sl_boundary =>
               safety_cost (GetCostFromObsSL ext this curr_s curr_l obs_sl_boundary))
          (TrajectoryCost.static_obstacle_sl_boundaries_ this)).

(** The object with another static cache, or another dynamic cache, all
    else the same. *)
Definition with_static_cache (this : TrajectoryCost.t)
    (boundaries : list SLBoundary.t) : TrajectoryCost.t :=
  TrajectoryCost.mk (TrajectoryCost.config_ this)
    (TrajectoryCost.reference_line_ this)
    (TrajectoryCost.is_change_lane_path_ this)
    (TrajectoryCost.vehicle_param_ this)
    (TrajectoryCost.heuristic_speed_data_ this)
    (TrajectoryCost.init_sl_point_ this)
    (TrajectoryCost.adc_sl_boundary_ this)
    (TrajectoryCost.num_of_time_stamps_ this)
    boundaries
    (TrajectoryCost.dynamic_obstacle_boxes_ this).

(** A boundary that does not straddle the centerline. *)
Definition one_sided (obs_sl_boundary : SLBoundary.t) : bool :=
  negb (Rleb (SLBoundary.start_l obs_sl_boundary
              * SLBoundary.end_l obs_sl_boundary) 0).

(** ** The quantities of [GetCostFromObsSL] *)

(** The lateral clearance [delta_l] between the ego at [adc_l] and the
    boundary: negative when they overlap laterally. *)
Definition lateral_clearance (ext : Externals) (adc_l : R)
    (obs_sl_boundary : SLBoundary.t) : R :=
  let vehicle_param := VehicleConfigHelper_vehicle_param ext in
  let adc_left_l := adc_l + VehicleParam.left_edge_to_center vehicle_param in
  let adc_right_l := adc_l - VehicleParam.right_edge_to_center vehicle_param in
  Rmax (adc_right_l - SLBoundary.end_l obs_sl_boundary)
       (SLBoundary.start_l obs_sl_boundary - adc_left_l).

(** The ego's front edge at the sample station [adc_s]. *)
Definition front_edge_s (ext : Externals) (adc_s : R) : R :=
  adc_s + VehicleParam.front_edge_to_center (VehicleConfigHelper_vehicle_param ext).

(** ** The time steps of the dynamic cost *)


Definition with_dynamic_cache (this : TrajectoryCost.t)
    (trajectories : list (list Box2d.t)) : TrajectoryCost.t :=
  TrajectoryCost.mk (TrajectoryCost.config_ this)
    (TrajectoryCost.reference_line_ this)
    (TrajectoryCost.is_change_lane_path_ this)
    (TrajectoryCost.vehicle_param_ this)
    (TrajectoryCost.heuristic_speed_data_ this)
    (TrajectoryCost.init_sl_point_ this)
    (TrajectoryCost.adc_sl_boundary_ this)
    (TrajectoryCost.num_of_time_stamps_ this)
    (TrajectoryCost.static_obstacle_sl_boundaries_ this)
    trajectories.

(** The object with another lane-change flag and another ego boundary, all
    else the same. *)
Definition with_lane_change_and_boundary (this : TrajectoryCost.t)
    (is_change_lane_path : bool) (adc_sl_boundary : SLBoundary.t)
    : TrajectoryCost.t :=
  TrajectoryCost.mk (TrajectoryCost.config_ this)
    (TrajectoryCost.reference_line_ this)
    is_change_lane_path
    (TrajectoryCost.vehicle_param_ this)
    (TrajectoryCost.heuristic_speed_data_ this)
    (TrajectoryCost.init_sl_point_ this)
    adc_sl_boundary
    (TrajectoryCost.num_of_time_stamps_ this)
    (TrajectoryCost.static_obstacle_sl_boundaries_ this)
    (TrajectoryCost.dynamic_obstacle_boxes_ this).

(** ** More of the scenario *)

(** The scenario's configuration with a negative time interval. *)
Definition ex_config_backwards : DpPolyPathConfig.t :=
  DpPolyPathConfig.mk (-0.5) 1 1 1.5 0.4 1.5 4000 1000 10000 20 30000 0.5 2.

(** The scenario's configuration with a time interval of zero. *)
Definition ex_config_no_interval : DpPolyPathConfig.t :=
  DpPolyPathConfig.mk 0 1 1 1.5 0.4 1.5 4000 1000 10000 20 30000 0.5 2.


(** The scenario's object without any cached obstacle. *)
Definition ex_this_alone : TrajectoryCost.t :=
  TrajectoryCost.mk ex_config ex_reference_line false ex_vehicle_param
    ex_speed_data ex_init_sl_point ex_adc_sl_boundary 4 [] [].

(** ** Comparing two runs *)

(** What a call returns, seen through [f]; a failure stays as it is. *)
Definition result_map {A B : Type} (f : A -> B) (r : Result A) : Result B :=
  match r with
  | Ok a => Ok (f a)
  | Fail e => Fail e
  end.

(** The object with another reference line, all else the same. *)
Definition with_reference_line (this : TrajectoryCost.t)
    (reference_line : ReferenceLine.t) : TrajectoryCost.t :=
  TrajectoryCost.mk (TrajectoryCost.config_ this)
    reference_line
    (TrajectoryCost.is_change_lane_path_ this)
    (TrajectoryCost.vehicle_param_ this)
    (TrajectoryCost.heuristic_speed_data_ this)
    (TrajectoryCost.init_sl_point_ this)
    (TrajectoryCost.adc_sl_boundary_ this)
    (TrajectoryCost.num_of_time_stamps_ this)
    (TrajectoryCost.static_obstacle_sl_boundaries_ this)
    (TrajectoryCost.dynamic_obstacle_boxes_ this).

(** Two curves that agree, in every derivative, on [[0, length]]. *)
Definition curves_agree_on (length : R)
    (curve curve' : QuinticPolynomialCurve1d.t) : Prop :=
  forall (order : nat) (param : R),
    0 <= param <= length ->
    QuinticPolynomialCurve1d.Evaluate curve' order param
    = QuinticPolynomialCurve1d.Evaluate curve order param.

(** The scenario's curve, continued differently past the segment. *)
Definition ex_curve_beyond : QuinticPolynomialCurve1d.t :=
  QuinticPolynomialCurve1d.mk
    (fun _ param => Rmax 0 (param - 2) + Rmax 0 (- param)).

(** ** The arithmetic of the machine

    A sum, a difference or a quotient of two [double]s is rounded, and a
    count can hang on the last bit: [0.1] added up ten times is
    [0.9999999999999999] in binary64, still below [1], which ten tenths
    reach in [R].  [DoubleArith] holds the three operations as the platform
    computes them.  The class is written once more over them in [Machine], for the
    operations that touch a loop counter over stations or decide the
    number of time steps; the other operations stay those of [R]. *)
Record DoubleArith : Type := mkDoubleArith {
  double_add : R -> R -> R;
  double_sub : R -> R -> R;
  double_div : R -> R -> R
}.

(** The operations of the field, which round nothing. *)
Definition exact_arith : DoubleArith := mkDoubleArith Rplus Rminus Rdiv.

(** ** The class over the machine's arithmetic

    In [Machine] the member functions that are not [const] also take the
    object and hand it on, round by round, which shows what they leave of
    it; [CalculateDynamicObstacleCost] is [const] and reads it.  [IsOffRoad]
    and [GetCostFromObsSL] have no loop and assign to no member: they are
    the functions above, reading the object at hand. *)
Module Machine.
Section Methods.

Variable arith : DoubleArith.
Variable ext : Externals.

(** [TrajectoryCost::TrajectoryCost]. *)
Definition TrajectoryCost_ctor (config : DpPolyPathConfig.t)
    (reference_line : ReferenceLine.t) (is_change_lane_path : bool)
    (obstacles : list Obstacle.t) (vehicle_param : VehicleParam.t)
    (heuristic_speed_data : SpeedData.t) (init_sl_point : SLPoint.t)
    (adc_sl_boundary : SLBoundary.t) : Result TrajectoryCost.t :=
  let total_time :=
    Rmin (SpeedData.TotalTime heuristic_speed_data)
         (FLAGS_prediction_total_time ext) in
  num_of_time_stamps <-
    (if Reqb (DpPolyPathConfig.eval_time_interval config) 0
     then Fail UndefinedCast
     else static_cast_uint32
            (Zfloor (double_div arith total_time
                       (DpPolyPathConfig.eval_time_interval config)))) ;;
  caches <- classify_obstacles ext config vehicle_param init_sl_point
              num_of_time_stamps obstacles ([], []) ;;
  Ok (TrajectoryCost.mk config reference_line is_change_lane_path
        vehicle_param heuristic_speed_data init_sl_point adc_sl_boundary
        num_of_time_stamps (fst caches) (snd caches)).

(** The [for] loop of [CalculatePathCost]. *)
Fixpoint path_cost_loop (fuel : nat) (curve : QuinticPolynomialCurve1d.t)
    (start_s end_s : R) (curve_s : R) (cost : ComparableCost) (path_cost : R)
    (this : TrajectoryCost.t) : Result (ComparableCost * R * TrajectoryCost.t) :=
  if Rltb curve_s (double_sub arith end_s start_s) then
    match fuel with
    | O => Fail OutOfFuel
    | S fuel' =>
        let config_ := TrajectoryCost.config_ this in
        let l := QuinticPolynomialCurve1d.Evaluate curve 0 curve_s in
        let path_cost :=
          path_cost
          + l * l * DpPolyPathConfig.path_l_cost config_
            * quasi_softmax this (Rabs l) in
        let dl := Rabs (QuinticPolynomialCurve1d.Evaluate curve 1 curve_s) in
        let cost :=
          if IsOffRoad ext this (double_add arith curve_s start_s) l dl
               (TrajectoryCost.is_change_lane_path_ this)
          then set_out_of_boundary cost else cost in
        let path_cost :=
          path_cost + dl * dl * DpPolyPathConfig.path_dl_cost config_ in
        let ddl := Rabs (QuinticPolynomialCurve1d.Evaluate curve 2 curve_s) in
        let path_cost :=
          path_cost + ddl * ddl * DpPolyPathConfig.path_ddl_cost config_ in
        path_cost_loop fuel' curve start_s end_s
          (double_add arith curve_s (DpPolyPathConfig.path_resolution config_))
          cost path_cost this
    end
  else Ok (cost, path_cost, this).

(** [TrajectoryCost::CalculatePathCost]. *)
Definition CalculatePathCost (fuel : nat) (curve : QuinticPolynomialCurve1d.t)
    (start_s end_s : R) (curr_level total_level : N) (this : TrajectoryCost.t)
    : Result (ComparableCost * TrajectoryCost.t) :=
  let cost := cost_default in
  let path_cost := 0 in
  st <- path_cost_loop fuel curve start_s end_s 0 cost path_cost this ;;
  let cost := fst (fst st) in
  let path_cost := snd (fst st) in
  let this := snd st in
  let config_ := TrajectoryCost.config_ this in
  let path_cost := path_cost * DpPolyPathConfig.path_resolution config_ in
  let path_cost :=
    if (curr_level =? total_level)%N then
      let end_l :=
        QuinticPolynomialCurve1d.Evaluate curve 0 (double_sub arith end_s start_s) in
      path_cost
      + sqrt (end_l - SLPoint.l (TrajectoryCost.init_sl_point_ this) / 2)
        * DpPolyPathConfig.path_end_l_cost config_
    else path_cost in
  Ok (set_smoothness_cost cost path_cost, this).

(** The outer loop of [CalculateStaticObstacleCost], over [curr_s]. *)
Fixpoint static_cost_loop (fuel : nat) (curve : QuinticPolynomialCurve1d.t)
    (start_s end_s : R) (curr_s : R) (obstacle_cost : ComparableCost)
    (this : TrajectoryCost.t) : Result (ComparableCost * TrajectoryCost.t) :=
  if Rleb curr_s end_s then
    match fuel with
    | O => Fail OutOfFuel
    | S fuel' =>
        let curr_l :=
          QuinticPolynomialCurve1d.Evaluate curve 0
            (double_sub arith curr_s start_s) in
        static_cost_loop fuel' curve start_s end_s
          (double_add arith curr_s
             (DpPolyPathConfig.path_resolution (TrajectoryCost.config_ this)))
          (static_obstacles_at ext this curr_s curr_l obstacle_cost) this
    end
  else Ok (obstacle_cost, this).

(** [TrajectoryCost::CalculateStaticObstacleCost]. *)
Definition CalculateStaticObstacleCost (fuel : nat)
    (curve : QuinticPolynomialCurve1d.t) (start_s end_s : R)
    (this : TrajectoryCost.t) : Result (ComparableCost * TrajectoryCost.t) :=
  st <- static_cost_loop fuel curve start_s end_s start_s cost_default this ;;
  let obstacle_cost := fst st in
  let this := snd st in
  Ok (set_safety_cost obstacle_cost
        (safety_cost obstacle_cost
         * DpPolyPathConfig.path_resolution (TrajectoryCost.config_ this)),
      this).

(** [TrajectoryCost::Calculate]. *)
Definition Calculate (fuel : nat) (curve : QuinticPolynomialCurve1d.t)
    (start_s end_s : R) (curr_level total_level : N) (this : TrajectoryCost.t)
    : Result (ComparableCost * TrajectoryCost.t) :=
  let total_cost := cost_default in
  path <- CalculatePathCost fuel curve start_s end_s curr_level total_level this ;;
  let total_cost := cost_add total_cost (fst path) in
  static <- CalculateStaticObstacleCost fuel curve start_s end_s (snd path) ;;
  let total_cost := cost_add total_cost (fst static) in
  let this := snd static in
  dynamic_cost <- CalculateDynamicObstacleCost ext this curve start_s end_s ;;
  let total_cost := cost_add total_cost dynamic_cost in
  Ok (total_cost, this).

(** A member call on the object: what it returns and the object after. *)
Definition invoke (call : MemberCall) (this : TrajectoryCost.t)
    : Result (ComparableCost * TrajectoryCost.t) :=
  match call with
  | CallCalculate fuel curve start_s end_s curr_level total_level =>
      Calculate fuel curve start_s end_s curr_level total_level this
  | CallCalculatePathCost fuel curve start_s end_s curr_level total_level =>
      CalculatePathCost fuel curve start_s end_s curr_level total_level this
  | CallCalculateStaticObstacleCost fuel curve start_s end_s =>
      CalculateStaticObstacleCost fuel curve start_s end_s this
  | CallCalculateDynamicObstacleCost curve start_s end_s =>
      cost <- CalculateDynamicObstacleCost ext this curve start_s end_s ;;
      Ok (cost, this)
  end.

(** The object after a sequence of calls that all return. *)
Fixpoint after_calls (calls : list MemberCall) (this : TrajectoryCost.t)
    : Result TrajectoryCost.t :=
  match calls with
  | [] => Ok this
  | call :: rest =>
      st <- invoke call this ;;
      after_calls rest (snd st)
  end.

End Methods.
End Machine.

(** ** The samples of the station loops *)

(** The counter of a station loop after [k] rounds: [step] added [k] times
    to [from], each sum as the machine rounds it. *)
Fixpoint counter_after (arith : DoubleArith) (step from : R) (k : nat) : R :=
  match k with
  | O => from
  | S k' => double_add arith (counter_after arith step from k') step
  end.

(** The sample stations [0], [resolution], [2 * resolution], ... of
    [CalculatePathCost] as its counter [curve_s] holds them. *)
Definition path_sample (arith : DoubleArith) (this : TrajectoryCost.t)
    (k : nat) : R :=
  counter_after arith
    (DpPolyPathConfig.path_resolution (TrajectoryCost.config_ this)) 0 k.

(** The end of the sampled range of [CalculatePathCost]. *)
Definition path_range (arith : DoubleArith) (start_s end_s : R) : R :=
  double_sub arith end_s start_s.

(** The end-offset penalty of the terminal level. *)
Definition sampled_end_l_term (arith : DoubleArith) (this : TrajectoryCost.t)
    (curve : QuinticPolynomialCurve1d.t) (start_s end_s : R) : R :=
  let end_l :=
    QuinticPolynomialCurve1d.Evaluate curve 0 (path_range arith start_s end_s) in
  let init_l := SLPoint.l (TrajectoryCost.init_sl_point_ this) in
  sqrt (end_l - init_l / 2)
  * DpPolyPathConfig.path_end_l_cost (TrajectoryCost.config_ this).

(** The smoothness cost over the first [n] sample stations: the sum of
    their penalties, times the resolution, plus the terminal-level term
    when it applies. *)
Definition sampled_smoothness_cost (arith : DoubleArith)
    (this : TrajectoryCost.t) (curve : QuinticPolynomialCurve1d.t)
    (start_s end_s : R) (curr_level total_level : N) (n : nat) : R :=
  let config := TrajectoryCost.config_ this in
  Rsum (map (fun k => spec_path_term config curve (path_sample arith this k))
          (seq 0 n))
  * DpPolyPathConfig.path_resolution config
  + (if (curr_level =? total_level)%N
     then sampled_end_l_term arith this curve start_s end_s else 0).

(** The sample stations [start_s], [start_s + resolution], ... of
    [CalculateStaticObstacleCost] as its counter [curr_s] holds them. *)
Definition static_sample (arith : DoubleArith) (this : TrajectoryCost.t)
    (start_s : R) (j : nat) : R :=
  counter_after arith
    (DpPolyPathConfig.path_resolution (TrajectoryCost.config_ this)) start_s j.

(** What the cached static boundaries add to the safety cost at the
    station [curr_s]: the ego is at that station, at the offset the curve
    has there. *)
Definition station_static_penalty (arith : DoubleArith) (ext : Externals)
    (this : TrajectoryCost.t) (curve : QuinticPolynomialCurve1d.t)
    (start_s curr_s : R) : R :=
  let curr_l :=
    QuinticPolynomialCurve1d.Evaluate curve 0 (double_sub arith curr_s start_s) in
  Rsum (map (fun obs_sl_boundary =>
               safety_cost (GetCostFromObsSL ext this curr_s curr_l obs_sl_boundary))
          (TrajectoryCost.static_obstacle_sl_boundaries_ this)).

(** The same at the sample station of index [j]. *)
Definition sampled_static_penalty (arith : DoubleArith) (ext : Externals)
    (this : TrajectoryCost.t) (curve : QuinticPolynomialCurve1d.t)
    (start_s : R) (j : nat) : R :=
  station_static_penalty arith ext this curve start_s
    (static_sample arith this start_s j).

(** ** The time steps of the dynamic cost, in the specification's words *)







(** The number of time steps as the constructor computes it, before the
    cast. *)
Definition machine_time_steps (arith : DoubleArith) (ext : Externals)
    (config : DpPolyPathConfig.t) (heuristic_speed_data : SpeedData.t) : Z :=
  Zfloor (double_div arith
            (Rmin (SpeedData.TotalTime heuristic_speed_data)
                  (FLAGS_prediction_total_time ext))
            (DpPolyPathConfig.eval_time_interval config)).


(** ** binary64

    The arithmetic of the platform on its finite range: the result of an
    operation is the exact one rounded to the nearest number with 53
    binary digits, or to the nearest multiple of [2^-1074] for the
    smallest, a tie going to the even one.  Beyond the largest binary64
    number the machine has an infinity, which is not in [R]; a quotient by
    zero does not get here, see the constructor. *)

(** The integer nearest to [x], the even one of the two when [x] lies
    halfway. *)
Definition nearest_even (x : R) : Z :=
  let n := Zfloor x in
  if Rltb (x - IZR n) (1 / 2) then n
  else if Rltb (1 / 2) (x - IZR n) then (n + 1)%Z
  else if Z.even n then n else (n + 1)%Z.

(** The exponent of the last binary digit kept of a number of the size of
    [x]. *)
Definition binary64_exponent (x : R) : Z :=
  Z.max (-1074) (Zfloor (ln (Rabs x) / ln 2) - 52).

Definition binary64_round (x : R) : R :=
  if Reqb x 0 then 0
  else
    let e := binary64_exponent x in
    IZR (nearest_even (x * powerRZ 2 (- e))) * powerRZ 2 e.

Definition binary64_arith : DoubleArith :=
  mkDoubleArith (fun x y => binary64_round (x + y))
    (fun x y => binary64_round (x - y))
    (fun x y => binary64_round (x / y)).

(** ** A scenario in tenths

    The [double] that the literal [0.1] stands for, as the sample
    resolution and as the time interval, over one unit of station and one
    second of speed profile. *)

Definition tenth : R := 3602879701896397 / 36028797018963968.

Definition ex_config_tenth : DpPolyPathConfig.t :=
  DpPolyPathConfig.mk tenth tenth 1 1.5 0.4 1.5 4000 1000 10000 20 30000 0.5 2.

Definition ex_speed_data_second : SpeedData.t :=
  SpeedData.mk 1 (fun t => Some (SpeedPoint.mk (2 * t) t 2)).

(** An object of that configuration, with the scenario's parked car in its
    static cache and no trajectory in the dynamic one. *)
Definition ex_this_tenth : TrajectoryCost.t :=
  TrajectoryCost.mk ex_config_tenth ex_reference_line false ex_vehicle_param
    ex_speed_data_second ex_init_sl_point ex_adc_sl_boundary 10
    [SLBoundary.mk 6 8 1 2] [].

(** What binary64 makes of [0], [0.1], [0.1 + 0.1], ...: the eleventh
    is [0.9999999999999999], the twelfth [1.0999999999999999]. *)
Definition ex_tenth_counter : list R :=
  [0;
   7205759403792794 / 72057594037927936;
   7205759403792794 / 36028797018963968;
   5404319552844596 / 18014398509481984;
   7205759403792794 / 18014398509481984;
   4503599627370496 / 9007199254740992;
   5404319552844595 / 9007199254740992;
   6305039478318694 / 9007199254740992;
   7205759403792793 / 9007199254740992;
   8106479329266892 / 9007199254740992;
   9007199254740991 / 9007199254740992;
   4953959590107545 / 4503599627370496].


(** A curve of constant slope [1] and offset [0]: every sample costs the
    weight of the first derivative. *)
Definition ex_curve_slope : QuinticPolynomialCurve1d.t :=
  QuinticPolynomialCurve1d.mk
    (fun order _ => match order with 1%nat => 1 | _ => 0 end).


(** * Properties *)

(** ** Booleans of comparisons *)

Lemma Rltb_true x y : Rltb x y = true <-> x < y.
Proof. unfold Rltb; destruct (Rlt_dec x y); split; intros; [assumption|reflexivity|discriminate|contradiction]. Qed.

Lemma Rltb_false x y : Rltb x y = false <-> y <= x.
Proof. unfold Rltb; destruct (Rlt_dec x y); split; intros; try discriminate; try reflexivity; lra. Qed.

Lemma Rleb_true x y : Rleb x y = true <-> x <= y.
Proof. unfold Rleb; destruct (Rle_dec x y); split; intros; [assumption|reflexivity|discriminate|contradiction]. Qed.

Lemma Rleb_false x y : Rleb x y = false <-> y < x.
Proof. unfold Rleb; destruct (Rle_dec x y); split; intros; try discriminate; try reflexivity; lra. Qed.

Lemma Rgtb_true x y : Rgtb x y = true <-> x > y.
Proof. unfold Rgtb; rewrite Rltb_true; lra. Qed.

Lemma Rgtb_false x y : Rgtb x y = false <-> x <= y.
Proof. unfold Rgtb; rewrite Rltb_false; lra. Qed.

Lemma Reqb_true x y : Reqb x y = true <-> x = y.
Proof. unfold Reqb; destruct (Req_dec_T x y); split; intros; [assumption|reflexivity|discriminate|contradiction]. Qed.

Lemma Reqb_false x y : Reqb x y = false <-> x <> y.
Proof. unfold Reqb; destruct (Req_dec_T x y); split; intros; try discriminate; try reflexivity; try assumption; contradiction. Qed.

(** Decides one comparison of two closed real expressions in the goal. *)
Ltac rdec :=
  repeat match goal with
  | |- context [Rltb ?a ?b] =>
      first [ replace (Rltb a b) with true by (symmetry; apply Rltb_true; lra)
            | replace (Rltb a b) with false by (symmetry; apply Rltb_false; lra) ]
  | |- context [Rleb ?a ?b] =>
      first [ replace (Rleb a b) with true by (symmetry; apply Rleb_true; lra)
            | replace (Rleb a b) with false by (symmetry; apply Rleb_false; lra) ]
  | |- context [Rgtb ?a ?b] =>
      first [ replace (Rgtb a b) with true by (symmetry; apply Rgtb_true; lra)
            | replace (Rgtb a b) with false by (symmetry; apply Rgtb_false; lra) ]
  end.

(** ** The order and the combination of [ComparableCost] *)

Lemma Rcompare_opp (x y : R) : Rcompare y x = CompOpp (Rcompare x y).
Proof.
  destruct (Rcompare_spec x y) as [E|L|G];
    destruct (Rcompare_spec y x) as [E'|L'|G']; simpl; try reflexivity; lra.
Qed.

Lemma Rcompare_not_Gt (x y : R) : Rcompare x y <> Gt <-> x <= y.
Proof.
  destruct (Rcompare_spec x y); split; intros; try congruence; try lra.
Qed.

Lemma Rcompare_refl (x : R) : Rcompare x x = Eq.
Proof. destruct (Rcompare_spec x x); try reflexivity; lra. Qed.

(** C9. The comparison of [ComparableCost] is a total lexicographic order:
    a cost with [has_collision] compares worse than one without, whatever
    the other fields; with equal [has_collision], a cost with
    [out_of_boundary] compares worse than one without; with both flags
    equal the order is that of [smoothness_cost + safety_cost].  The order
    is total, transitive and reflexive, and swapping the arguments reverses
    the answer. *)
Theorem CompareTo_lexicographic_total :
  (forall a b, has_collision a = true -> has_collision b = false ->
     CompareTo a b = Gt /\ CompareTo b a = Lt)
  /\ (forall a b, has_collision a = has_collision b ->
        out_of_boundary a = true -> out_of_boundary b = false ->
        CompareTo a b = Gt /\ CompareTo b a = Lt)
  /\ (forall a b, has_collision a = has_collision b ->
        out_of_boundary a = out_of_boundary b ->
        CompareTo a b
        = Rcompare (smoothness_cost a + safety_cost a)
                   (smoothness_cost b + safety_cost b))
  /\ (forall a b, CompareTo b a = CompOpp (CompareTo a b))
  /\ (forall a b, cost_le a b \/ cost_le b a)
  /\ (forall a b c, cost_le a b -> cost_le b c -> cost_le a c)
  /\ (forall a, CompareTo a a = Eq).
Proof.
  repeat split.
  - unfold CompareTo; rewrite H, H0; reflexivity.
  - unfold CompareTo; rewrite H, H0; reflexivity.
  - unfold CompareTo; rewrite H, H0, H1;
      destruct (has_collision b); reflexivity.
  - unfold CompareTo; rewrite H, H0, H1;
      destruct (has_collision b); reflexivity.
  - intros a b Hc Ho; unfold CompareTo, cost_total; rewrite Hc, Ho.
    destruct (has_collision b), (out_of_boundary b); reflexivity.
  - intros a b; unfold CompareTo.
    destruct (has_collision a), (has_collision b),
      (out_of_boundary a), (out_of_boundary b);
      simpl; try reflexivity; apply Rcompare_opp.
  - intros a b; unfold cost_le, CompareTo.
    destruct (has_collision a), (has_collision b),
      (out_of_boundary a), (out_of_boundary b);
      try (left; discriminate); try (right; discriminate);
      rewrite !Rcompare_not_Gt;
      destruct (Rle_dec (cost_total a) (cost_total b)); [left|right|left|right|left|right|left|right]; lra.
  - intros a b c; unfold cost_le, CompareTo.
    destruct (has_collision a), (has_collision b), (has_collision c),
      (out_of_boundary a), (out_of_boundary b), (out_of_boundary c);
      try congruence; rewrite ?Rcompare_not_Gt; intros; try lra; try discriminate.
  - intros a; unfold CompareTo.
    destruct (has_collision a), (out_of_boundary a); apply Rcompare_refl.
Qed.

Lemma CompareTo_lexicographic_total_witness :
  CompareTo (mkCost true false 0 0) (mkCost false true 100 100) = Gt
  /\ CompareTo (mkCost false true 100 100) (mkCost true false 0 0) = Lt.
Proof.
  apply (proj1 CompareTo_lexicographic_total); reflexivity.
Defined.

Lemma cost_add_default_l (c : ComparableCost) : cost_add cost_default c = c.
Proof.
  destruct c as [hc ob sm sf]; unfold cost_add, cost_default; simpl.
  f_equal; lra.
Qed.

Lemma cost_add_comm (a b : ComparableCost) : cost_add a b = cost_add b a.
Proof.
  unfold cost_add; f_equal; try apply orb_comm; lra.
Qed.

Lemma cost_add_assoc (a b c : ComparableCost) :
  cost_add (cost_add a b) c = cost_add a (cost_add b c).
Proof.
  unfold cost_add; simpl; f_equal; try (symmetry; apply orb_assoc); lra.
Qed.

(** ** [Calculate] as a combination *)

Lemma Calculate_unfold (ext : Externals) (this : TrajectoryCost.t)
    (fuel : nat) (curve : QuinticPolynomialCurve1d.t)
    (start_s end_s : R) (curr_level total_level : N) :
  Calculate ext this fuel curve start_s end_s curr_level total_level
  = (path_cost <-
       CalculatePathCost ext this fuel curve start_s end_s curr_level total_level ;;
     static_cost <- CalculateStaticObstacleCost ext this fuel curve start_s end_s ;;
     dynamic_cost <- CalculateDynamicObstacleCost ext this curve start_s end_s ;;
     Ok (cost_add (cost_add path_cost static_cost) dynamic_cost)).
Proof.
  unfold Calculate.
  destruct (CalculatePathCost ext this fuel curve start_s end_s curr_level
              total_level) as [p|e]; simpl; [|reflexivity].
  destruct (CalculateStaticObstacleCost ext this fuel curve start_s end_s)
    as [s|e]; simpl; [|reflexivity].
  destruct (CalculateDynamicObstacleCost ext this curve start_s end_s)
    as [d|e]; simpl; [|reflexivity].
  rewrite cost_add_default_l. reflexivity.
Qed.

(** ** The penalty of the ego against a static SL boundary *)

Lemma has_collision_penalty_tail (c : ComparableCost) (b1 b2 : bool) (x : R) :
  has_collision (if b1 then c else if b2 then set_safety_cost c x else c)
  = has_collision c.
Proof. destruct b1, b2; reflexivity. Qed.

Section ObsSL.

Variable ext : Externals.
Variable this : TrajectoryCost.t.

#[local] Abbreviation vehicle_param := (VehicleConfigHelper_vehicle_param ext).

(** C4. A static boundary that straddles the centerline,
    [start_l * end_l <= 0], contributes the zero cost at every ego sample:
    no penalty and no collision flag.  The penalty between two boxes has no
    such case: it depends on the two boxes through their distance only. *)
Theorem GetCostFromObsSL_straddling_boundary_is_zero
    (adc_s adc_l : R) (obs_sl_boundary : SLBoundary.t) :
  SLBoundary.start_l obs_sl_boundary * SLBoundary.end_l obs_sl_boundary <= 0 ->
  GetCostFromObsSL ext this adc_s adc_l obs_sl_boundary = cost_default
  /\ safety_cost (GetCostFromObsSL ext this adc_s adc_l obs_sl_boundary) = 0
  /\ has_collision (GetCostFromObsSL ext this adc_s adc_l obs_sl_boundary) = false
  /\ (forall ego_box obstacle_box ego_box' obstacle_box',
        DistanceTo ext obstacle_box ego_box = DistanceTo ext obstacle_box' ego_box' ->
        GetCostBetweenObsBoxes ext this ego_box obstacle_box
        = GetCostBetweenObsBoxes ext this ego_box' obstacle_box').
Proof.
  intros H.
  assert (E : GetCostFromObsSL ext this adc_s adc_l obs_sl_boundary = cost_default).
  { unfold GetCostFromObsSL.
    apply Rleb_true in H. rewrite H. reflexivity. }
  rewrite E. repeat split.
  intros ego_box obstacle_box ego_box' obstacle_box' Hd.
  unfold GetCostBetweenObsBoxes. rewrite Hd. reflexivity.
Qed.

(** C5. For a boundary that is not degenerate and is laterally relevant,
    [GetCostFromObsSL] sets [has_collision] exactly when the ego extents,
    the sample point moved by the front, back, left and right
    edge-to-center distances, overlap the boundary longitudinally and,
    within the tolerance [0.1], laterally.  The check comes before the exit
    for an obstacle that lies behind: with the obstacle's [end_s] below the
    ego's front edge the penalty is zero and the flag is still set when
    they overlap. *)
Theorem GetCostFromObsSL_collision_iff_overlap
    (adc_s adc_l : R) (obs_sl_boundary : SLBoundary.t) :
  let adc_front_s := adc_s + VehicleParam.front_edge_to_center vehicle_param in
  let adc_end_s := adc_s - VehicleParam.back_edge_to_center vehicle_param in
  let adc_left_l := adc_l + VehicleParam.left_edge_to_center vehicle_param in
  let adc_right_l := adc_l - VehicleParam.right_edge_to_center vehicle_param in
  let overlap :=
    SLBoundary.start_s obs_sl_boundary <= adc_front_s
    /\ adc_end_s <= SLBoundary.end_s obs_sl_boundary
    /\ SLBoundary.start_l obs_sl_boundary <= adc_left_l + 0.1
    /\ adc_right_l - 0.1 <= SLBoundary.end_l obs_sl_boundary in
  0 < SLBoundary.start_l obs_sl_boundary * SLBoundary.end_l obs_sl_boundary ->
  SLBoundary.start_l obs_sl_boundary <= adc_left_l + FLAGS_lateral_ignore_buffer ext ->
  adc_right_l - FLAGS_lateral_ignore_buffer ext <= SLBoundary.end_l obs_sl_boundary ->
  (has_collision (GetCostFromObsSL ext this adc_s adc_l obs_sl_boundary) = true
   <-> overlap)
  /\ (SLBoundary.end_s obs_sl_boundary < adc_front_s ->
      safety_cost (GetCostFromObsSL ext this adc_s adc_l obs_sl_boundary) = 0
      /\ (overlap ->
          GetCostFromObsSL ext this adc_s adc_l obs_sl_boundary
          = set_has_collision cost_default)).
Proof.
  intros adc_front_s adc_end_s adc_left_l adc_right_l overlap Hnd Hl Hr.
  unfold GetCostFromObsSL.
  fold adc_front_s adc_end_s adc_left_l adc_right_l.
  replace (Rleb _ 0) with false by (symmetry; apply Rleb_false; lra).
  replace (Rltb (adc_left_l + FLAGS_lateral_ignore_buffer ext) _) with false
    by (symmetry; apply Rltb_false; lra).
  replace (Rgtb (adc_right_l - FLAGS_lateral_ignore_buffer ext) _) with false
    by (symmetry; apply Rgtb_false; lra).
  cbn [orb]; cbv zeta.
  remember ((Rltb adc_front_s (SLBoundary.start_s obs_sl_boundary)
             || Rgtb adc_end_s (SLBoundary.end_s obs_sl_boundary))
            || (Rltb (adc_left_l + 0.1) (SLBoundary.start_l obs_sl_boundary)
                || Rgtb (adc_right_l - 0.1) (SLBoundary.end_l obs_sl_boundary)))
    as no_overlap eqn:Eno.
  assert (Hno : no_overlap = false <-> overlap).
  { subst no_overlap; unfold overlap.
    rewrite !orb_false_iff, !Rltb_false, !Rgtb_false. tauto. }
  clear Eno. split.
  - rewrite has_collision_penalty_tail.
    destruct no_overlap; cbn.
    + split; [discriminate|]. intros Ho; apply Hno in Ho; discriminate.
    + split; [intros _; apply Hno; reflexivity|reflexivity].
  - intros Hbehind.
    replace (Rgtb adc_front_s (SLBoundary.end_s obs_sl_boundary)) with true
      by (symmetry; apply Rgtb_true; lra).
    split.
    + destruct (negb no_overlap); reflexivity.
    + intros Ho. apply Hno in Ho. rewrite Ho. reflexivity.
Qed.

(** C8, as the code has it. [GetCostBetweenObsBoxes] returns the zero cost
    when the distance [d] of the two boxes exceeds the configured ignore
    distance; otherwise its [safety_cost] is
    [obstacle_collision_cost * Sigmoid (obstacle_collision_distance - d)]
    plus [20 * Sigmoid (obstacle_risk_distance - d)]: the two distances and
    the collision weight are read from the configuration, the weight of the
    risk term is the constant [20]. *)
Theorem GetCostBetweenObsBoxes_penalty (ego_box obstacle_box : Box2d.t) :
  let config := TrajectoryCost.config_ this in
  let d := DistanceTo ext obstacle_box ego_box in
  (DpPolyPathConfig.obstacle_ignore_distance config < d ->
   GetCostBetweenObsBoxes ext this ego_box obstacle_box = cost_default)
  /\ (d <= DpPolyPathConfig.obstacle_ignore_distance config ->
      safety_cost (GetCostBetweenObsBoxes ext this ego_box obstacle_box)
      = DpPolyPathConfig.obstacle_collision_cost config
        * Sigmoid ext (DpPolyPathConfig.obstacle_collision_distance config - d)
        + 20 * Sigmoid ext (DpPolyPathConfig.obstacle_risk_distance config - d)).
Proof.
  intros config d; unfold GetCostBetweenObsBoxes; fold config d; split; intros H.
  - apply Rgtb_true in H. rewrite H. reflexivity.
  - apply Rgtb_false in H. rewrite H. simpl. lra.
Qed.

End ObsSL.

(** ** The smoothness cost *)

Lemma Rsum_cons (x : R) (xs : list R) : Rsum (x :: xs) = x + Rsum xs.
Proof. reflexivity. Qed.

Lemma seq_split_first (k n : nat) :
  (S k <= n)%nat -> seq k (n - k) = k :: seq (S k) (n - S k).
Proof.
  intros H. replace (n - k)%nat with (S (n - S k)) by lia. reflexivity.
Qed.

Section PathCost.

Variable ext : Externals.
Variable this : TrajectoryCost.t.
Variable curve : QuinticPolynomialCurve1d.t.
Variables start_s end_s : R.

#[local] Abbreviation config := (TrajectoryCost.config_ this).
#[local] Abbreviation resolution := (DpPolyPathConfig.path_resolution config).

(** What one round of the loop adds to [path_cost] is the specification's
    penalty of the sample. *)
Lemma path_cost_round (curve_s path_cost : R) :
  let l := QuinticPolynomialCurve1d.Evaluate curve 0 curve_s in
  let dl := Rabs (QuinticPolynomialCurve1d.Evaluate curve 1 curve_s) in
  let ddl := Rabs (QuinticPolynomialCurve1d.Evaluate curve 2 curve_s) in
  path_cost
  + l * l * DpPolyPathConfig.path_l_cost config * quasi_softmax this (Rabs l)
  + dl * dl * DpPolyPathConfig.path_dl_cost config
  + ddl * ddl * DpPolyPathConfig.path_ddl_cost config
  = path_cost + spec_path_term config curve curve_s.
Proof.
  intros l dl ddl. unfold spec_path_term. fold l dl ddl.
  rewrite Rabs_Rabsolu.
  change (spec_quasi_softmax _ _ _ (Rabs l)) with (quasi_softmax this (Rabs l)).
  assert (H : Rabs l ^ 2 = l * l).
  { simpl. rewrite Rmult_1_r. unfold Rabs. destruct (Rcase_abs l); ring. }
  rewrite H. simpl. ring.
Qed.

Lemma INR_S_mult (k : nat) (r : R) : INR k * r + r = INR (S k) * r.
Proof. rewrite S_INR. ring. Qed.

(** The loop, when it returns: it has visited the stations of the indices
    [k .. n - 1], all below [end_s - start_s], and stopped at index [n],
    whose station is not; it has added their penalties, set
    [out_of_boundary] if one of them is off the road, and left the other
    fields alone. *)
Lemma path_cost_loop_returns (fuel : nat) :
  forall (k : nat) (cost : ComparableCost) (path_cost : R)
         (cost' : ComparableCost) (path_cost' : R),
    path_cost_loop ext this fuel curve start_s end_s (INR k * resolution)
      cost path_cost = Ok (cost', path_cost') ->
    exists n : nat,
      (k <= n)%nat
      /\ (forall j, (k <= j < n)%nat -> INR j * resolution < end_s - start_s)
      /\ end_s - start_s <= INR n * resolution
      /\ path_cost'
         = path_cost
           + Rsum (map (fun j => spec_path_term config curve (INR j * resolution))
                     (seq k (n - k)))
      /\ out_of_boundary cost'
         = out_of_boundary cost
           || existsb (off_road_at ext this curve start_s) (seq k (n - k))
      /\ has_collision cost' = has_collision cost
      /\ smoothness_cost cost' = smoothness_cost cost
      /\ safety_cost cost' = safety_cost cost.
Proof.
  induction fuel as [|fuel IH]; intros k cost path_cost cost' path_cost' H;
    simpl in H;
    destruct (Rltb (INR k * resolution) (end_s - start_s)) eqn:Hlt;
    try discriminate.
  - injection H as <- <-. exists k. apply Rltb_false in Hlt.
    rewrite Nat.sub_diag. simpl. rewrite orb_false_r.
    repeat split; try lia; try lra.
  - rewrite path_cost_round, INR_S_mult in H.
    apply IH in H. destruct H as (n & Hle & Hbelow & Hstop & Hsum & Hoff & Hc & Hsm & Hsf).
    exists n. apply Rltb_true in Hlt.
    rewrite (seq_split_first k n) by lia.
    repeat split; try lia; try assumption.
    + intros j Hj. destruct (Nat.eq_dec j k) as [->|Hne]; [assumption|].
      apply Hbelow. lia.
    + rewrite Hsum. simpl. fold (Rsum (map (fun j => spec_path_term config curve
                                   (INR j * resolution)) (seq (S k) (n - S k)))).
      lra.
    + rewrite Hoff. simpl. unfold off_road_at at 2.
      destruct (IsOffRoad _ _ _ _ _ _); simpl; [rewrite orb_true_r|]; reflexivity.
    + rewrite Hc. destruct (IsOffRoad _ _ _ _ _ _); reflexivity.
    + rewrite Hsm. destruct (IsOffRoad _ _ _ _ _ _); reflexivity.
    + rewrite Hsf. destruct (IsOffRoad _ _ _ _ _ _); reflexivity.
  - injection H as <- <-. exists k. apply Rltb_false in Hlt.
    rewrite Nat.sub_diag. simpl. rewrite orb_false_r.
    repeat split; try lia; try lra.
Qed.

(** With a positive resolution the loop comes to an end: [m] rounds are
    enough when the station of index [k + m] is not below
    [end_s - start_s]. *)
Lemma path_cost_loop_terminates (m : nat) :
  0 < resolution ->
  forall (k fuel : nat) (cost : ComparableCost) (path_cost : R),
    end_s - start_s <= INR (k + m) * resolution ->
    (m <= fuel)%nat ->
    exists st,
      path_cost_loop ext this fuel curve start_s end_s (INR k * resolution)
        cost path_cost = Ok st.
Proof.
  intros Hr. induction m as [|m IH]; intros k fuel cost path_cost Hstop Hfuel.
  - rewrite Nat.add_0_r in Hstop. apply Rltb_false in Hstop.
    destruct fuel; simpl; rewrite Hstop; eexists; reflexivity.
  - destruct fuel as [|fuel]; [lia|]. simpl.
    destruct (Rltb (INR k * resolution) (end_s - start_s));
      [|eexists; reflexivity].
    rewrite INR_S_mult. apply IH; [|lia].
    replace (S k + m)%nat with (k + S m)%nat by lia. assumption.
Qed.

(** [CalculatePathCost] in terms of what its loop returns. *)
Lemma CalculatePathCost_unfold (fuel : nat) (curr_level total_level : N) :
  CalculatePathCost ext this fuel curve start_s end_s curr_level total_level
  = (st <- path_cost_loop ext this fuel curve start_s end_s 0 cost_default 0 ;;
     Ok (set_smoothness_cost (fst st)
           (snd st * resolution
            + (if (curr_level =? total_level)%N
               then spec_end_l_term this curve start_s end_s else 0)))).
Proof.
  unfold CalculatePathCost, spec_end_l_term.
  destruct (path_cost_loop ext this fuel curve start_s end_s 0 cost_default 0)
    as [[cost path_cost]|e]; simpl; [|reflexivity].
  destruct (curr_level =? total_level)%N; [reflexivity|].
  rewrite Rplus_0_r. reflexivity.
Qed.

Lemma CalculatePathCost_returns (fuel : nat) (curr_level total_level : N)
    (cost : ComparableCost) :
  CalculatePathCost ext this fuel curve start_s end_s curr_level total_level
  = Ok cost ->
  exists n : nat,
    (forall k, (k < n)%nat -> INR k * resolution < end_s - start_s)
    /\ end_s - start_s <= INR n * resolution
    /\ smoothness_cost cost
       = spec_smoothness_cost this curve start_s end_s curr_level total_level n
    /\ safety_cost cost = 0
    /\ has_collision cost = false
    /\ out_of_boundary cost
       = existsb (off_road_at ext this curve start_s) (seq 0 n).
Proof.
  rewrite CalculatePathCost_unfold.
  destruct (path_cost_loop ext this fuel curve start_s end_s 0 cost_default 0)
    as [[cost' path_cost']|e] eqn:Hloop; simpl; [|discriminate].
  intros H; injection H as <-.
  replace 0 with (INR 0 * resolution) in Hloop at 1 by (simpl; ring).
  apply path_cost_loop_returns in Hloop.
  destruct Hloop as (n & _ & Hbelow & Hstop & Hsum & Hoff & Hc & _ & Hsf).
  rewrite Nat.sub_0_r in Hsum, Hoff.
  exists n. repeat split; try assumption.
  - intros k Hk. apply Hbelow. lia.
  - simpl. unfold spec_smoothness_cost. rewrite Hsum. lra.
Qed.

Lemma CalculatePathCost_terminates (m fuel : nat) (curr_level total_level : N) :
  0 < resolution ->
  end_s - start_s <= INR m * resolution ->
  (m <= fuel)%nat ->
  exists cost,
    CalculatePathCost ext this fuel curve start_s end_s curr_level total_level
    = Ok cost.
Proof.
  intros Hr Hm Hfuel.
  destruct (path_cost_loop_terminates m Hr 0%nat fuel cost_default 0)
    as [st Hst]; [simpl; assumption|assumption|].
  rewrite CalculatePathCost_unfold.
  replace (INR 0 * resolution) with 0 in Hst by (simpl; ring).
  rewrite Hst. simpl. eexists; reflexivity.
Qed.

(** C3. The end-offset penalty [sqrt (end_l - init_l / 2) * path_end_l_cost]
    is added to [smoothness_cost] exactly when [curr_level = total_level],
    and it is added to the sum already scaled by the resolution.  Two calls
    that differ in their levels only, neither at the terminal level, return
    the same cost; a call at the terminal level returns the cost of a call
    that is not, with the penalty added to its [smoothness_cost]. *)
Theorem CalculatePathCost_end_l_penalty (fuel : nat) (curr_level total_level : N) :
  CalculatePathCost ext this fuel curve start_s end_s curr_level total_level
  = (st <- path_cost_loop ext this fuel curve start_s end_s 0 cost_default 0 ;;
     Ok (set_smoothness_cost (fst st)
           (if (curr_level =? total_level)%N
            then snd st * resolution
                 + sqrt (QuinticPolynomialCurve1d.Evaluate curve 0 (end_s - start_s)
                         - SLPoint.l (TrajectoryCost.init_sl_point_ this) / 2)
                   * DpPolyPathConfig.path_end_l_cost config
            else snd st * resolution)))
  /\ (forall curr_level' total_level',
        curr_level <> total_level -> curr_level' <> total_level' ->
        CalculatePathCost ext this fuel curve start_s end_s curr_level total_level
        = CalculatePathCost ext this fuel curve start_s end_s
            curr_level' total_level')
  /\ (forall curr_level' total_level' cost,
        curr_level = total_level -> curr_level' <> total_level' ->
        CalculatePathCost ext this fuel curve start_s end_s
          curr_level' total_level' = Ok cost ->
        CalculatePathCost ext this fuel curve start_s end_s curr_level total_level
        = Ok (set_smoothness_cost cost
                (smoothness_cost cost
                 + sqrt (QuinticPolynomialCurve1d.Evaluate curve 0 (end_s - start_s)
                         - SLPoint.l (TrajectoryCost.init_sl_point_ this) / 2)
                   * DpPolyPathConfig.path_end_l_cost config))).
Proof.
  split; [|split].
  - unfold CalculatePathCost.
    destruct (path_cost_loop ext this fuel curve start_s end_s 0 cost_default 0)
      as [[cost path_cost]|e]; simpl; [|reflexivity].
    destruct (curr_level =? total_level)%N; reflexivity.
  - intros curr_level' total_level' Hne Hne'.
    unfold CalculatePathCost.
    apply N.eqb_neq in Hne, Hne'. rewrite Hne, Hne'. reflexivity.
  - intros curr_level' total_level' cost Heq Hne'.
    unfold CalculatePathCost.
    apply N.eqb_eq in Heq. apply N.eqb_neq in Hne'. rewrite Heq, Hne'.
    destruct (path_cost_loop ext this fuel curve start_s end_s 0 cost_default 0)
      as [[cost0 path_cost]|e]; simpl; [|discriminate].
    intros H; injection H as <-. reflexivity.
Qed.

End PathCost.

(** ** The static obstacle cost *)

Section StaticCost.

Variable ext : Externals.
Variable this : TrajectoryCost.t.
Variable curve : QuinticPolynomialCurve1d.t.
Variables start_s end_s : R.

#[local] Abbreviation config := (TrajectoryCost.config_ this).
#[local] Abbreviation resolution := (DpPolyPathConfig.path_resolution config).





Lemma static_cost_loop_terminates (m : nat) :
  0 < resolution ->
  forall (k fuel : nat) (obstacle_cost : ComparableCost),
    end_s < static_station this start_s (k + m) ->
    (m <= fuel)%nat ->
    exists cost',
      static_cost_loop ext this fuel curve start_s end_s
        (static_station this start_s k) obstacle_cost = Ok cost'.
Proof.
  intros Hr. induction m as [|m IH]; intros k fuel obstacle_cost Hstop Hfuel.
  - rewrite Nat.add_0_r in Hstop. apply Rleb_false in Hstop.
    destruct fuel; simpl; rewrite Hstop; eexists; reflexivity.
  - destruct fuel as [|fuel]; [lia|]. simpl.
    destruct (Rleb (static_station this start_s k) end_s);
      [|eexists; reflexivity].
    replace (static_station this start_s k + resolution)
      with (static_station this start_s (S k))
      by (unfold static_station; rewrite S_INR; ring).
    apply IH; [|lia].
    replace (S k + m)%nat with (k + S m)%nat by lia. assumption.
Qed.

Lemma CalculateStaticObstacleCost_terminates (m fuel : nat) :
  0 < resolution ->
  end_s - start_s < INR m * resolution ->
  (m <= fuel)%nat ->
  exists cost,
    CalculateStaticObstacleCost ext this fuel curve start_s end_s = Ok cost.
Proof.
  intros Hr Hm Hfuel. unfold CalculateStaticObstacleCost.
  destruct (static_cost_loop_terminates m Hr 0%nat fuel cost_default)
    as [cost' Hcost']; [unfold static_station; simpl; lra|assumption|].
  replace (static_station this start_s 0) with start_s in Hcost'
    by (unfold static_station; simpl; ring).
  rewrite Hcost'. simpl. eexists; reflexivity.
Qed.

End StaticCost.

(** ** The dynamic obstacle cost *)

Lemma Rsum_zeros {A : Type} (xs : list A) : Rsum (map (fun _ => 0) xs) = 0.
Proof.
  induction xs as [|x xs IH]; simpl; [reflexivity|].
  fold (Rsum (map (fun _ : A => 0) xs)). rewrite IH. lra.
Qed.

Section DynamicCost.

Variable ext : Externals.
Variable this : TrajectoryCost.t.
Variable curve : QuinticPolynomialCurve1d.t.
Variables start_s end_s : R.

#[local] Abbreviation config := (TrajectoryCost.config_ this).
#[local] Abbreviation interval := (DpPolyPathConfig.eval_time_interval config).
#[local] Abbreviation num := (TrajectoryCost.num_of_time_stamps_ this).

(** [GetCostBetweenObsBoxes] adds to [safety_cost] and does nothing else. *)
Lemma GetCostBetweenObsBoxes_frame (ego_box obstacle_box : Box2d.t) :
  has_collision (GetCostBetweenObsBoxes ext this ego_box obstacle_box) = false
  /\ out_of_boundary (GetCostBetweenObsBoxes ext this ego_box obstacle_box) = false
  /\ smoothness_cost (GetCostBetweenObsBoxes ext this ego_box obstacle_box) = 0.
Proof.
  unfold GetCostBetweenObsBoxes. destruct (Rgtb _ _); repeat split.
Qed.

Lemma dynamic_obstacles_at_returns (ego_box : Box2d.t) (index : nat)
    (trajectories : list (list Box2d.t)) :
  forall obstacle_cost cost' : ComparableCost,
    dynamic_obstacles_at ext this ego_box index trajectories obstacle_cost
    = Ok cost' ->
    safety_cost cost'
    = safety_cost obstacle_cost + penalties_at ext this ego_box index trajectories
    /\ has_collision cost' = has_collision obstacle_cost
    /\ out_of_boundary cost' = out_of_boundary obstacle_cost
    /\ smoothness_cost cost' = smoothness_cost obstacle_cost.
Proof.
  unfold penalties_at.
  induction trajectories as [|tr rest IH]; intros obstacle_cost cost' H;
    simpl in H.
  - injection H as <-. simpl. repeat split. lra.
  - destruct (nth_error tr index) as [b|] eqn:Hb; [|discriminate].
    apply IH in H. destruct H as (Hsf & Hc & Ho & Hsm).
    destruct (GetCostBetweenObsBoxes_frame ego_box b) as (Fc & Fo & Fs).
    rewrite Hsf, Hc, Ho, Hsm. simpl. rewrite Hb, Fc, Fo, Fs, !orb_false_r.
    fold (Rsum (map (fun obstacle_trajectory : list Box2d.t =>
                       match nth_error obstacle_trajectory index with
                       | Some obstacle_box =>
                           safety_cost
                             (GetCostBetweenObsBoxes ext this ego_box obstacle_box)
                       | None => 0
                       end) rest)).
    repeat split; lra.
Qed.

Lemma dynamic_obstacles_at_in_range (ego_box : Box2d.t) (index : nat)
    (trajectories : list (list Box2d.t)) :
  Forall (fun tr => (index < length tr)%nat) trajectories ->
  forall obstacle_cost : ComparableCost,
  exists cost',
    dynamic_obstacles_at ext this ego_box index trajectories obstacle_cost
    = Ok cost'.
Proof.
  induction 1 as [|tr rest Hlen _ IH]; intros obstacle_cost; simpl.
  - eexists; reflexivity.
  - destruct (nth_error tr index) as [b|] eqn:Hb.
    + apply IH.
    + apply nth_error_None in Hb. lia.
Qed.

Lemma spec_step_penalty_eq (i : nat) :
  spec_step_penalty ext this curve start_s i
  = penalties_at ext this
      (ego_box_at ext this curve start_s (spec_station this i)) i
      (TrajectoryCost.dynamic_obstacle_boxes_ this).
Proof. reflexivity. Qed.

Lemma evaluated_steps_from_S (index n : nat) :
  evaluated_steps_from this start_s end_s index (S n)
  = if step_skipped this start_s index
    then evaluated_steps_from this start_s end_s (S index) n
    else if step_stops this end_s index then []
         else index :: evaluated_steps_from this start_s end_s (S index) n.
Proof.
  unfold evaluated_steps_from. simpl.
  destruct (step_skipped this start_s index) eqn:Hskip; simpl.
  - rewrite Hskip. reflexivity.
  - destruct (step_stops this end_s index); simpl; [reflexivity|].
    rewrite Hskip. reflexivity.
Qed.

(** The loop of [CalculateDynamicObstacleCost], when it returns: from index
    [index] at time [index * eval_time_interval], with [n] indices left, it
    has added the penalties of the evaluated steps and nothing else. *)
Lemma dynamic_cost_loop_returns (n : nat) :
  forall (index : nat) (obstacle_cost cost' : ComparableCost),
    dynamic_cost_loop ext this n curve start_s end_s index (INR index * interval)
      obstacle_cost = Ok cost' ->
    safety_cost cost'
    = safety_cost obstacle_cost
      + Rsum (map (spec_step_penalty ext this curve start_s)
                (evaluated_steps_from this start_s end_s index n))
    /\ has_collision cost' = has_collision obstacle_cost
    /\ out_of_boundary cost' = out_of_boundary obstacle_cost
    /\ smoothness_cost cost' = smoothness_cost obstacle_cost.
Proof.
  induction n as [|n IH]; intros index obstacle_cost cost' H; simpl in H.
  - injection H as <-. unfold evaluated_steps_from. simpl. repeat split. lra.
  - rewrite evaluated_steps_from_S. unfold step_skipped, step_stops.
    change (ref_s_at this (INR index * interval)) with (spec_station this index) in H.
    rewrite INR_S_mult in H.
    destruct (Rltb (spec_station this index) start_s) eqn:Hskip.
    + apply IH in H. exact H.
    + destruct (Rgtb (spec_station this index) end_s) eqn:Hstop.
      * injection H as <-. simpl. repeat split. lra.
      * destruct (dynamic_obstacles_at ext this
                    (ego_box_at ext this curve start_s (spec_station this index))
                    index (TrajectoryCost.dynamic_obstacle_boxes_ this)
                    obstacle_cost) as [cost1|e] eqn:Hin; simpl in H;
          [|discriminate].
        apply dynamic_obstacles_at_returns in Hin.
        destruct Hin as (Hsf1 & Hc1 & Ho1 & Hsm1).
        apply IH in H. destruct H as (Hsf & Hc & Ho & Hsm).
        rewrite Hsf, Hc, Ho, Hsm, Hsf1, Hc1, Ho1, Hsm1.
        rewrite map_cons, Rsum_cons, spec_step_penalty_eq.
        repeat split. lra.
Qed.

(** With every cached trajectory long enough, [at] never throws. *)
Lemma dynamic_cost_loop_in_range (n : nat) :
  forall (index : nat) (time_stamp : R) (obstacle_cost : ComparableCost),
    Forall (fun tr => (index + n <= length tr)%nat)
      (TrajectoryCost.dynamic_obstacle_boxes_ this) ->
    exists cost',
      dynamic_cost_loop ext this n curve start_s end_s index time_stamp
        obstacle_cost = Ok cost'.
Proof.
  induction n as [|n IH]; intros index time_stamp obstacle_cost Hlen; simpl.
  - eexists; reflexivity.
  - assert (Hnext : Forall (fun tr => (S index + n <= length tr)%nat)
                      (TrajectoryCost.dynamic_obstacle_boxes_ this)).
    { eapply Forall_impl; [|exact Hlen]. simpl. intros tr Htr. lia. }
    destruct (Rltb (ref_s_at this time_stamp) start_s); [apply IH; assumption|].
    destruct (Rgtb (ref_s_at this time_stamp) end_s); [eexists; reflexivity|].
    destruct (dynamic_obstacles_at_in_range
                (ego_box_at ext this curve start_s (ref_s_at this time_stamp))
                index (TrajectoryCost.dynamic_obstacle_boxes_ this))
      with (obstacle_cost := obstacle_cost) as [cost1 Hcost1].
    { eapply Forall_impl; [|exact Hlen]. simpl. intros tr Htr. lia. }
    rewrite Hcost1. simpl. apply IH. assumption.
Qed.


Lemma CalculateDynamicObstacleCost_returns (cost : ComparableCost) :
  CalculateDynamicObstacleCost ext this curve start_s end_s = Ok cost ->
  safety_cost cost = spec_dynamic_safety_cost ext this curve start_s end_s
  /\ has_collision cost = false
  /\ out_of_boundary cost = false
  /\ smoothness_cost cost = 0.
Proof.
  unfold CalculateDynamicObstacleCost, spec_dynamic_safety_cost.
  destruct (TrajectoryCost.dynamic_obstacle_boxes_ this) as [|tr rest] eqn:Hboxes.
  - intros H; injection H as <-. simpl. repeat split.
    rewrite (map_ext (spec_step_penalty ext this curve start_s) (fun _ => 0)).
    + rewrite Rsum_zeros. lra.
    + intros i. unfold spec_step_penalty, penalties_at. rewrite Hboxes. reflexivity.
  - destruct (dynamic_cost_loop ext this num curve start_s end_s 0 0 cost_default)
      as [cost'|e] eqn:Hloop; simpl; [|discriminate].
    intros H; injection H as <-.
    replace 0 with (INR 0 * interval) in Hloop at 1 by (simpl; ring).
    apply dynamic_cost_loop_returns in Hloop.
    destruct Hloop as (Hsf & Hc & Ho & Hsm).
    simpl. rewrite Hsf, Hc, Ho, Hsm. simpl. unfold evaluated_steps.
    repeat split. lra.
Qed.

Lemma CalculateDynamicObstacleCost_in_range :
  Forall (fun tr => length tr = S num)
    (TrajectoryCost.dynamic_obstacle_boxes_ this) ->
  exists cost,
    CalculateDynamicObstacleCost ext this curve start_s end_s = Ok cost.
Proof.
  intros Hlen. unfold CalculateDynamicObstacleCost.
  destruct (TrajectoryCost.dynamic_obstacle_boxes_ this) as [|tr rest] eqn:Hboxes;
    [eexists; reflexivity|].
  destruct (dynamic_cost_loop_in_range num 0%nat 0 cost_default)
    as [cost' Hcost'].
  { rewrite Hboxes. eapply Forall_impl; [|exact Hlen].
    simpl. intros tr' Htr'. lia. }
  rewrite Hcost'. simpl. eexists; reflexivity.
Qed.


End DynamicCost.

(** ** The obstacle caches *)

Section Caches.

Variable ext : Externals.

(** With [num_of_time_stamps_] below the largest [uint32_t] the loop of the
    constructor stores the footprints of the times [t * interval],
    [t = k .. num_of_time_stamps_], one after the other. *)
Lemma box_by_time_loop_is_map (ptr_obstacle : Obstacle.t) (interval : R)
    (num : nat) (fuel : nat) :
  forall (k : nat) (box_by_time : list Box2d.t),
    (k + fuel = S num)%nat ->
    (Z.of_nat num < uint32_max)%Z ->
    box_by_time_loop ptr_obstacle interval (Z.of_nat num) fuel (Z.of_nat k)
      box_by_time
    = Ok (box_by_time
          ++ map (fun t' =>
                    expanded_obstacle_box
                      (Obstacle.GetBoundingBox ptr_obstacle
                         (Obstacle.GetPointAtTime ptr_obstacle
                            (INR t' * interval))))
               (seq k fuel)).
Proof.
  induction fuel as [|fuel IH]; intros k box_by_time Hk Hnum; simpl.
  - replace (Z.of_nat k <=? Z.of_nat num)%Z with false
      by (symmetry; apply Z.leb_gt; lia).
    rewrite app_nil_r. reflexivity.
  - replace (Z.of_nat k <=? Z.of_nat num)%Z with true
      by (symmetry; apply Z.leb_le; lia).
    replace ((Z.of_nat k + 1) mod uint32_modulus)%Z with (Z.of_nat (S k)).
    + rewrite IH by lia. rewrite <- app_assoc, INR_IZR_INZ. reflexivity.
    + unfold uint32_max in Hnum. unfold uint32_modulus.
      rewrite Z.mod_small; lia.
Qed.

(** With [num_of_time_stamps_] at the largest [uint32_t], or beyond, the
    loop does not leave, whatever the number of rounds. *)
Lemma box_by_time_loop_diverges (ptr_obstacle : Obstacle.t) (interval : R)
    (num : Z) (fuel : nat) :
  (uint32_max <= num)%Z ->
  forall (t : Z) (box_by_time : list Box2d.t),
    (0 <= t < uint32_modulus)%Z ->
    box_by_time_loop ptr_obstacle interval num fuel t box_by_time
    = Fail Diverges.
Proof.
  intros Hnum. induction fuel as [|fuel IH]; intros t box_by_time Ht; simpl;
    (replace (t <=? num)%Z with true
       by (symmetry; apply Z.leb_le;
           unfold uint32_max in Hnum; unfold uint32_modulus in Ht; lia)).
  - reflexivity.
  - apply IH. apply Z.mod_pos_bound. reflexivity.
Qed.

Lemma box_by_time_of_time_aligned (obstacles : list Obstacle.t)
    (ptr_obstacle : Obstacle.t) (interval : R) (num : nat)
    (box_by_time : list Box2d.t) :
  In ptr_obstacle obstacles ->
  box_by_time_of ptr_obstacle interval num = Ok box_by_time ->
  trajectory_time_aligned obstacles interval num box_by_time.
Proof.
  intros Hin H. unfold box_by_time_of in H.
  destruct (Z_lt_le_dec (Z.of_nat num) uint32_max) as [Hlt|Hge].
  - change 0%Z with (Z.of_nat 0) in H.
    rewrite box_by_time_loop_is_map in H by (try assumption; lia).
    assert (E : box_by_time
                = map (fun t' =>
                         expanded_obstacle_box
                           (Obstacle.GetBoundingBox ptr_obstacle
                              (Obstacle.GetPointAtTime ptr_obstacle
                                 (INR t' * interval))))
                    (seq 0 (S num)))
      by (rewrite app_nil_l in H; congruence).
    clear H. subst box_by_time. split.
    + rewrite length_map, length_seq. reflexivity.
    + exists ptr_obstacle. split; [assumption|].
      intros t Ht. cbv zeta.
      rewrite nth_error_map, nth_error_seq.
      replace (t <? S num)%nat with true by (symmetry; apply Nat.ltb_lt; lia).
      reflexivity.
  - rewrite box_by_time_loop_diverges in H;
      [discriminate|assumption|unfold uint32_modulus; lia].
Qed.

Lemma classify_obstacles_time_aligned (all_obstacles : list Obstacle.t)
    (config : DpPolyPathConfig.t) (vehicle_param : VehicleParam.t)
    (init_sl_point : SLPoint.t) (num : nat) (obstacles : list Obstacle.t) :
  forall caches caches',
    incl obstacles all_obstacles ->
    Forall (trajectory_time_aligned all_obstacles
              (DpPolyPathConfig.eval_time_interval config) num) (snd caches) ->
    classify_obstacles ext config vehicle_param init_sl_point num obstacles caches
    = Ok caches' ->
    Forall (trajectory_time_aligned all_obstacles
              (DpPolyPathConfig.eval_time_interval config) num) (snd caches').
Proof.
  induction obstacles as [|ob rest IH]; intros caches caches' Hincl Hinv H;
    simpl in H.
  - injection H as <-. assumption.
  - destruct (classify_obstacle ext config vehicle_param init_sl_point num
                caches ob) as [caches1|e] eqn:Hone; simpl in H; [|discriminate].
    apply (IH caches1 caches'); [| |assumption].
    + intros x Hx. apply Hincl. right. assumption.
    + unfold classify_obstacle in Hone.
      repeat match type of Hone with
             | (if ?b then _ else _) = _ => destruct b
             end;
        try (injection Hone as <-; assumption).
      destruct (box_by_time_of ob (DpPolyPathConfig.eval_time_interval config) num)
        as [boxes|e] eqn:Hboxes; simpl in Hone; [|discriminate].
      injection Hone as <-. simpl.
      apply Forall_app. split; [assumption|].
      constructor; [|constructor].
      apply (box_by_time_of_time_aligned all_obstacles ob); [|assumption].
      apply Hincl. left. reflexivity.
Qed.

Lemma classify_obstacles_returns (config : DpPolyPathConfig.t)
    (vehicle_param : VehicleParam.t) (init_sl_point : SLPoint.t) (num : nat)
    (obstacles : list Obstacle.t) :
  (Z.of_nat num < uint32_max)%Z ->
  forall caches,
  exists caches',
    classify_obstacles ext config vehicle_param init_sl_point num obstacles caches
    = Ok caches'.
Proof.
  intros Hnum.
  induction obstacles as [|ob rest IH]; intros caches; simpl.
  - eexists; reflexivity.
  - assert (Hone : exists caches1,
               classify_obstacle ext config vehicle_param init_sl_point num
                 caches ob = Ok caches1).
    { unfold classify_obstacle, box_by_time_of.
      change 0%Z with (Z.of_nat 0).
      rewrite box_by_time_loop_is_map by (try assumption; lia).
      repeat match goal with
             | |- context [if ?b then _ else _] => destruct b
             end; simpl; eexists; reflexivity. }
    destruct Hone as [caches1 Hone]. rewrite Hone. simpl. apply IH.
Qed.

(** What the member functions leave of the object: all of it. *)
Lemma machine_path_cost_loop_object (arith : DoubleArith) (fuel : nat)
    (curve : QuinticPolynomialCurve1d.t) (start_s end_s : R)
    (this : TrajectoryCost.t) :
  forall (curve_s : R) (cost : ComparableCost) (path_cost : R) st,
    Machine.path_cost_loop arith ext fuel curve start_s end_s curve_s cost
      path_cost this = Ok st ->
    snd st = this.
Proof.
  induction fuel as [|fuel IH]; intros curve_s cost path_cost st H; simpl in H;
    destruct (Rltb curve_s (double_sub arith end_s start_s));
    try discriminate.
  - injection H as <-. reflexivity.
  - apply IH in H. assumption.
  - injection H as <-. reflexivity.
Qed.

Lemma machine_static_cost_loop_object (arith : DoubleArith) (fuel : nat)
    (curve : QuinticPolynomialCurve1d.t) (start_s end_s : R)
    (this : TrajectoryCost.t) :
  forall (curr_s : R) (obstacle_cost : ComparableCost) st,
    Machine.static_cost_loop arith ext fuel curve start_s end_s curr_s
      obstacle_cost this = Ok st ->
    snd st = this.
Proof.
  induction fuel as [|fuel IH]; intros curr_s obstacle_cost st H; simpl in H;
    destruct (Rleb curr_s end_s); try discriminate.
  - injection H as <-. reflexivity.
  - apply IH in H. assumption.
  - injection H as <-. reflexivity.
Qed.

Lemma machine_CalculatePathCost_object (arith : DoubleArith) (fuel : nat)
    (curve : QuinticPolynomialCurve1d.t) (start_s end_s : R)
    (curr_level total_level : N) (this : TrajectoryCost.t) st :
  Machine.CalculatePathCost arith ext fuel curve start_s end_s curr_level
    total_level this = Ok st ->
  snd st = this.
Proof.
  unfold Machine.CalculatePathCost.
  destruct (Machine.path_cost_loop arith ext fuel curve start_s end_s 0
              cost_default 0 this) as [st0|e] eqn:Hloop; simpl; [|discriminate].
  apply machine_path_cost_loop_object in Hloop.
  intros H; injection H as <-. assumption.
Qed.

Lemma machine_CalculateStaticObstacleCost_object (arith : DoubleArith)
    (fuel : nat) (curve : QuinticPolynomialCurve1d.t) (start_s end_s : R)
    (this : TrajectoryCost.t) st :
  Machine.CalculateStaticObstacleCost arith ext fuel curve start_s end_s this
  = Ok st ->
  snd st = this.
Proof.
  unfold Machine.CalculateStaticObstacleCost.
  destruct (Machine.static_cost_loop arith ext fuel curve start_s end_s start_s
              cost_default this) as [st0|e] eqn:Hloop; simpl; [|discriminate].
  apply machine_static_cost_loop_object in Hloop.
  intros H; injection H as <-. assumption.
Qed.

Lemma machine_invoke_object (arith : DoubleArith) (call : MemberCall)
    (this : TrajectoryCost.t) st :
  Machine.invoke arith ext call this = Ok st -> snd st = this.
Proof.
  destruct call as [fuel curve start_s end_s curr_level total_level
                   |fuel curve start_s end_s curr_level total_level
                   |fuel curve start_s end_s
                   |curve start_s end_s]; simpl.
  - unfold Machine.Calculate.
    destruct (Machine.CalculatePathCost arith ext fuel curve start_s end_s
                curr_level total_level this) as [p|e] eqn:Hp; simpl;
      [|discriminate].
    apply machine_CalculatePathCost_object in Hp.
    destruct (Machine.CalculateStaticObstacleCost arith ext fuel curve start_s
                end_s (snd p)) as [q|e] eqn:Hq; simpl; [|discriminate].
    apply machine_CalculateStaticObstacleCost_object in Hq.
    destruct (CalculateDynamicObstacleCost ext (snd q) curve start_s end_s)
      as [d|e]; simpl; [|discriminate].
    intros H; injection H as <-. simpl. congruence.
  - apply machine_CalculatePathCost_object.
  - apply machine_CalculateStaticObstacleCost_object.
  - destruct (CalculateDynamicObstacleCost ext this curve start_s end_s)
      as [d|e]; simpl; [|discriminate].
    intros H; injection H as <-. reflexivity.
Qed.

Lemma machine_after_calls_object (arith : DoubleArith) (calls : list MemberCall) :
  forall this this' : TrajectoryCost.t,
    Machine.after_calls arith ext calls this = Ok this' -> this' = this.
Proof.
  induction calls as [|call rest IH]; intros this this' H; simpl in H.
  - congruence.
  - destruct (Machine.invoke arith ext call this) as [st|e] eqn:Hcall;
      simpl in H; [|discriminate].
    apply machine_invoke_object in Hcall. apply IH in H. congruence.
Qed.

(** C7. After construction every trajectory of the dynamic obstacle cache
    has exactly [num_time_steps + 1] footprints, where [num_time_steps] is
    the floor of the smaller of the speed profile's total time and the
    global prediction time, divided by [eval_time_interval], the quotient
    being the one the machine computes; entry [t] is the box of one of the
    obstacles at time [t * eval_time_interval], its length and its width
    both larger by [0.5], so an index stands for the same time in every
    trajectory; whatever member calls follow and return, the object they
    leave has both caches as they were.  An interval of [0] has no
    quotient and the constructor does not return; with any other interval
    it returns when [num_time_steps] fits a [uint32_t] below its largest
    value. *)
Theorem TrajectoryCost_ctor_caches (arith : DoubleArith)
    (config : DpPolyPathConfig.t)
    (reference_line : ReferenceLine.t) (is_change_lane_path : bool)
    (obstacles : list Obstacle.t) (vehicle_param : VehicleParam.t)
    (heuristic_speed_data : SpeedData.t) (init_sl_point : SLPoint.t)
    (adc_sl_boundary : SLBoundary.t) :
  let interval := DpPolyPathConfig.eval_time_interval config in
  let num_time_steps :=
    Zfloor (double_div arith
              (Rmin (SpeedData.TotalTime heuristic_speed_data)
                    (FLAGS_prediction_total_time ext))
              interval) in
  (forall this,
     Machine.TrajectoryCost_ctor arith ext config reference_line
       is_change_lane_path obstacles vehicle_param heuristic_speed_data
       init_sl_point adc_sl_boundary
     = Ok this ->
     interval <> 0
     /\ Z.of_nat (TrajectoryCost.num_of_time_stamps_ this) = num_time_steps
     /\ Forall (trajectory_time_aligned obstacles interval
                  (TrajectoryCost.num_of_time_stamps_ this))
          (TrajectoryCost.dynamic_obstacle_boxes_ this)
     /\ forall calls this',
          Machine.after_calls arith ext calls this = Ok this' ->
          TrajectoryCost.static_obstacle_sl_boundaries_ this'
          = TrajectoryCost.static_obstacle_sl_boundaries_ this
          /\ TrajectoryCost.dynamic_obstacle_boxes_ this'
             = TrajectoryCost.dynamic_obstacle_boxes_ this)
  /\ (interval <> 0 ->
      (0 <= num_time_steps < uint32_max)%Z ->
      exists this,
        Machine.TrajectoryCost_ctor arith ext config reference_line
          is_change_lane_path obstacles vehicle_param heuristic_speed_data
          init_sl_point adc_sl_boundary = Ok this).
Proof.
  intros interval num_time_steps. unfold Machine.TrajectoryCost_ctor.
  fold interval. fold num_time_steps. unfold static_cast_uint32. split.
  - intros this H.
    destruct (Reqb interval 0) eqn:Hzero; simpl in H; [discriminate|].
    apply Reqb_false in Hzero.
    destruct ((0 <=? num_time_steps) && (num_time_steps <=? uint32_max))%Z
      eqn:Hrange; simpl in H; [|discriminate].
    apply andb_true_iff in Hrange. destruct Hrange as [Hlo _].
    apply Z.leb_le in Hlo.
    destruct (classify_obstacles ext config vehicle_param init_sl_point
                (Z.to_nat num_time_steps) obstacles ([], []))
      as [caches|e] eqn:Hcaches; simpl in H; [|discriminate].
    assert (Hthis : this
                    = TrajectoryCost.mk config reference_line is_change_lane_path
                        vehicle_param heuristic_speed_data init_sl_point
                        adc_sl_boundary (Z.to_nat num_time_steps)
                        (fst caches) (snd caches)) by congruence.
    clear H. subst this. simpl.
    split; [assumption|]. split; [apply Z2Nat.id; assumption|]. split.
    + apply (classify_obstacles_time_aligned obstacles config vehicle_param
               init_sl_point (Z.to_nat num_time_steps) obstacles ([], []) caches);
        [apply incl_refl|constructor|assumption].
    + intros calls this' Hcalls.
      apply machine_after_calls_object in Hcalls. subst this'.
      split; reflexivity.
  - intros Hzero [Hlo Hhi].
    apply Reqb_false in Hzero. rewrite Hzero.
    replace ((0 <=? num_time_steps) && (num_time_steps <=? uint32_max))%Z
      with true
      by (symmetry; apply andb_true_iff; split; apply Z.leb_le; lia).
    simpl.
    destruct (classify_obstacles_returns config vehicle_param init_sl_point
                (Z.to_nat num_time_steps) obstacles)
      with (caches := (@nil SLBoundary.t, @nil (list Box2d.t)))
      as [caches Hcaches]; [rewrite Z2Nat.id; lia|].
    rewrite Hcaches. simpl. eexists; reflexivity.
Qed.

End Caches.

(** ** The top-level evaluation *)

Section TopLevel.

Variable ext : Externals.
Variable this : TrajectoryCost.t.
Variable curve : QuinticPolynomialCurve1d.t.
Variables start_s end_s : R.
Variables curr_level total_level : N.

(** With a positive sample resolution and [num_time_steps + 1] footprints
    in every cached trajectory the three costs are returned once the fuel
    covers the sample stations. *)
Lemma three_costs_returned :
  0 < DpPolyPathConfig.path_resolution (TrajectoryCost.config_ this) ->
  Forall (fun tr => length tr = S (TrajectoryCost.num_of_time_stamps_ this))
    (TrajectoryCost.dynamic_obstacle_boxes_ this) ->
  exists n : nat,
    forall fuel, (n <= fuel)%nat ->
      exists path_cost static_cost dynamic_cost,
        CalculatePathCost ext this fuel curve start_s end_s
          curr_level total_level = Ok path_cost
        /\ CalculateStaticObstacleCost ext this fuel curve start_s end_s
           = Ok static_cost
        /\ CalculateDynamicObstacleCost ext this curve start_s end_s
           = Ok dynamic_cost.
Proof.
  intros Hr Hlen.
  destruct (INR_archimed _ (end_s - start_s) Hr) as [n Hn].
  exists n. intros fuel Hfuel.
  destruct (CalculatePathCost_terminates ext this curve start_s end_s n fuel
              curr_level total_level Hr) as [p Hp]; [lra|assumption|].
  destruct (CalculateStaticObstacleCost_terminates ext this curve start_s end_s
              n fuel Hr) as [s Hs]; [lra|assumption|].
  destruct (CalculateDynamicObstacleCost_in_range ext this curve start_s end_s Hlen)
    as [d Hd].
  exists p, s, d. repeat split; assumption.
Qed.

(** C1. [Calculate] returns the combination of the costs of
    [CalculatePathCost], [CalculateStaticObstacleCost] and
    [CalculateDynamicObstacleCost] under the combination rule: the flags are
    the logical OR of the three costs' flags, the scalars the sums of their
    scalars; it fails where the first of the three fails.  With a positive
    sample resolution and well-formed caches it returns once the fuel covers
    the sample stations. *)
Theorem Calculate_combines_three_costs :
  (forall fuel,
     Calculate ext this fuel curve start_s end_s curr_level total_level
     = (path_cost <-
          CalculatePathCost ext this fuel curve start_s end_s
            curr_level total_level ;;
        static_cost <- CalculateStaticObstacleCost ext this fuel curve start_s end_s ;;
        dynamic_cost <- CalculateDynamicObstacleCost ext this curve start_s end_s ;;
        Ok (mkCost
              (has_collision path_cost || has_collision static_cost
               || has_collision dynamic_cost)
              (out_of_boundary path_cost || out_of_boundary static_cost
               || out_of_boundary dynamic_cost)
              (smoothness_cost path_cost + smoothness_cost static_cost
               + smoothness_cost dynamic_cost)
              (safety_cost path_cost + safety_cost static_cost
               + safety_cost dynamic_cost))))
  /\ (0 < DpPolyPathConfig.path_resolution (TrajectoryCost.config_ this) ->
      Forall (fun tr => length tr = S (TrajectoryCost.num_of_time_stamps_ this))
        (TrajectoryCost.dynamic_obstacle_boxes_ this) ->
      exists n : nat,
        forall fuel, (n <= fuel)%nat ->
          exists path_cost static_cost dynamic_cost,
            CalculatePathCost ext this fuel curve start_s end_s
              curr_level total_level = Ok path_cost
            /\ CalculateStaticObstacleCost ext this fuel curve start_s end_s
               = Ok static_cost
            /\ CalculateDynamicObstacleCost ext this curve start_s end_s
               = Ok dynamic_cost
            /\ Calculate ext this fuel curve start_s end_s curr_level total_level
               = Ok (cost_add (cost_add path_cost static_cost) dynamic_cost)).
Proof.
  split.
  - intros fuel. apply Calculate_unfold.
  - intros Hr Hlen.
    destruct (three_costs_returned Hr Hlen) as [n Hn].
    exists n. intros fuel Hfuel.
    destruct (Hn fuel Hfuel) as (p & s & d & Hp & Hs & Hd).
    exists p, s, d. repeat split; try assumption.
    rewrite Calculate_unfold, Hp, Hs, Hd. reflexivity.
Qed.

End TopLevel.

(** * The scenario run through the theorems *)

Lemma ex_well_formed :
  0 < DpPolyPathConfig.path_resolution (TrajectoryCost.config_ ex_this)
  /\ Forall (fun tr => length tr = S (TrajectoryCost.num_of_time_stamps_ ex_this))
       (TrajectoryCost.dynamic_obstacle_boxes_ ex_this).
Proof.
  split.
  - simpl. lra.
  - simpl. repeat constructor.
Qed.

Lemma Calculate_combines_three_costs_witness :
  exists n : nat,
    forall fuel, (n <= fuel)%nat ->
      exists path_cost static_cost dynamic_cost,
        CalculatePathCost ex_ext ex_this fuel ex_curve 0 2 1 1 = Ok path_cost
        /\ CalculateStaticObstacleCost ex_ext ex_this fuel ex_curve 0 2
           = Ok static_cost
        /\ CalculateDynamicObstacleCost ex_ext ex_this ex_curve 0 2
           = Ok dynamic_cost
        /\ Calculate ex_ext ex_this fuel ex_curve 0 2 1 1
           = Ok (cost_add (cost_add path_cost static_cost) dynamic_cost).
Proof.
  exact (proj2 (Calculate_combines_three_costs ex_ext ex_this ex_curve 0 2 1 1)
           (proj1 ex_well_formed) (proj2 ex_well_formed)).
Defined.

Lemma CalculatePathCost_end_l_penalty_witness :
  CalculatePathCost ex_ext ex_this 5 ex_curve 0 2 1 2
  = CalculatePathCost ex_ext ex_this 5 ex_curve 0 2 0 5.
Proof.
  apply (proj1 (proj2 (CalculatePathCost_end_l_penalty ex_ext ex_this ex_curve
                         0 2 5 1 2)) 0%N 5%N); discriminate.
Defined.

Lemma GetCostFromObsSL_straddling_boundary_is_zero_witness :
  GetCostFromObsSL ex_ext ex_this 7 0 (SLBoundary.mk 6 8 (-1) 1) = cost_default.
Proof.
  apply (GetCostFromObsSL_straddling_boundary_is_zero ex_ext ex_this 7 0
           (SLBoundary.mk 6 8 (-1) 1)).
  simpl. lra.
Defined.

Lemma GetCostFromObsSL_collision_iff_overlap_witness :
  GetCostFromObsSL ex_ext ex_this 5 0.5 (SLBoundary.mk 6 8 1 2)
  = set_has_collision cost_default.
Proof.
  apply (GetCostFromObsSL_collision_iff_overlap ex_ext ex_this 5 0.5
           (SLBoundary.mk 6 8 1 2)); simpl; lra.
Defined.

Lemma GetCostBetweenObsBoxes_penalty_witness :
  safety_cost
    (GetCostBetweenObsBoxes ex_ext ex_this
       (Box2d.mk (Vec2d.mk 0 0) 0 5 2) (ex_box 0))
  = 30000 * logistic (0.5 - 12) + 20 * logistic (2 - 12).
Proof.
  destruct (GetCostBetweenObsBoxes_penalty ex_ext ex_this
              (Box2d.mk (Vec2d.mk 0 0) 0 5 2) (ex_box 0)) as [_ H].
  simpl in H.
  replace (Rabs (12 + 3 * (0 * 0.5) - 0) + Rabs (0 - 0)) with 12 in H.
  - apply H. lra.
  - rewrite Rabs_right by lra. rewrite Rabs_right by lra. lra.
Defined.

(** C8, as the specification has it, fails: no weight that varies with the
    configuration fits the risk term, whose weight is [20] under every
    configuration. *)
Lemma GetCostBetweenObsBoxes_risk_weight_not_configured :
  ~ (exists risk_weight : DpPolyPathConfig.t -> R,
       (exists config1 config2, risk_weight config1 <> risk_weight config2)
       /\ forall (ext : Externals) (this : TrajectoryCost.t)
                 (ego_box obstacle_box : Box2d.t),
            let config := TrajectoryCost.config_ this in
            let d := DistanceTo ext obstacle_box ego_box in
            d <= DpPolyPathConfig.obstacle_ignore_distance config ->
            safety_cost (GetCostBetweenObsBoxes ext this ego_box obstacle_box)
            = DpPolyPathConfig.obstacle_collision_cost config
              * Sigmoid ext (DpPolyPathConfig.obstacle_collision_distance config - d)
              + risk_weight config
                * Sigmoid ext (DpPolyPathConfig.obstacle_risk_distance config - d)).
Proof.
  intros (risk_weight & (config1 & config2 & Hne) & H).
  assert (H20 : forall config, risk_weight config = 20).
  { intros config.
    specialize (H (mkExternals (fun _ => 1)
                     (fun _ _ => DpPolyPathConfig.obstacle_ignore_distance config)
                     (fun _ _ => 0) (fun a => a) 0 0 ex_vehicle_param)
                  (TrajectoryCost.mk config ex_reference_line false
                     ex_vehicle_param ex_speed_data ex_init_sl_point
                     ex_adc_sl_boundary 0 [] [])
                  (ex_box 0) (ex_box 0)).
    simpl in H.
    unfold GetCostBetweenObsBoxes in H. simpl in H.
    replace (Rgtb (DpPolyPathConfig.obstacle_ignore_distance config)
               (DpPolyPathConfig.obstacle_ignore_distance config))
      with false in H by (symmetry; apply Rgtb_false; lra).
    simpl in H. specialize (H (Rle_refl _)). lra. }
  apply Hne. rewrite !H20. reflexivity.
Qed.

Lemma ex_num_time_steps :
  Zfloor (Rmin (SpeedData.TotalTime ex_speed_data)
               (FLAGS_prediction_total_time ex_ext)
          / DpPolyPathConfig.eval_time_interval ex_config) = 4%Z.
Proof.
  apply Zfloor_eq. simpl. unfold Rmin. destruct (Rle_dec 2 5); lra.
Qed.

(** The constructor builds [ex_this] from the scenario. *)
Lemma ex_this_constructed :
  TrajectoryCost_ctor ex_ext ex_config ex_reference_line false ex_obstacles
    ex_vehicle_param ex_speed_data ex_init_sl_point ex_adc_sl_boundary
  = Ok ex_this.
Proof.
  unfold TrajectoryCost_ctor.
  replace (Reqb (DpPolyPathConfig.eval_time_interval ex_config) 0) with false
    by (symmetry; apply Reqb_false; simpl; lra).
  rewrite ex_num_time_steps.
  change (static_cast_uint32 4) with (Ok 4%nat).
  unfold bind at 1.
  unfold ex_obstacles, classify_obstacles, classify_obstacle.
  simpl Obstacle.IsIgnore. simpl Obstacle.LongitudinalDecision_has_stop.
  cbn [bind]. simpl. rdec. simpl. reflexivity.
Qed.


(** ** The scenario evaluated *)

Example ex_path_cost :
  CalculatePathCost ex_ext ex_this 2 ex_curve 0 2 0 1 = Ok cost_default.
Proof.
  unfold CalculatePathCost, path_cost_loop, IsOffRoad. simpl.
  rdec. simpl. rdec. simpl. rdec. simpl.
  unfold set_smoothness_cost, cost_default. simpl. f_equal. f_equal.
  rewrite Rabs_R0. ring.
Qed.

Example ex_path_cost_out_of_fuel :
  CalculatePathCost ex_ext ex_this 1 ex_curve 0 2 0 1 = Fail OutOfFuel.
Proof.
  unfold CalculatePathCost, path_cost_loop, IsOffRoad. simpl.
  rdec. simpl. rdec. reflexivity.
Qed.

Example ex_static_cost :
  CalculateStaticObstacleCost ex_ext ex_this 2 ex_curve 0 1
  = Ok (mkCost false false 0 (2 * (30000 * logistic 0.5))).
Proof.
  unfold CalculateStaticObstacleCost, static_cost_loop, static_obstacles_at,
    GetCostFromObsSL, kSafeDistance. simpl.
  replace (Rmax (0 - 1 - 2) (1 - (0 + 1))) with 0
    by (unfold Rmax; destruct (Rle_dec (0 - 1 - 2) (1 - (0 + 1))); lra).
  rdec. simpl.
  unfold set_safety_cost, cost_add, cost_default. simpl.
  replace (0.5 - 0) with 0.5 by lra.
  f_equal. f_equal; lra.
Qed.

(** One station further the ego's front edge reaches the parked car, whose
    right edge is within the tolerance of the ego's left edge. *)
Example ex_static_collision :
  CalculateStaticObstacleCost ex_ext ex_this 3 ex_curve 0 2
  = Ok (mkCost true false 0 (3 * (30000 * logistic 0.5))).
Proof.
  unfold CalculateStaticObstacleCost, static_cost_loop, static_obstacles_at,
    GetCostFromObsSL, kSafeDistance. simpl.
  replace (Rmax (0 - 1 - 2) (1 - (0 + 1))) with 0
    by (unfold Rmax; destruct (Rle_dec (0 - 1 - 2) (1 - (0 + 1))); lra).
  rdec. simpl.
  unfold set_safety_cost, cost_add, cost_default. simpl.
  replace (0.5 - 0) with 0.5 by lra.
  f_equal. f_equal; lra.
Qed.

Example ex_evaluated_steps : evaluated_steps ex_this 0 2 = [0; 1; 2]%nat.
Proof.
  unfold evaluated_steps, evaluated_steps_from, step_skipped, step_stops,
    spec_station, ref_s_at. simpl.
  rdec. simpl. rdec. simpl. reflexivity.
Qed.

(** A cache whose only trajectory has one footprint, two time steps: the
    second step asks for entry [1]. *)
Example ex_out_of_range :
  CalculateDynamicObstacleCost ex_ext
    (TrajectoryCost.mk ex_config ex_reference_line false ex_vehicle_param
       ex_speed_data ex_init_sl_point ex_adc_sl_boundary 2 [] [[ex_box 0]])
    ex_curve 0 2
  = Fail OutOfRange.
Proof.
  unfold CalculateDynamicObstacleCost, dynamic_cost_loop, ref_s_at. simpl.
  rdec. simpl. reflexivity.
Qed.

(** * What else the code shows *)

(** ** The constructor *)

Section Constructor.

Variable ext : Externals.
Variable config : DpPolyPathConfig.t.
Variable vehicle_param : VehicleParam.t.
Variable init_sl_point : SLPoint.t.
Variable num : nat.

#[local] Abbreviation interval := (DpPolyPathConfig.eval_time_interval config).
#[local] Abbreviation kept := (obstacle_kept ext vehicle_param init_sl_point).
#[local] Abbreviation as_static := (kept_as_static ext vehicle_param init_sl_point).
#[local] Abbreviation as_dynamic := (kept_as_dynamic ext vehicle_param init_sl_point).

Lemma box_by_time_of_value (ptr_obstacle : Obstacle.t) :
  box_by_time_of ptr_obstacle interval num
  = if (Z.of_nat num <? uint32_max)%Z
    then Ok (obstacle_trajectory interval num ptr_obstacle)
    else Fail Diverges.
Proof.
  unfold box_by_time_of, obstacle_trajectory.
  destruct (Z.of_nat num <? uint32_max)%Z eqn:Hnum.
  - apply Z.ltb_lt in Hnum. change 0%Z with (Z.of_nat 0).
    rewrite box_by_time_loop_is_map by (try assumption; lia).
    reflexivity.
  - apply Z.ltb_ge in Hnum.
    apply box_by_time_loop_diverges; [assumption|unfold uint32_modulus; lia].
Qed.

(** One round of the constructor's loop, by the three cases of the
    obstacle. *)
Lemma classify_obstacle_cases
    (caches : list SLBoundary.t * list (list Box2d.t))
    (ptr_obstacle : Obstacle.t) :
  classify_obstacle ext config vehicle_param init_sl_point num caches ptr_obstacle
  = if negb (kept ptr_obstacle) then Ok caches
    else if static_like ptr_obstacle
         then Ok (fst caches ++ [Obstacle.PerceptionSLBoundary ptr_obstacle],
                  snd caches)
         else if (Z.of_nat num <? uint32_max)%Z
              then Ok (fst caches,
                       snd caches ++ [obstacle_trajectory interval num ptr_obstacle])
              else Fail Diverges.
Proof.
  unfold classify_obstacle, obstacle_kept, static_like.
  rewrite box_by_time_of_value.
  destruct (Obstacle.IsIgnore ptr_obstacle); [reflexivity|].
  destruct (Obstacle.LongitudinalDecision_has_stop ptr_obstacle); [reflexivity|].
  cbn [negb andb].
  destruct (Rltb _ _ || Rgtb _ _); [reflexivity|].
  destruct (Obstacle.IsVirtual ptr_obstacle); [reflexivity|].
  cbn [negb andb].
  destruct (Obstacle.IsStatic ptr_obstacle || is_bycycle_or_pedestrian ptr_obstacle);
    [reflexivity|].
  destruct (Z.of_nat num <? uint32_max)%Z; reflexivity.
Qed.

(** The whole loop: the static cache grows by the boundaries of the
    obstacles kept as static, the dynamic cache by the trajectories of
    those kept as dynamic, both in the order of the input; the loop fails
    only on a dynamic obstacle, and only with the largest number of time
    steps. *)
Lemma classify_obstacles_value (obstacles : list Obstacle.t) :
  forall caches : list SLBoundary.t * list (list Box2d.t),
    classify_obstacles ext config vehicle_param init_sl_point num obstacles caches
    = if (Z.of_nat num <? uint32_max)%Z || negb (existsb as_dynamic obstacles)
      then Ok (fst caches
               ++ map Obstacle.PerceptionSLBoundary (filter as_static obstacles),
               snd caches
               ++ map (obstacle_trajectory interval num)
                    (filter as_dynamic obstacles))
      else Fail Diverges.
Proof.
  induction obstacles as [|ob rest IH]; intros caches; simpl.
  - rewrite orb_true_r, !app_nil_r. destruct caches; reflexivity.
  - rewrite classify_obstacle_cases.
    unfold kept_as_static, kept_as_dynamic.
    destruct (obstacle_kept ext vehicle_param init_sl_point ob); cbn [negb andb].
    + destruct (static_like ob); cbn [negb andb orb bind].
      * rewrite IH. cbn [fst snd map].
        rewrite <- app_assoc. reflexivity.
      * destruct (Z.of_nat num <? uint32_max)%Z; cbn [bind orb negb];
          [|reflexivity].
        rewrite IH. cbn [fst snd map orb].
        rewrite <- app_assoc. reflexivity.
    + cbn [bind orb]. apply IH.
Qed.

Lemma filter_kept_as_static (obstacles : list Obstacle.t) :
  filter as_static (filter kept obstacles) = filter as_static obstacles.
Proof.
  induction obstacles as [|ob rest IH]; simpl; [reflexivity|].
  unfold kept_as_static at 2.
  destruct (obstacle_kept ext vehicle_param init_sl_point ob) eqn:Hk; simpl.
  - unfold kept_as_static at 1. rewrite Hk, IH. reflexivity.
  - assumption.
Qed.

Lemma filter_kept_as_dynamic (obstacles : list Obstacle.t) :
  filter as_dynamic (filter kept obstacles) = filter as_dynamic obstacles.
Proof.
  induction obstacles as [|ob rest IH]; simpl; [reflexivity|].
  unfold kept_as_dynamic at 2.
  destruct (obstacle_kept ext vehicle_param init_sl_point ob) eqn:Hk; simpl.
  - unfold kept_as_dynamic at 1. rewrite Hk, IH. reflexivity.
  - assumption.
Qed.

Lemma existsb_kept_as_dynamic (obstacles : list Obstacle.t) :
  existsb as_dynamic (filter kept obstacles) = existsb as_dynamic obstacles.
Proof.
  induction obstacles as [|ob rest IH]; simpl; [reflexivity|].
  unfold kept_as_dynamic at 2.
  destruct (obstacle_kept ext vehicle_param init_sl_point ob) eqn:Hk; simpl.
  - unfold kept_as_dynamic at 1. rewrite Hk, IH. reflexivity.
  - assumption.
Qed.

End Constructor.

Section ConstructorOutcome.

Variable ext : Externals.
Variable config : DpPolyPathConfig.t.
Variable reference_line : ReferenceLine.t.
Variable is_change_lane_path : bool.
Variable obstacles : list Obstacle.t.
Variable vehicle_param : VehicleParam.t.
Variable heuristic_speed_data : SpeedData.t.
Variable init_sl_point : SLPoint.t.
Variable adc_sl_boundary : SLBoundary.t.

#[local] Abbreviation interval := (DpPolyPathConfig.eval_time_interval config).
#[local] Abbreviation steps := (time_steps_floor ext config heuristic_speed_data).
#[local] Abbreviation kept := (obstacle_kept ext vehicle_param init_sl_point).
#[local] Abbreviation as_static := (kept_as_static ext vehicle_param init_sl_point).
#[local] Abbreviation as_dynamic := (kept_as_dynamic ext vehicle_param init_sl_point).
#[local] Abbreviation ctor :=
  (TrajectoryCost_ctor ext config reference_line is_change_lane_path obstacles
     vehicle_param heuristic_speed_data init_sl_point adc_sl_boundary).

(** The constructor once the number of time steps [z] is there. *)
Lemma ctor_from_steps_value (z : Z) :
  (num_of_time_stamps <- static_cast_uint32 z ;;
   caches <- classify_obstacles ext config vehicle_param init_sl_point
               num_of_time_stamps obstacles ([], []) ;;
   Ok (TrajectoryCost.mk config reference_line is_change_lane_path
         vehicle_param heuristic_speed_data init_sl_point adc_sl_boundary
         num_of_time_stamps (fst caches) (snd caches)))
  = if ((z <? 0) || (uint32_max <? z))%Z then Fail UndefinedCast
    else if (z =? uint32_max)%Z && existsb as_dynamic obstacles
         then Fail Diverges
         else Ok (TrajectoryCost.mk config reference_line is_change_lane_path
                    vehicle_param heuristic_speed_data init_sl_point
                    adc_sl_boundary (Z.to_nat z)
                    (map Obstacle.PerceptionSLBoundary (filter as_static obstacles))
                    (map (obstacle_trajectory interval (Z.to_nat z))
                       (filter as_dynamic obstacles))).
Proof.
  unfold static_cast_uint32.
  destruct (z <? 0)%Z eqn:Hneg.
  - apply Z.ltb_lt in Hneg.
    replace (0 <=? z)%Z with false by (symmetry; apply Z.leb_gt; lia).
    reflexivity.
  - apply Z.ltb_ge in Hneg.
    replace (0 <=? z)%Z with true by (symmetry; apply Z.leb_le; lia).
    destruct (uint32_max <? z)%Z eqn:Hbig.
    + apply Z.ltb_lt in Hbig.
      replace (z <=? uint32_max)%Z with false
        by (symmetry; apply Z.leb_gt; lia).
      reflexivity.
    + apply Z.ltb_ge in Hbig.
      replace (z <=? uint32_max)%Z with true
        by (symmetry; apply Z.leb_le; lia).
      cbn [andb orb bind]. rewrite classify_obstacles_value.
      rewrite Z2Nat.id by assumption.
      destruct (z =? uint32_max)%Z eqn:Hmax.
      * apply Z.eqb_eq in Hmax.
        replace (z <? uint32_max)%Z with false
          by (symmetry; apply Z.ltb_ge; lia).
        cbn [orb andb].
        destruct (existsb as_dynamic obstacles); reflexivity.
      * apply Z.eqb_neq in Hmax.
        replace (z <? uint32_max)%Z with true
          by (symmetry; apply Z.ltb_lt; lia).
        reflexivity.
Qed.

(** The constructor in closed form. *)
Lemma TrajectoryCost_ctor_value :
  ctor
  = if Reqb interval 0 then Fail UndefinedCast
    else if ((steps <? 0) || (uint32_max <? steps))%Z then Fail UndefinedCast
    else if (steps =? uint32_max)%Z && existsb as_dynamic obstacles
         then Fail Diverges
         else Ok (TrajectoryCost.mk config reference_line is_change_lane_path
                    vehicle_param heuristic_speed_data init_sl_point
                    adc_sl_boundary (Z.to_nat steps)
                    (map Obstacle.PerceptionSLBoundary (filter as_static obstacles))
                    (map (obstacle_trajectory interval (Z.to_nat steps))
                       (filter as_dynamic obstacles))).
Proof.
  unfold TrajectoryCost_ctor.
  destruct (Reqb interval 0); [reflexivity|].
  apply ctor_from_steps_value.
Qed.

(** The same over the machine's quotient. *)
Lemma machine_ctor_value (arith : DoubleArith) :
  let steps := machine_time_steps arith ext config heuristic_speed_data in
  Machine.TrajectoryCost_ctor arith ext config reference_line
    is_change_lane_path obstacles vehicle_param heuristic_speed_data
    init_sl_point adc_sl_boundary
  = if Reqb interval 0 then Fail UndefinedCast
    else if ((steps <? 0) || (uint32_max <? steps))%Z then Fail UndefinedCast
    else if (steps =? uint32_max)%Z && existsb as_dynamic obstacles
         then Fail Diverges
         else Ok (TrajectoryCost.mk config reference_line is_change_lane_path
                    vehicle_param heuristic_speed_data init_sl_point
                    adc_sl_boundary (Z.to_nat steps)
                    (map Obstacle.PerceptionSLBoundary (filter as_static obstacles))
                    (map (obstacle_trajectory interval (Z.to_nat steps))
                       (filter as_dynamic obstacles))).
Proof.
  intros steps'. unfold Machine.TrajectoryCost_ctor.
  destruct (Reqb interval 0); [reflexivity|].
  apply ctor_from_steps_value.
Qed.

(** X1. What the constructor caches: the static cache holds the perceived
    SL boundaries of the obstacles that pass the filter and are static, a
    bicycle or a pedestrian; the dynamic cache holds one trajectory of
    expanded footprints for each other obstacle that passes the filter;
    both follow the order of the obstacle list.  The remaining members are
    the constructor's arguments. *)
Theorem TrajectoryCost_ctor_caches_by_filter (this : TrajectoryCost.t) :
  ctor = Ok this ->
  TrajectoryCost.static_obstacle_sl_boundaries_ this
  = map Obstacle.PerceptionSLBoundary (filter as_static obstacles)
  /\ TrajectoryCost.dynamic_obstacle_boxes_ this
     = map (obstacle_trajectory interval (TrajectoryCost.num_of_time_stamps_ this))
         (filter as_dynamic obstacles)
  /\ TrajectoryCost.config_ this = config
  /\ TrajectoryCost.reference_line_ this = reference_line
  /\ TrajectoryCost.is_change_lane_path_ this = is_change_lane_path
  /\ TrajectoryCost.vehicle_param_ this = vehicle_param
  /\ TrajectoryCost.heuristic_speed_data_ this = heuristic_speed_data
  /\ TrajectoryCost.init_sl_point_ this = init_sl_point
  /\ TrajectoryCost.adc_sl_boundary_ this = adc_sl_boundary.
Proof.
  rewrite TrajectoryCost_ctor_value.
  destruct (Reqb interval 0); [discriminate|].
  destruct ((steps <? 0) || (uint32_max <? steps))%Z; [discriminate|].
  destruct ((steps =? uint32_max)%Z && existsb as_dynamic obstacles);
    [discriminate|].
  intros H; injection H as <-. simpl. repeat split.
Qed.

(** X3. How the constructor fails.  It fails with an undefined cast
    exactly when the time interval is [0], so that the quotient is an
    infinity or NaN, or the floor of the quotient the machine computes is
    negative or above the largest [uint32_t]; it never leaves its inner
    loop exactly when that floor is the largest [uint32_t] and some
    obstacle is cached as dynamic; it fails in no other way. *)
Theorem TrajectoryCost_ctor_failures (arith : DoubleArith) :
  let floor := machine_time_steps arith ext config heuristic_speed_data in
  let constructed :=
    Machine.TrajectoryCost_ctor arith ext config reference_line
      is_change_lane_path obstacles vehicle_param heuristic_speed_data
      init_sl_point adc_sl_boundary in
  (constructed = Fail UndefinedCast
   <-> interval = 0 \/ (floor < 0 \/ uint32_max < floor)%Z)
  /\ (constructed = Fail Diverges
      <-> interval <> 0 /\ floor = uint32_max
          /\ existsb as_dynamic obstacles = true)
  /\ constructed <> Fail OutOfFuel
  /\ constructed <> Fail OutOfRange.
Proof.
  intros floor constructed. unfold constructed.
  rewrite machine_ctor_value. fold floor.
  destruct (Reqb interval 0) eqn:Hzero;
    [apply Reqb_true in Hzero|apply Reqb_false in Hzero].
  - intuition (try discriminate; try lia).
  - destruct (floor <? 0)%Z eqn:Hneg; cbn [orb];
      [apply Z.ltb_lt in Hneg|apply Z.ltb_ge in Hneg].
    + unfold uint32_max. intuition (try discriminate; try lia).
    + destruct (uint32_max <? floor)%Z eqn:Hbig;
        [apply Z.ltb_lt in Hbig|apply Z.ltb_ge in Hbig].
      * intuition (try discriminate; try lia).
      * destruct (floor =? uint32_max)%Z eqn:Hmax; cbn [andb];
          [apply Z.eqb_eq in Hmax|apply Z.eqb_neq in Hmax].
        -- destruct (existsb as_dynamic obstacles);
             intuition (try discriminate; try lia).
        -- intuition (try discriminate; try lia).
Qed.

End ConstructorOutcome.

(** ** Failures of the station loops *)

Section LoopFailures.

Variable ext : Externals.
Variable this : TrajectoryCost.t.
Variable curve : QuinticPolynomialCurve1d.t.
Variables start_s end_s : R.

Lemma path_cost_loop_fails_out_of_fuel (fuel : nat) :
  forall (curve_s : R) (cost : ComparableCost) (path_cost : R) (e : Failure),
    path_cost_loop ext this fuel curve start_s end_s curve_s cost path_cost
    = Fail e ->
    e = OutOfFuel.
Proof.
  induction fuel as [|fuel IH]; intros curve_s cost path_cost e H; simpl in H;
    destruct (Rltb curve_s (end_s - start_s)); try discriminate.
  - congruence.
  - apply IH in H. assumption.
Qed.

Lemma CalculatePathCost_fails_out_of_fuel (fuel : nat)
    (curr_level total_level : N) (e : Failure) :
  CalculatePathCost ext this fuel curve start_s end_s curr_level total_level
  = Fail e ->
  e = OutOfFuel.
Proof.
  unfold CalculatePathCost.
  destruct (path_cost_loop ext this fuel curve start_s end_s 0 cost_default 0)
    as [st|e'] eqn:Hloop; simpl; [discriminate|].
  intros H. apply path_cost_loop_fails_out_of_fuel in Hloop. congruence.
Qed.

Lemma static_cost_loop_fails_out_of_fuel (fuel : nat) :
  forall (curr_s : R) (obstacle_cost : ComparableCost) (e : Failure),
    static_cost_loop ext this fuel curve start_s end_s curr_s obstacle_cost
    = Fail e ->
    e = OutOfFuel.
Proof.
  induction fuel as [|fuel IH]; intros curr_s obstacle_cost e H; simpl in H;
    destruct (Rleb curr_s end_s); try discriminate.
  - congruence.
  - apply IH in H. assumption.
Qed.

Lemma CalculateStaticObstacleCost_fails_out_of_fuel (fuel : nat) (e : Failure) :
  CalculateStaticObstacleCost ext this fuel curve start_s end_s = Fail e ->
  e = OutOfFuel.
Proof.
  unfold CalculateStaticObstacleCost.
  destruct (static_cost_loop ext this fuel curve start_s end_s start_s cost_default)
    as [c|e'] eqn:Hloop; simpl; [discriminate|].
  intros H. apply static_cost_loop_fails_out_of_fuel in Hloop. congruence.
Qed.

End LoopFailures.

Section ConstructorUse.

Variable ext : Externals.
Variable config : DpPolyPathConfig.t.
Variable reference_line : ReferenceLine.t.
Variable is_change_lane_path : bool.
Variable vehicle_param : VehicleParam.t.
Variable heuristic_speed_data : SpeedData.t.
Variable init_sl_point : SLPoint.t.
Variable adc_sl_boundary : SLBoundary.t.

(** X2. The constructor sees the obstacles that pass its filter and no
    others: an obstacle that is to be ignored, has a stop decision, is
    virtual or lies laterally out of the ego's reach can be taken off the
    list without any change to the object built, or to the failure. *)
Theorem TrajectoryCost_ctor_drops_filtered_obstacles (obstacles : list Obstacle.t) :
  TrajectoryCost_ctor ext config reference_line is_change_lane_path obstacles
    vehicle_param heuristic_speed_data init_sl_point adc_sl_boundary
  = TrajectoryCost_ctor ext config reference_line is_change_lane_path
      (filter (obstacle_kept ext vehicle_param init_sl_point) obstacles)
      vehicle_param heuristic_speed_data init_sl_point adc_sl_boundary.
Proof.
  rewrite !TrajectoryCost_ctor_value.
  rewrite filter_kept_as_static, filter_kept_as_dynamic, existsb_kept_as_dynamic.
  reflexivity.
Qed.

Lemma constructed_trajectories_length (obstacles : list Obstacle.t)
    (this : TrajectoryCost.t) :
  TrajectoryCost_ctor ext config reference_line is_change_lane_path obstacles
    vehicle_param heuristic_speed_data init_sl_point adc_sl_boundary = Ok this ->
  TrajectoryCost.config_ this = config
  /\ Forall (fun tr => length tr = S (TrajectoryCost.num_of_time_stamps_ this))
       (TrajectoryCost.dynamic_obstacle_boxes_ this).
Proof.
  rewrite TrajectoryCost_ctor_value.
  destruct (Reqb _ 0); [discriminate|].
  destruct ((_ <? 0) || (_ <? _))%Z; [discriminate|].
  destruct ((_ =? _)%Z && _); [discriminate|].
  intros H; injection H as <-. simpl. split; [reflexivity|].
  apply Forall_forall. intros tr Htr. apply in_map_iff in Htr.
  destruct Htr as (ob & <- & _).
  unfold obstacle_trajectory. rewrite length_map, length_seq. reflexivity.
Qed.

(** X4. On an object the constructor has built, [Calculate] never throws:
    for every fuel it returns a cost or runs out of fuel in a station loop,
    and with a positive sample resolution it returns a cost as soon as the
    fuel covers the stations. *)
Theorem Calculate_on_constructed_object (obstacles : list Obstacle.t)
    (this : TrajectoryCost.t) (curve : QuinticPolynomialCurve1d.t)
    (start_s end_s : R) (curr_level total_level : N) :
  TrajectoryCost_ctor ext config reference_line is_change_lane_path obstacles
    vehicle_param heuristic_speed_data init_sl_point adc_sl_boundary = Ok this ->
  (forall fuel,
     (exists cost,
        Calculate ext this fuel curve start_s end_s curr_level total_level
        = Ok cost)
     \/ Calculate ext this fuel curve start_s end_s curr_level total_level
        = Fail OutOfFuel)
  /\ (0 < DpPolyPathConfig.path_resolution config ->
      exists n : nat,
        forall fuel, (n <= fuel)%nat ->
          exists cost,
            Calculate ext this fuel curve start_s end_s curr_level total_level
            = Ok cost).
Proof.
  intros Hctor.
  destruct (constructed_trajectories_length obstacles this Hctor) as [Hcfg Hlen].
  destruct (CalculateDynamicObstacleCost_in_range ext this curve start_s end_s Hlen)
    as [d Hd].
  split.
  - intros fuel. rewrite Calculate_unfold.
    destruct (CalculatePathCost ext this fuel curve start_s end_s curr_level
                total_level) as [p|e] eqn:Hp; simpl.
    + destruct (CalculateStaticObstacleCost ext this fuel curve start_s end_s)
        as [s|e] eqn:Hs; simpl.
      * rewrite Hd. simpl. left. eexists; reflexivity.
      * apply CalculateStaticObstacleCost_fails_out_of_fuel in Hs. subst e.
        right. reflexivity.
    + apply CalculatePathCost_fails_out_of_fuel in Hp. subst e.
      right. reflexivity.
  - intros Hr. rewrite <- Hcfg in Hr.
    destruct (three_costs_returned ext this curve start_s end_s
                curr_level total_level Hr Hlen) as [n Hn].
    exists n. intros fuel Hfuel.
    destruct (Hn fuel Hfuel) as (p & s & d' & Hp & Hs & Hd').
    rewrite Calculate_unfold, Hp, Hs, Hd'. simpl. eexists; reflexivity.
Qed.

End ConstructorUse.

(** ** The off-road check *)

Section OffRoad.

Variable ext : Externals.

(** [IsOffRoad] in terms of its two bounds and its two centers. *)
Lemma IsOffRoad_true_iff (this : TrajectoryCost.t) (ref_s l dl : R)
    (is_change_lane_path : bool) :
  IsOffRoad ext this ref_s l dl is_change_lane_path = true
  <-> 5 <= ref_s - SLPoint.s (TrajectoryCost.init_sl_point_ this)
      /\ (left_bound ext this ref_s < l + footprint_radius ext + 0.1 / 2
          \/ l - footprint_radius ext - 0.1 / 2 < right_bound ext this ref_s
          \/ left_bound ext this ref_s
             < front_center_y ext l dl + footprint_radius ext + 0.1 / 2
          \/ front_center_y ext l dl - footprint_radius ext - 0.1 / 2
             < right_bound ext this ref_s).
Proof.
  unfold IsOffRoad.
  fold (footprint_radius ext) (lane_widths this ref_s).
  fold (left_bound ext this ref_s) (right_bound ext this ref_s).
  fold (front_center_y ext l dl).
  cbn [Vec2d.y].
  destruct (Rltb (ref_s - SLPoint.s (TrajectoryCost.init_sl_point_ this)) 5)
    eqn:Hnear.
  - apply Rltb_true in Hnear. split; [discriminate|]. intros [H _]. lra.
  - apply Rltb_false in Hnear.
    destruct (Rgtb (l + footprint_radius ext + 0.1 / 2) (left_bound ext this ref_s)
              || Rltb (l - footprint_radius ext - 0.1 / 2)
                   (right_bound ext this ref_s)) eqn:Hrear.
    + apply orb_true_iff in Hrear. rewrite Rgtb_true, Rltb_true in Hrear.
      split; [intros _; split; [assumption|]|reflexivity].
      destruct Hrear; [left|right; left]; lra.
    + apply orb_false_iff in Hrear. rewrite Rgtb_false, Rltb_false in Hrear.
      destruct (Rgtb (front_center_y ext l dl + footprint_radius ext + 0.1 / 2)
                  (left_bound ext this ref_s)
                || Rltb (front_center_y ext l dl - footprint_radius ext - 0.1 / 2)
                     (right_bound ext this ref_s)) eqn:Hfront.
      * apply orb_true_iff in Hfront. rewrite Rgtb_true, Rltb_true in Hfront.
        split; [intros _; split; [assumption|]|reflexivity].
        destruct Hfront; [right; right; left|right; right; right]; lra.
      * apply orb_false_iff in Hfront. rewrite Rgtb_false, Rltb_false in Hfront.
        split; [discriminate|]. intros [_ H].
        destruct H as [H|[H|[H|H]]]; lra.
Qed.

Lemma left_bound_at_least (this : TrajectoryCost.t) (ref_s : R) :
  SLPoint.l (TrajectoryCost.init_sl_point_ this) + footprint_radius ext + 0.1
  <= left_bound ext this ref_s
  /\ fst (lane_widths this ref_s) <= left_bound ext this ref_s.
Proof. unfold left_bound. split; [apply Rmax_l|apply Rmax_r]. Qed.

Lemma right_bound_at_most (this : TrajectoryCost.t) (ref_s : R) :
  right_bound ext this ref_s
  <= SLPoint.l (TrajectoryCost.init_sl_point_ this) - footprint_radius ext - 0.1
  /\ right_bound ext this ref_s <= - snd (lane_widths this ref_s).
Proof. unfold right_bound. split; [apply Rmin_l|apply Rmin_r]. Qed.

(** X5. A wider lane never turns a sample off the road: with the same
    initial point, a sample that is off the road for lane widths at least
    as large on both sides is off the road for the smaller ones too. *)
Theorem IsOffRoad_wider_lane (this this' : TrajectoryCost.t)
    (ref_s l dl : R) (is_change_lane_path is_change_lane_path' : bool) :
  TrajectoryCost.init_sl_point_ this' = TrajectoryCost.init_sl_point_ this ->
  fst (lane_widths this ref_s) <= fst (lane_widths this' ref_s) ->
  snd (lane_widths this ref_s) <= snd (lane_widths this' ref_s) ->
  IsOffRoad ext this' ref_s l dl is_change_lane_path' = true ->
  IsOffRoad ext this ref_s l dl is_change_lane_path = true.
Proof.
  intros Hinit Hleft Hright H.
  apply IsOffRoad_true_iff in H. apply IsOffRoad_true_iff.
  rewrite Hinit in H. destruct H as [Hfar H]. split; [assumption|].
  assert (Hl : left_bound ext this ref_s <= left_bound ext this' ref_s).
  { unfold left_bound. rewrite Hinit.
    apply Rmax_lub; [apply Rmax_l|].
    eapply Rle_trans; [exact Hleft|apply Rmax_r]. }
  assert (Hr : right_bound ext this' ref_s <= right_bound ext this ref_s).
  { unfold right_bound. rewrite Hinit.
    apply Rmin_glb; [apply Rmin_l|].
    eapply Rle_trans; [apply Rmin_r|lra]. }
  destruct H as [H|[H|[H|H]]];
    [left|right; left|right; right; left|right; right; right]; lra.
Qed.

(** X6. Whatever the lane widths, also none at all, a sample within [0.05]
    of the ego's initial lateral offset and with zero slope is on the road
    when the vehicle's left and right edges are equally far from its
    center: the bounds are never tighter than the initial offset plus the
    radius and the buffer. *)
Theorem IsOffRoad_false_near_initial_offset (this : TrajectoryCost.t)
    (ref_s l : R) (is_change_lane_path : bool) :
  VehicleParam.left_edge_to_center (VehicleConfigHelper_vehicle_param ext)
  = VehicleParam.right_edge_to_center (VehicleConfigHelper_vehicle_param ext) ->
  SLPoint.l (TrajectoryCost.init_sl_point_ this) - 0.05 <= l ->
  l <= SLPoint.l (TrajectoryCost.init_sl_point_ this) + 0.05 ->
  IsOffRoad ext this ref_s l 0 is_change_lane_path = false.
Proof.
  intros Hsym Hlo Hhi.
  destruct (IsOffRoad ext this ref_s l 0 is_change_lane_path) eqn:H;
    [|reflexivity].
  apply IsOffRoad_true_iff in H. destruct H as [_ H].
  assert (Hfront : front_center_y ext l 0 = l).
  { unfold front_center_y. rewrite atan_0, Hsym. simpl.
    rewrite sin_0, cos_0. lra. }
  rewrite Hfront in H.
  destruct (left_bound_at_least this ref_s) as [Hl _].
  destruct (right_bound_at_most this ref_s) as [Hr _].
  destruct H as [H|[H|[H|H]]]; lra.
Qed.

End OffRoad.

Lemma ex_footprint_radius_nonneg : 0 <= footprint_radius ex_ext.
Proof. unfold footprint_radius. apply sqrt_pos. Qed.

Lemma IsOffRoad_wider_lane_witness :
  IsOffRoad ex_ext ex_this 10 100 0 false = true.
Proof.
  apply (IsOffRoad_wider_lane ex_ext ex_this
           (TrajectoryCost.mk ex_config
              (ReferenceLine.mk (fun _ => Some (3, 3))
                 (ReferenceLine.SLToXY ex_reference_line)
                 (ReferenceLine.GetReferencePoint ex_reference_line))
              true ex_vehicle_param ex_speed_data ex_init_sl_point
              ex_adc_sl_boundary 4 [] [])
           10 100 0 false true).
  - reflexivity.
  - simpl. lra.
  - simpl. lra.
  - apply IsOffRoad_true_iff. simpl. split; [lra|]. left.
    unfold left_bound, lane_widths. simpl.
    pose proof ex_footprint_radius_nonneg as Hr.
    apply Rmax_case; lra.
Defined.

Lemma IsOffRoad_false_near_initial_offset_witness :
  IsOffRoad ex_ext ex_this 10 0.03 0 true = false.
Proof.
  apply (IsOffRoad_false_near_initial_offset ex_ext ex_this 10 0.03 true).
  - reflexivity.
  - simpl. lra.
  - simpl. lra.
Defined.

(** ** The smoothness cost, further *)

Lemma Rsum_nonneg (xs : list R) : Forall (fun x => 0 <= x) xs -> 0 <= Rsum xs.
Proof.
  induction 1 as [|x xs Hx _ IH]; simpl; [lra|].
  fold (Rsum xs). lra.
Qed.

Section SoftMax.

Variable this : TrajectoryCost.t.

#[local] Abbreviation l0 :=
  (DpPolyPathConfig.path_l_cost_param_l0 (TrajectoryCost.config_ this)).
#[local] Abbreviation b :=
  (DpPolyPathConfig.path_l_cost_param_b (TrajectoryCost.config_ this)).
#[local] Abbreviation k :=
  (DpPolyPathConfig.path_l_cost_param_k (TrajectoryCost.config_ this)).

Lemma quasi_softmax_diff (e1 e2 : R) :
  0 < e1 -> 0 < e2 ->
  (b + e2) / (1 + e2) - (b + e1) / (1 + e1)
  = (e2 - e1) * (1 - b) / ((1 + e1) * (1 + e2)).
Proof. intros H1 H2. field. split; lra. Qed.

(** X11. The weight [quasi_softmax] of the lateral offset: with [b <= 1] it
    lies between [b] and [1]; at [l0] it is the mean of [b] and [1]; and
    with [k >= 0] it does not grow with its argument. *)
Theorem quasi_softmax_bounded_and_monotone :
  b <= 1 ->
  (forall x, b <= quasi_softmax this x <= 1)
  /\ quasi_softmax this l0 = (b + 1) / 2
  /\ (0 <= k ->
      forall x y, x <= y -> quasi_softmax this y <= quasi_softmax this x).
Proof.
  intros Hb. unfold quasi_softmax. split; [|split].
  - intros x. set (e := exp (- k * (x - l0))).
    assert (He : 0 < e) by apply exp_pos.
    split.
    + apply Rmult_le_reg_r with (1 + e); [lra|].
      unfold Rdiv. rewrite Rmult_assoc, Rinv_l by lra. nra.
    + apply Rmult_le_reg_r with (1 + e); [lra|].
      unfold Rdiv. rewrite Rmult_assoc, Rinv_l by lra. lra.
  - replace (- k * (l0 - l0)) with 0 by ring. rewrite exp_0. lra.
  - intros Hk x y Hxy.
    set (e1 := exp (- k * (y - l0))). set (e2 := exp (- k * (x - l0))).
    assert (H1 : 0 < e1) by apply exp_pos.
    assert (H2 : 0 < e2) by apply exp_pos.
    assert (He : e1 <= e2).
    { unfold e1, e2.
      destruct (Rle_lt_or_eq_dec (- k * (y - l0)) (- k * (x - l0))) as [Hlt|Heq];
        [nra|left; apply exp_increasing; assumption|rewrite Heq; lra]. }
    assert (Hd : 0 <= (b + e2) / (1 + e2) - (b + e1) / (1 + e1)).
    { rewrite quasi_softmax_diff by assumption.
      unfold Rdiv. apply Rmult_le_pos; [nra|].
      left. apply Rinv_0_lt_compat. nra. }
    lra.
Qed.

End SoftMax.

Lemma quasi_softmax_bounded_and_monotone_witness :
  quasi_softmax ex_this 1.5 = (0.4 + 1) / 2
  /\ quasi_softmax ex_this 3 <= quasi_softmax ex_this 1.
Proof.
  destruct (quasi_softmax_bounded_and_monotone ex_this) as (_ & Hmid & Hmono).
  - simpl. lra.
  - split.
    + exact Hmid.
    + apply Hmono; simpl; lra.
Defined.

Section PathCostMore.

Variable ext : Externals.
Variable this : TrajectoryCost.t.
Variable curve : QuinticPolynomialCurve1d.t.
Variables start_s end_s : R.

#[local] Abbreviation config := (TrajectoryCost.config_ this).
#[local] Abbreviation resolution := (DpPolyPathConfig.path_resolution config).

Lemma path_cost_loop_empty_range (fuel : nat) (cost : ComparableCost)
    (path_cost : R) :
  end_s <= start_s ->
  path_cost_loop ext this fuel curve start_s end_s 0 cost path_cost
  = Ok (cost, path_cost).
Proof.
  intros Hempty.
  destruct fuel; simpl;
    (replace (Rltb 0 (end_s - start_s)) with false
       by (symmetry; apply Rltb_false; lra)); reflexivity.
Qed.

(** X8. On an empty range, [end_s <= start_s], [CalculatePathCost] takes no
    sample and returns at once, with any fuel: the cost has no flag, no
    safety cost, and as smoothness cost the end-offset penalty at the
    terminal level and zero elsewhere. *)
Theorem CalculatePathCost_empty_range (fuel : nat) (curr_level total_level : N) :
  end_s <= start_s ->
  CalculatePathCost ext this fuel curve start_s end_s curr_level total_level
  = Ok (mkCost false false
          (if (curr_level =? total_level)%N
           then spec_end_l_term this curve start_s end_s else 0)
          0).
Proof.
  intros Hempty.
  rewrite CalculatePathCost_unfold, path_cost_loop_empty_range by assumption.
  simpl. unfold set_smoothness_cost. simpl.
  f_equal. f_equal. lra.
Qed.

Lemma path_cost_loop_never_leaves (fuel : nat) :
  resolution <= 0 ->
  forall (curve_s : R) (cost : ComparableCost) (path_cost : R),
    curve_s < end_s - start_s ->
    path_cost_loop ext this fuel curve start_s end_s curve_s cost path_cost
    = Fail OutOfFuel.
Proof.
  intros Hr. induction fuel as [|fuel IH]; intros curve_s cost path_cost Hlt;
    simpl; (replace (Rltb curve_s (end_s - start_s)) with true
              by (symmetry; apply Rltb_true; assumption)).
  - reflexivity.
  - apply IH. lra.
Qed.

(** X9. The sample resolution has to be positive: with a resolution that
    is zero or negative and a range that is not empty the loop of
    [CalculatePathCost] never leaves, whatever the fuel; the call returns
    for some fuel exactly when the resolution is positive or the range is
    empty. *)
Theorem CalculatePathCost_returns_iff (curr_level total_level : N) :
  (resolution <= 0 -> start_s < end_s ->
   forall fuel,
     CalculatePathCost ext this fuel curve start_s end_s curr_level total_level
     = Fail OutOfFuel)
  /\ ((exists fuel cost,
         CalculatePathCost ext this fuel curve start_s end_s
           curr_level total_level = Ok cost)
      <-> 0 < resolution \/ end_s <= start_s).
Proof.
  assert (Hdiv : resolution <= 0 -> start_s < end_s ->
                 forall fuel,
                   CalculatePathCost ext this fuel curve start_s end_s
                     curr_level total_level = Fail OutOfFuel).
  { intros Hr Hrange fuel. unfold CalculatePathCost.
    rewrite path_cost_loop_never_leaves by (try assumption; lra).
    reflexivity. }
  split; [exact Hdiv|]. split.
  - intros (fuel & cost & H).
    destruct (Rlt_le_dec 0 resolution) as [Hpos|Hneg]; [left; assumption|].
    destruct (Rle_lt_dec end_s start_s) as [Hempty|Hrange];
      [right; assumption|].
    rewrite (Hdiv Hneg Hrange fuel) in H. discriminate.
  - intros [Hpos|Hempty].
    + destruct (INR_archimed _ (end_s - start_s) Hpos) as [n Hn].
      destruct (CalculatePathCost_terminates ext this curve start_s end_s n n
                  curr_level total_level Hpos) as [cost Hcost]; [lra|lia|].
      exists n, cost. assumption.
    + exists 0%nat. eexists.
      rewrite CalculatePathCost_unfold, path_cost_loop_empty_range by assumption.
      reflexivity.
Qed.

Lemma spec_path_term_nonneg (curve_s : R) :
  0 <= DpPolyPathConfig.path_l_cost config ->
  0 <= DpPolyPathConfig.path_dl_cost config ->
  0 <= DpPolyPathConfig.path_ddl_cost config ->
  0 <= DpPolyPathConfig.path_l_cost_param_b config ->
  0 <= spec_path_term config curve curve_s.
Proof.
  intros Hl Hdl Hddl Hb. unfold spec_path_term, spec_quasi_softmax.
  set (l := Rabs (QuinticPolynomialCurve1d.Evaluate curve 0 curve_s)).
  set (dl := Rabs (QuinticPolynomialCurve1d.Evaluate curve 1 curve_s)).
  set (ddl := Rabs (QuinticPolynomialCurve1d.Evaluate curve 2 curve_s)).
  set (e := exp _).
  assert (He : 0 < e) by apply exp_pos.
  assert (Hq : 0 <= (DpPolyPathConfig.path_l_cost_param_b config + e) / (1 + e)).
  { unfold Rdiv. apply Rmult_le_pos; [lra|].
    left. apply Rinv_0_lt_compat. lra. }
  assert (H2 : forall x, 0 <= x ^ 2) by (intros x; simpl; nra).
  apply Rplus_le_le_0_compat; [apply Rplus_le_le_0_compat|].
  - apply Rmult_le_pos; [apply Rmult_le_pos|]; auto.
  - apply Rmult_le_pos; auto.
  - apply Rmult_le_pos; auto.
Qed.

End PathCostMore.

Lemma CalculatePathCost_empty_range_witness :
  CalculatePathCost ex_ext ex_this 0 ex_curve 3 2 1 1
  = Ok (mkCost false false (spec_end_l_term ex_this ex_curve 3 2) 0).
Proof.
  apply (CalculatePathCost_empty_range ex_ext ex_this ex_curve 3 2 0 1 1). lra.
Defined.

Lemma CalculatePathCost_returns_iff_witness :
  exists fuel cost, CalculatePathCost ex_ext ex_this fuel ex_curve 0 2 0 1 = Ok cost.
Proof.
  apply (proj2 (CalculatePathCost_returns_iff ex_ext ex_this ex_curve 0 2 0 1)).
  left. simpl. lra.
Defined.

(** ** The static obstacle cost, further *)

Lemma cost_add_default_r (c : ComparableCost) : cost_add c cost_default = c.
Proof.
  destruct c as [hc ob sm sf]; unfold cost_add, cost_default; simpl.
  rewrite !orb_false_r. f_equal; lra.
Qed.

Section StaticCostMore.

Variable ext : Externals.
Variable this : TrajectoryCost.t.
Variable curve : QuinticPolynomialCurve1d.t.
Variables start_s end_s : R.

#[local] Abbreviation config := (TrajectoryCost.config_ this).
#[local] Abbreviation resolution := (DpPolyPathConfig.path_resolution config).

Lemma static_obstacles_fold_safety (curr_s curr_l : R)
    (boundaries : list SLBoundary.t) :
  forall obstacle_cost : ComparableCost,
    safety_cost
      (fold_left
         (fun acc obs_sl_boundary =>
            cost_add acc (GetCostFromObsSL ext this curr_s curr_l obs_sl_boundary))
         boundaries obstacle_cost)
    = safety_cost obstacle_cost
      + Rsum (map (fun obs_sl_boundary =>
                     safety_cost
                       (GetCostFromObsSL ext this curr_s curr_l obs_sl_boundary))
                boundaries).
Proof.
  induction boundaries as [|b rest IH]; intros obstacle_cost; simpl.
  - lra.
  - rewrite IH. simpl.
    fold (Rsum (map (fun obs_sl_boundary : SLBoundary.t =>
                       safety_cost
                         (GetCostFromObsSL ext this curr_s curr_l obs_sl_boundary))
                  rest)).
    lra.
Qed.

(** The loop of [CalculateStaticObstacleCost], when it returns: the
    stations of the indices [k .. n - 1] are not beyond [end_s], the one of
    index [n] is, and the safety cost has grown by their penalties. *)
Lemma static_cost_loop_sums (fuel : nat) :
  forall (k : nat) (obstacle_cost cost' : ComparableCost),
    static_cost_loop ext this fuel curve start_s end_s
      (static_station this start_s k) obstacle_cost = Ok cost' ->
    exists n : nat,
      (k <= n)%nat
      /\ (forall j, (k <= j < n)%nat -> static_station this start_s j <= end_s)
      /\ end_s < static_station this start_s n
      /\ safety_cost cost'
         = safety_cost obstacle_cost
           + Rsum (map (static_penalty_at ext this curve start_s) (seq k (n - k))).
Proof.
  induction fuel as [|fuel IH]; intros k obstacle_cost cost' H; simpl in H;
    destruct (Rleb (static_station this start_s k) end_s) eqn:Hle;
    try discriminate.
  - injection H as <-. exists k. apply Rleb_false in Hle.
    rewrite Nat.sub_diag. simpl. repeat split; try lia; lra.
  - replace (static_station this start_s k + resolution)
      with (static_station this start_s (S k)) in H
      by (unfold static_station; rewrite S_INR; ring).
    apply IH in H. destruct H as (n & Hkn & Hst & Hstop & Hsf).
    exists n. rewrite (seq_split_first k n) by lia.
    apply Rleb_true in Hle.
    repeat split; try lia; try assumption.
    + intros j Hj. destruct (Nat.eq_dec j k) as [->|Hne]; [assumption|].
      apply Hst. lia.
    + rewrite Hsf. unfold static_obstacles_at.
      rewrite static_obstacles_fold_safety, map_cons, Rsum_cons.
      unfold static_penalty_at at 2. lra.
  - injection H as <-. exists k. apply Rleb_false in Hle.
    rewrite Nat.sub_diag. simpl. repeat split; try lia; lra.
Qed.

Lemma CalculateStaticObstacleCost_sums (fuel : nat) (cost : ComparableCost) :
  CalculateStaticObstacleCost ext this fuel curve start_s end_s = Ok cost ->
  exists n : nat,
    (forall j, (j < n)%nat -> static_station this start_s j <= end_s)
    /\ end_s < static_station this start_s n
    /\ safety_cost cost
       = Rsum (map (static_penalty_at ext this curve start_s) (seq 0 n))
         * resolution.
Proof.
  unfold CalculateStaticObstacleCost.
  destruct (static_cost_loop ext this fuel curve start_s end_s start_s cost_default)
    as [cost'|e] eqn:Hloop; simpl; [|discriminate].
  intros H; injection H as <-.
  replace start_s with (static_station this start_s 0) in Hloop at 2
    by (unfold static_station; simpl; ring).
  apply static_cost_loop_sums in Hloop.
  destruct Hloop as (n & _ & Hst & Hstop & Hsf).
  rewrite Nat.sub_0_r in Hsf.
  exists n. repeat split; try assumption.
  - intros j Hj. apply Hst. lia.
  - simpl. rewrite Hsf. simpl. lra.
Qed.

Lemma static_cost_loop_never_leaves (fuel : nat) :
  resolution <= 0 ->
  forall (curr_s : R) (obstacle_cost : ComparableCost),
    curr_s <= end_s ->
    static_cost_loop ext this fuel curve start_s end_s curr_s obstacle_cost
    = Fail OutOfFuel.
Proof.
  intros Hr. induction fuel as [|fuel IH]; intros curr_s obstacle_cost Hle;
    simpl; (replace (Rleb curr_s end_s) with true
              by (symmetry; apply Rleb_true; assumption)).
  - reflexivity.
  - apply IH. lra.
Qed.

Lemma CalculateStaticObstacleCost_empty (fuel : nat) :
  end_s < start_s ->
  CalculateStaticObstacleCost ext this fuel curve start_s end_s = Ok cost_default.
Proof.
  intros Hempty. unfold CalculateStaticObstacleCost.
  assert (Hloop : static_cost_loop ext this fuel curve start_s end_s start_s
                    cost_default = Ok cost_default).
  { destruct fuel; simpl;
      (replace (Rleb start_s end_s) with false
         by (symmetry; apply Rleb_false; lra)); reflexivity. }
  rewrite Hloop. simpl. unfold set_safety_cost, cost_default. simpl.
  f_equal. f_equal. lra.
Qed.

(** X13. The edges of [CalculateStaticObstacleCost].  With [end_s] below
    [start_s] it takes no sample and returns the zero cost at once.  A
    range of one point, [start_s = end_s], is sampled once, unlike in
    [CalculatePathCost]: so with a resolution that is zero or negative
    and [start_s <= end_s] the loop never leaves, and the call returns for
    some fuel exactly when the resolution is positive or [end_s] is below
    [start_s]. *)
Theorem CalculateStaticObstacleCost_returns_iff :
  (end_s < start_s ->
   forall fuel,
     CalculateStaticObstacleCost ext this fuel curve start_s end_s
     = Ok cost_default)
  /\ (resolution <= 0 -> start_s <= end_s ->
      forall fuel,
        CalculateStaticObstacleCost ext this fuel curve start_s end_s
        = Fail OutOfFuel)
  /\ ((exists fuel cost,
         CalculateStaticObstacleCost ext this fuel curve start_s end_s = Ok cost)
      <-> 0 < resolution \/ end_s < start_s).
Proof.
  assert (Hdiv : resolution <= 0 -> start_s <= end_s ->
                 forall fuel,
                   CalculateStaticObstacleCost ext this fuel curve start_s end_s
                   = Fail OutOfFuel).
  { intros Hr Hrange fuel. unfold CalculateStaticObstacleCost.
    rewrite static_cost_loop_never_leaves by assumption. reflexivity. }
  split; [|split; [exact Hdiv|split]].
  - intros Hempty fuel. apply CalculateStaticObstacleCost_empty. assumption.
  - intros (fuel & cost & H).
    destruct (Rlt_le_dec 0 resolution) as [Hpos|Hneg]; [left; assumption|].
    destruct (Rlt_le_dec end_s start_s) as [Hempty|Hrange];
      [right; assumption|].
    rewrite (Hdiv Hneg Hrange fuel) in H. discriminate.
  - intros [Hpos|Hempty].
    + destruct (INR_archimed _ (end_s - start_s) Hpos) as [n Hn].
      destruct (CalculateStaticObstacleCost_terminates ext this curve start_s
                  end_s n n Hpos) as [cost Hcost]; [lra|lia|].
      exists n, cost. assumption.
    + exists 0%nat, cost_default.
      apply CalculateStaticObstacleCost_empty. assumption.
Qed.

Lemma GetCostFromObsSL_not_one_sided (adc_s adc_l : R)
    (obs_sl_boundary : SLBoundary.t) :
  one_sided obs_sl_boundary = false ->
  GetCostFromObsSL ext this adc_s adc_l obs_sl_boundary = cost_default.
Proof.
  unfold one_sided, GetCostFromObsSL. intros H.
  apply negb_false_iff in H. rewrite H. reflexivity.
Qed.

Lemma static_fold_one_sided (curr_s curr_l : R) (boundaries : list SLBoundary.t) :
  forall obstacle_cost : ComparableCost,
    fold_left
      (fun acc obs_sl_boundary =>
         cost_add acc (GetCostFromObsSL ext this curr_s curr_l obs_sl_boundary))
      (filter one_sided boundaries) obstacle_cost
    = fold_left
        (fun acc obs_sl_boundary =>
           cost_add acc (GetCostFromObsSL ext this curr_s curr_l obs_sl_boundary))
        boundaries obstacle_cost.
Proof.
  induction boundaries as [|b rest IH]; intros obstacle_cost; simpl;
    [reflexivity|].
  destruct (one_sided b) eqn:Hb; simpl.
  - apply IH.
  - rewrite (GetCostFromObsSL_not_one_sided curr_s curr_l b Hb),
      cost_add_default_r.
    apply IH.
Qed.

(** X14. The boundaries that straddle the centerline can be taken out of
    the static cache without any change to what
    [CalculateStaticObstacleCost] returns, for every curve, range and
    fuel. *)
Theorem CalculateStaticObstacleCost_drops_straddling_boundaries (fuel : nat) :
  CalculateStaticObstacleCost ext
    (with_static_cache this
       (filter one_sided (TrajectoryCost.static_obstacle_sl_boundaries_ this)))
    fuel curve start_s end_s
  = CalculateStaticObstacleCost ext this fuel curve start_s end_s.
Proof.
  unfold CalculateStaticObstacleCost.
  assert (Hloop : forall curr_s obstacle_cost,
             static_cost_loop ext
               (with_static_cache this
                  (filter one_sided
                     (TrajectoryCost.static_obstacle_sl_boundaries_ this)))
               fuel curve start_s end_s curr_s obstacle_cost
             = static_cost_loop ext this fuel curve start_s end_s curr_s
                 obstacle_cost).
  { induction fuel as [|fuel' IH]; intros curr_s obstacle_cost; simpl;
      [reflexivity|].
    destruct (Rleb curr_s end_s); [|reflexivity].
    rewrite IH. unfold static_obstacles_at.
    cbn [with_static_cache TrajectoryCost.static_obstacle_sl_boundaries_].
    change (fun (acc : ComparableCost) (obs_sl_boundary : SLBoundary.t) =>
              cost_add acc
                (GetCostFromObsSL ext
                   (with_static_cache this
                      (filter one_sided
                         (TrajectoryCost.static_obstacle_sl_boundaries_ this)))
                   curr_s
                   (QuinticPolynomialCurve1d.Evaluate curve 0 (curr_s - start_s))
                   obs_sl_boundary))
      with (fun (acc : ComparableCost) (obs_sl_boundary : SLBoundary.t) =>
              cost_add acc
                (GetCostFromObsSL ext this curr_s
                   (QuinticPolynomialCurve1d.Evaluate curve 0 (curr_s - start_s))
                   obs_sl_boundary)).
    rewrite static_fold_one_sided. reflexivity. }
  rewrite Hloop. reflexivity.
Qed.

End StaticCostMore.

Lemma CalculateStaticObstacleCost_returns_iff_witness :
  CalculateStaticObstacleCost ex_ext ex_this 0 ex_curve 3 2 = Ok cost_default.
Proof.
  apply (proj1 (CalculateStaticObstacleCost_returns_iff ex_ext ex_this ex_curve 3 2)).
  lra.
Defined.

(** ** The penalty against one static boundary, further *)

Section ObsSLMore.

Variable ext : Externals.
Variable this : TrajectoryCost.t.

#[local] Abbreviation vehicle_param := (VehicleConfigHelper_vehicle_param ext).
#[local] Abbreviation config := (TrajectoryCost.config_ this).

(** [GetCostFromObsSL] after its two early exits: the flag is the overlap,
    the penalty depends on the lateral clearance and on whether the
    obstacle is behind. *)
Lemma GetCostFromObsSL_past_exits (adc_s adc_l : R)
    (obs_sl_boundary : SLBoundary.t) :
  let adc_end_s := adc_s - VehicleParam.back_edge_to_center vehicle_param in
  let adc_left_l := adc_l + VehicleParam.left_edge_to_center vehicle_param in
  let adc_right_l := adc_l - VehicleParam.right_edge_to_center vehicle_param in
  let no_overlap :=
    (Rltb (front_edge_s ext adc_s) (SLBoundary.start_s obs_sl_boundary)
     || Rgtb adc_end_s (SLBoundary.end_s obs_sl_boundary))
    || (Rltb (adc_left_l + 0.1) (SLBoundary.start_l obs_sl_boundary)
        || Rgtb (adc_right_l - 0.1) (SLBoundary.end_l obs_sl_boundary)) in
  Rleb (SLBoundary.start_l obs_sl_boundary * SLBoundary.end_l obs_sl_boundary) 0
  = false ->
  Rltb (adc_left_l + FLAGS_lateral_ignore_buffer ext)
       (SLBoundary.start_l obs_sl_boundary)
  || Rgtb (adc_right_l - FLAGS_lateral_ignore_buffer ext)
          (SLBoundary.end_l obs_sl_boundary) = false ->
  GetCostFromObsSL ext this adc_s adc_l obs_sl_boundary
  = mkCost (negb no_overlap) false 0
      (if Rgtb (front_edge_s ext adc_s) (SLBoundary.end_s obs_sl_boundary)
       then 0
       else if Rltb (lateral_clearance ext adc_l obs_sl_boundary) kSafeDistance
            then 0 + DpPolyPathConfig.obstacle_collision_cost config
                     * Sigmoid ext
                         (DpPolyPathConfig.obstacle_collision_distance config
                          - lateral_clearance ext adc_l obs_sl_boundary)
            else 0).
Proof.
  intros adc_end_s adc_left_l adc_right_l no_overlap Hdeg Hfar.
  subst adc_end_s adc_left_l adc_right_l no_overlap.
  unfold GetCostFromObsSL, lateral_clearance, front_edge_s in *.
  cbv zeta. rewrite Hdeg, Hfar.
  repeat match goal with
         | |- context [if ?b then _ else _] => destruct b
         end; reflexivity.
Qed.

Lemma GetCostFromObsSL_collision_past_exits (adc_s adc_l : R)
    (obs_sl_boundary : SLBoundary.t) :
  has_collision (GetCostFromObsSL ext this adc_s adc_l obs_sl_boundary) = true ->
  Rleb (SLBoundary.start_l obs_sl_boundary * SLBoundary.end_l obs_sl_boundary) 0
  = false
  /\ Rltb (adc_l + VehicleParam.left_edge_to_center vehicle_param
           + FLAGS_lateral_ignore_buffer ext)
          (SLBoundary.start_l obs_sl_boundary)
     || Rgtb (adc_l - VehicleParam.right_edge_to_center vehicle_param
              - FLAGS_lateral_ignore_buffer ext)
             (SLBoundary.end_l obs_sl_boundary) = false.
Proof.
  unfold GetCostFromObsSL.
  destruct (Rleb _ 0); [discriminate|].
  destruct (Rltb _ _ || Rgtb _ _); [discriminate|].
  intros _. split; reflexivity.
Qed.

(** X15. A collision is never free of penalty unless the obstacle is
    behind: when [GetCostFromObsSL] sets [has_collision] and the
    obstacle's [end_s] is not below the ego's front edge, the lateral
    clearance is at most [0.1], below the safe distance [0.6], and the
    safety cost is the full sigmoid term of that clearance. *)
Theorem GetCostFromObsSL_collision_is_penalised (adc_s adc_l : R)
    (obs_sl_boundary : SLBoundary.t) :
  has_collision (GetCostFromObsSL ext this adc_s adc_l obs_sl_boundary) = true ->
  front_edge_s ext adc_s <= SLBoundary.end_s obs_sl_boundary ->
  lateral_clearance ext adc_l obs_sl_boundary <= 0.1
  /\ safety_cost (GetCostFromObsSL ext this adc_s adc_l obs_sl_boundary)
     = DpPolyPathConfig.obstacle_collision_cost config
       * Sigmoid ext
           (DpPolyPathConfig.obstacle_collision_distance config
            - lateral_clearance ext adc_l obs_sl_boundary).
Proof.
  intros Hcol Hahead.
  destruct (GetCostFromObsSL_collision_past_exits _ _ _ Hcol) as [Hdeg Hfar].
  rewrite (GetCostFromObsSL_past_exits adc_s adc_l obs_sl_boundary Hdeg Hfar)
    in Hcol |- *.
  cbn [has_collision safety_cost] in Hcol |- *.
  apply negb_true_iff in Hcol.
  apply orb_false_iff in Hcol. destruct Hcol as [_ Hlat].
  apply orb_false_iff in Hlat. destruct Hlat as [Hleft Hright].
  apply Rltb_false in Hleft. apply Rgtb_false in Hright.
  assert (Hclear : lateral_clearance ext adc_l obs_sl_boundary <= 0.1).
  { unfold lateral_clearance. apply Rmax_lub; lra. }
  split; [assumption|].
  replace (Rgtb (front_edge_s ext adc_s) (SLBoundary.end_s obs_sl_boundary))
    with false by (symmetry; apply Rgtb_false; assumption).
  replace (Rltb (lateral_clearance ext adc_l obs_sl_boundary) kSafeDistance)
    with true by (symmetry; apply Rltb_true; unfold kSafeDistance; lra).
  lra.
Qed.

Lemma GetCostFromObsSL_safety_value (adc_s adc_l : R)
    (obs_sl_boundary : SLBoundary.t) :
  safety_cost (GetCostFromObsSL ext this adc_s adc_l obs_sl_boundary)
  = if Rleb (SLBoundary.start_l obs_sl_boundary
             * SLBoundary.end_l obs_sl_boundary) 0
       || (Rltb (adc_l + VehicleParam.left_edge_to_center vehicle_param
                 + FLAGS_lateral_ignore_buffer ext)
                (SLBoundary.start_l obs_sl_boundary)
           || Rgtb (adc_l - VehicleParam.right_edge_to_center vehicle_param
                    - FLAGS_lateral_ignore_buffer ext)
                   (SLBoundary.end_l obs_sl_boundary))
       || Rgtb (front_edge_s ext adc_s) (SLBoundary.end_s obs_sl_boundary)
       || negb (Rltb (lateral_clearance ext adc_l obs_sl_boundary) kSafeDistance)
    then 0
    else DpPolyPathConfig.obstacle_collision_cost config
         * Sigmoid ext
             (DpPolyPathConfig.obstacle_collision_distance config
              - lateral_clearance ext adc_l obs_sl_boundary).
Proof.
  destruct (Rleb (SLBoundary.start_l obs_sl_boundary
                  * SLBoundary.end_l obs_sl_boundary) 0) eqn:Hdeg.
  - unfold GetCostFromObsSL. rewrite Hdeg. reflexivity.
  - destruct (Rltb (adc_l + VehicleParam.left_edge_to_center vehicle_param
                    + FLAGS_lateral_ignore_buffer ext)
                   (SLBoundary.start_l obs_sl_boundary)
              || Rgtb (adc_l - VehicleParam.right_edge_to_center vehicle_param
                       - FLAGS_lateral_ignore_buffer ext)
                      (SLBoundary.end_l obs_sl_boundary)) eqn:Hfar.
    + unfold GetCostFromObsSL. rewrite Hdeg, Hfar. reflexivity.
    + rewrite (GetCostFromObsSL_past_exits adc_s adc_l obs_sl_boundary Hdeg Hfar).
      cbn [safety_cost orb].
      destruct (Rgtb (front_edge_s ext adc_s) _); [reflexivity|].
      destruct (Rltb (lateral_clearance ext adc_l obs_sl_boundary) kSafeDistance);
        cbn [negb orb]; [lra|reflexivity].
Qed.

(** X16. The penalty of a static boundary ignores the longitudinal gap: for
    two samples at the same lateral offset against boundaries with the
    same lateral extent, neither boundary behind the ego's front edge, the
    safety cost is the same, however far ahead either boundary lies. *)
Theorem GetCostFromObsSL_penalty_ignores_longitudinal_gap
    (adc_s adc_s' adc_l : R) (obs_sl_boundary obs_sl_boundary' : SLBoundary.t) :
  SLBoundary.start_l obs_sl_boundary' = SLBoundary.start_l obs_sl_boundary ->
  SLBoundary.end_l obs_sl_boundary' = SLBoundary.end_l obs_sl_boundary ->
  front_edge_s ext adc_s <= SLBoundary.end_s obs_sl_boundary ->
  front_edge_s ext adc_s' <= SLBoundary.end_s obs_sl_boundary' ->
  safety_cost (GetCostFromObsSL ext this adc_s' adc_l obs_sl_boundary')
  = safety_cost (GetCostFromObsSL ext this adc_s adc_l obs_sl_boundary).
Proof.
  intros Hstart Hend Hahead Hahead'.
  rewrite !GetCostFromObsSL_safety_value.
  unfold lateral_clearance. rewrite Hstart, Hend.
  replace (Rgtb (front_edge_s ext adc_s) (SLBoundary.end_s obs_sl_boundary))
    with false by (symmetry; apply Rgtb_false; assumption).
  replace (Rgtb (front_edge_s ext adc_s') (SLBoundary.end_s obs_sl_boundary'))
    with false by (symmetry; apply Rgtb_false; assumption).
  reflexivity.
Qed.

End ObsSLMore.

Lemma GetCostFromObsSL_collision_is_penalised_witness :
  lateral_clearance ex_ext 0.5 (SLBoundary.mk 6 12 1 2) <= 0.1
  /\ safety_cost (GetCostFromObsSL ex_ext ex_this 5 0.5 (SLBoundary.mk 6 12 1 2))
     = 30000 * logistic (0.5 - lateral_clearance ex_ext 0.5 (SLBoundary.mk 6 12 1 2)).
Proof.
  apply (GetCostFromObsSL_collision_is_penalised ex_ext ex_this 5 0.5
           (SLBoundary.mk 6 12 1 2)).
  - unfold GetCostFromObsSL. simpl. rdec. simpl.
    destruct (Rltb _ kSafeDistance); reflexivity.
  - unfold front_edge_s. simpl. lra.
Defined.

Lemma GetCostFromObsSL_penalty_ignores_longitudinal_gap_witness :
  safety_cost (GetCostFromObsSL ex_ext ex_this 0 0 (SLBoundary.mk 1000 1002 1 2))
  = safety_cost (GetCostFromObsSL ex_ext ex_this 0 0 (SLBoundary.mk 6 8 1 2)).
Proof.
  apply (GetCostFromObsSL_penalty_ignores_longitudinal_gap ex_ext ex_this 0 0 0
           (SLBoundary.mk 6 8 1 2) (SLBoundary.mk 1000 1002 1 2));
    try reflexivity; unfold front_edge_s; simpl; lra.
Defined.

(** ** The penalty between two boxes, further *)

Lemma logistic_pos (x : R) : 0 < logistic x.
Proof.
  unfold logistic. pose proof (exp_pos (- x)) as He.
  unfold Rdiv. rewrite Rmult_1_l. apply Rinv_0_lt_compat. lra.
Qed.

Lemma logistic_monotone (x y : R) : x <= y -> logistic x <= logistic y.
Proof.
  intros Hxy. unfold logistic, Rdiv. rewrite !Rmult_1_l.
  pose proof (exp_pos (- x)) as Hx. pose proof (exp_pos (- y)) as Hy.
  apply Rinv_le_contravar; [lra|].
  destruct (Rle_lt_or_eq_dec (- y) (- x)) as [Hlt|Heq]; [lra| |].
  - apply exp_increasing in Hlt. lra.
  - rewrite Heq. lra.
Qed.

Section ObsBoxesMore.

Variable ext : Externals.
Variable this : TrajectoryCost.t.

#[local] Abbreviation config := (TrajectoryCost.config_ this).

Lemma GetCostBetweenObsBoxes_safety_nonneg (ego_box obstacle_box : Box2d.t) :
  (forall x, 0 <= Sigmoid ext x) ->
  0 <= DpPolyPathConfig.obstacle_collision_cost config ->
  0 <= safety_cost (GetCostBetweenObsBoxes ext this ego_box obstacle_box).
Proof.
  intros Hsig Hcw. unfold GetCostBetweenObsBoxes.
  destruct (Rgtb _ _); simpl; [lra|].
  pose proof (Hsig (DpPolyPathConfig.obstacle_collision_distance config
                    - DistanceTo ext obstacle_box ego_box)) as H1.
  pose proof (Hsig (DpPolyPathConfig.obstacle_risk_distance config
                    - DistanceTo ext obstacle_box ego_box)) as H2.
  nra.
Qed.

(** X17. Closer never costs less: with a [Sigmoid] that is non-negative
    and does not decrease, and a non-negative collision weight, a pair of
    boxes at a smaller distance gets a safety cost at least as large as a
    pair at a larger one, the cut to zero beyond the ignore distance
    included. *)
Theorem GetCostBetweenObsBoxes_closer_costs_more
    (ego_box obstacle_box ego_box' obstacle_box' : Box2d.t) :
  (forall x, 0 <= Sigmoid ext x) ->
  (forall x y, x <= y -> Sigmoid ext x <= Sigmoid ext y) ->
  0 <= DpPolyPathConfig.obstacle_collision_cost config ->
  DistanceTo ext obstacle_box ego_box <= DistanceTo ext obstacle_box' ego_box' ->
  safety_cost (GetCostBetweenObsBoxes ext this ego_box' obstacle_box')
  <= safety_cost (GetCostBetweenObsBoxes ext this ego_box obstacle_box).
Proof.
  intros Hsig Hmono Hcw Hd.
  pose proof (GetCostBetweenObsBoxes_safety_nonneg ego_box obstacle_box Hsig Hcw)
    as Hnonneg.
  unfold GetCostBetweenObsBoxes in *.
  destruct (Rgtb (DistanceTo ext obstacle_box' ego_box')
              (DpPolyPathConfig.obstacle_ignore_distance config)) eqn:Hfar';
    [exact Hnonneg|].
  apply Rgtb_false in Hfar'.
  replace (Rgtb (DistanceTo ext obstacle_box ego_box)
             (DpPolyPathConfig.obstacle_ignore_distance config))
    with false by (symmetry; apply Rgtb_false; lra).
  simpl.
  pose proof (Hmono (DpPolyPathConfig.obstacle_collision_distance config
                     - DistanceTo ext obstacle_box' ego_box')
                (DpPolyPathConfig.obstacle_collision_distance config
                 - DistanceTo ext obstacle_box ego_box) ltac:(lra)) as H1.
  pose proof (Hmono (DpPolyPathConfig.obstacle_risk_distance config
                     - DistanceTo ext obstacle_box' ego_box')
                (DpPolyPathConfig.obstacle_risk_distance config
                 - DistanceTo ext obstacle_box ego_box) ltac:(lra)) as H2.
  nra.
Qed.

End ObsBoxesMore.

Lemma GetCostBetweenObsBoxes_closer_costs_more_witness :
  safety_cost
    (GetCostBetweenObsBoxes ex_ext ex_this (Box2d.mk (Vec2d.mk 0 0) 0 5 2) (ex_box 1))
  <= safety_cost
       (GetCostBetweenObsBoxes ex_ext ex_this (Box2d.mk (Vec2d.mk 0 0) 0 5 2)
          (ex_box 0)).
Proof.
  apply (GetCostBetweenObsBoxes_closer_costs_more ex_ext ex_this).
  - intros x. left. apply logistic_pos.
  - apply logistic_monotone.
  - simpl. lra.
  - simpl. rewrite !Rabs_right by lra. lra.
Defined.

(** ** The dynamic obstacle cost, further *)

Section DynamicCostMore.

Variable ext : Externals.
Variable this : TrajectoryCost.t.
Variable curve : QuinticPolynomialCurve1d.t.
Variables start_s end_s : R.

#[local] Abbreviation config := (TrajectoryCost.config_ this).
#[local] Abbreviation interval := (DpPolyPathConfig.eval_time_interval config).
#[local] Abbreviation num := (TrajectoryCost.num_of_time_stamps_ this).
#[local] Abbreviation cache := (TrajectoryCost.dynamic_obstacle_boxes_ this).







Lemma dynamic_obstacles_at_same_entries (ego_box : Box2d.t) (index : nat)
    (trajectories trajectories' : list (list Box2d.t)) :
  map (fun tr => nth_error tr index) trajectories'
  = map (fun tr => nth_error tr index) trajectories ->
  forall obstacle_cost : ComparableCost,
    dynamic_obstacles_at ext this ego_box index trajectories' obstacle_cost
    = dynamic_obstacles_at ext this ego_box index trajectories obstacle_cost.
Proof.
  revert trajectories'.
  induction trajectories as [|tr rest IH]; intros [|tr' rest'] H obstacle_cost;
    simpl in H; try discriminate; [reflexivity|].
  injection H as Hhead Htail. simpl. rewrite Hhead.
  destruct (nth_error tr index); [|reflexivity].
  apply IH. assumption.
Qed.

End DynamicCostMore.

(** ** What the cost functions read of the object *)

Section ObjectFrame.

Variable ext : Externals.
Variable this : TrajectoryCost.t.
Variable curve : QuinticPolynomialCurve1d.t.
Variables start_s end_s : R.

#[local] Abbreviation config := (TrajectoryCost.config_ this).
#[local] Abbreviation interval := (DpPolyPathConfig.eval_time_interval config).
#[local] Abbreviation num := (TrajectoryCost.num_of_time_stamps_ this).
#[local] Abbreviation cache := (TrajectoryCost.dynamic_obstacle_boxes_ this).

Lemma dynamic_obstacles_at_other_cache (trajectories' : list (list Box2d.t))
    (ego_box : Box2d.t) (index : nat) (trajectories : list (list Box2d.t)) :
  forall obstacle_cost : ComparableCost,
    dynamic_obstacles_at ext (with_dynamic_cache this trajectories') ego_box index
      trajectories obstacle_cost
    = dynamic_obstacles_at ext this ego_box index trajectories obstacle_cost.
Proof.
  induction trajectories as [|tr rest IH]; intros obstacle_cost; simpl;
    [reflexivity|].
  destruct (nth_error tr index); [|reflexivity].
  rewrite IH. reflexivity.
Qed.

Lemma dynamic_cost_loop_other_cache (trajectories' : list (list Box2d.t))
    (n : nat) :
  (forall i, (i < num)%nat ->
     map (fun tr => nth_error tr i) trajectories'
     = map (fun tr => nth_error tr i) cache) ->
  forall (index : nat) (time_stamp : R) (obstacle_cost : ComparableCost),
    (index + n <= num)%nat ->
    dynamic_cost_loop ext (with_dynamic_cache this trajectories') n curve
      start_s end_s index time_stamp obstacle_cost
    = dynamic_cost_loop ext this n curve start_s end_s index time_stamp
        obstacle_cost.
Proof.
  intros Hsame.
  induction n as [|n IH]; intros index time_stamp obstacle_cost Hle; simpl;
    [reflexivity|].
  change (ref_s_at (with_dynamic_cache this trajectories') time_stamp)
    with (ref_s_at this time_stamp).
  destruct (Rltb (ref_s_at this time_stamp) start_s); [apply IH; lia|].
  destruct (Rgtb (ref_s_at this time_stamp) end_s); [reflexivity|].
  cbn [with_dynamic_cache TrajectoryCost.dynamic_obstacle_boxes_].
  rewrite dynamic_obstacles_at_other_cache.
  change (ego_box_at ext (with_dynamic_cache this trajectories') curve start_s
            (ref_s_at this time_stamp))
    with (ego_box_at ext this curve start_s (ref_s_at this time_stamp)).
  rewrite (dynamic_obstacles_at_same_entries ext this
             (ego_box_at ext this curve start_s (ref_s_at this time_stamp))
             index cache trajectories') by (apply Hsame; lia).
  destruct (dynamic_obstacles_at ext this _ index cache obstacle_cost);
    cbn [bind]; [|reflexivity].
  apply IH. lia.
Qed.

(** X24. Of every cached trajectory [CalculateDynamicObstacleCost] reads
    the entries of the indices below [num_time_steps] only: the footprint
    of index [num_time_steps], the last one the constructor stores, is
    never read.  Two caches whose trajectories agree, one by one, on the
    entries of every index below [num_time_steps] give the same result,
    failure included. *)
Theorem CalculateDynamicObstacleCost_reads_below_num_time_steps
    (trajectories' : list (list Box2d.t)) :
  (forall i, (i < num)%nat ->
     map (fun tr => nth_error tr i) trajectories'
     = map (fun tr => nth_error tr i) cache) ->
  CalculateDynamicObstacleCost ext (with_dynamic_cache this trajectories')
    curve start_s end_s
  = CalculateDynamicObstacleCost ext this curve start_s end_s.
Proof.
  intros Hsame.
  pose proof (dynamic_cost_loop_other_cache trajectories' num Hsame 0%nat 0
                cost_default ltac:(lia)) as Hloop.
  unfold CalculateDynamicObstacleCost.
  cbn [with_dynamic_cache TrajectoryCost.dynamic_obstacle_boxes_
         TrajectoryCost.num_of_time_stamps_ TrajectoryCost.config_].
  assert (Hzero : num = 0%nat ->
            forall that : TrajectoryCost.t,
              (obstacle_cost <-
                 dynamic_cost_loop ext that num curve start_s end_s 0 0
                   cost_default ;;
               Ok (set_safety_cost obstacle_cost
                     (safety_cost obstacle_cost * (interval * kDynamicObsWeight))))
              = Ok cost_default).
  { intros Hnum that. rewrite Hnum. simpl.
    unfold set_safety_cost, cost_default. simpl. f_equal. f_equal. lra. }
  destruct trajectories' as [|tr' rest'], cache as [|tr rest] eqn:Hcache.
  - reflexivity.
  - destruct (Nat.eq_dec num 0) as [Hnum|Hnum].
    + symmetry. apply Hzero. assumption.
    + specialize (Hsame 0%nat ltac:(lia)). discriminate.
  - destruct (Nat.eq_dec num 0) as [Hnum|Hnum].
    + apply Hzero. assumption.
    + specialize (Hsame 0%nat ltac:(lia)). discriminate.
  - rewrite Hloop. reflexivity.
Qed.

Lemma path_cost_loop_frame (is_change_lane_path : bool)
    (adc_sl_boundary : SLBoundary.t) (fuel : nat) :
  forall (curve_s : R) (cost : ComparableCost) (path_cost : R),
    path_cost_loop ext
      (with_lane_change_and_boundary this is_change_lane_path adc_sl_boundary)
      fuel curve start_s end_s curve_s cost path_cost
    = path_cost_loop ext this fuel curve start_s end_s curve_s cost path_cost.
Proof.
  induction fuel as [|fuel IH]; intros curve_s cost path_cost; simpl;
    [reflexivity|].
  destruct (Rltb curve_s (end_s - start_s)); [|reflexivity].
  rewrite IH. reflexivity.
Qed.

Lemma static_cost_loop_frame (is_change_lane_path : bool)
    (adc_sl_boundary : SLBoundary.t) (fuel : nat) :
  forall (curr_s : R) (obstacle_cost : ComparableCost),
    static_cost_loop ext
      (with_lane_change_and_boundary this is_change_lane_path adc_sl_boundary)
      fuel curve start_s end_s curr_s obstacle_cost
    = static_cost_loop ext this fuel curve start_s end_s curr_s obstacle_cost.
Proof.
  induction fuel as [|fuel IH]; intros curr_s obstacle_cost; simpl;
    [reflexivity|].
  destruct (Rleb curr_s end_s); [|reflexivity].
  rewrite IH. reflexivity.
Qed.

Lemma dynamic_obstacles_at_frame (is_change_lane_path : bool)
    (adc_sl_boundary : SLBoundary.t) (ego_box : Box2d.t) (index : nat)
    (trajectories : list (list Box2d.t)) :
  forall obstacle_cost : ComparableCost,
    dynamic_obstacles_at ext
      (with_lane_change_and_boundary this is_change_lane_path adc_sl_boundary)
      ego_box index trajectories obstacle_cost
    = dynamic_obstacles_at ext this ego_box index trajectories obstacle_cost.
Proof.
  induction trajectories as [|tr rest IH]; intros obstacle_cost; simpl;
    [reflexivity|].
  destruct (nth_error tr index); [|reflexivity].
  rewrite IH. reflexivity.
Qed.

Lemma dynamic_cost_loop_frame (is_change_lane_path : bool)
    (adc_sl_boundary : SLBoundary.t) (n : nat) :
  forall (index : nat) (time_stamp : R) (obstacle_cost : ComparableCost),
    dynamic_cost_loop ext
      (with_lane_change_and_boundary this is_change_lane_path adc_sl_boundary)
      n curve start_s end_s index time_stamp obstacle_cost
    = dynamic_cost_loop ext this n curve start_s end_s index time_stamp
        obstacle_cost.
Proof.
  induction n as [|n IH]; intros index time_stamp obstacle_cost; simpl;
    [reflexivity|].
  change (ref_s_at (with_lane_change_and_boundary this is_change_lane_path
                      adc_sl_boundary) time_stamp)
    with (ref_s_at this time_stamp).
  destruct (Rltb (ref_s_at this time_stamp) start_s); [apply IH|].
  destruct (Rgtb (ref_s_at this time_stamp) end_s); [reflexivity|].
  cbn [with_lane_change_and_boundary TrajectoryCost.dynamic_obstacle_boxes_].
  rewrite dynamic_obstacles_at_frame.
  change (ego_box_at ext (with_lane_change_and_boundary this is_change_lane_path
                            adc_sl_boundary) curve start_s
            (ref_s_at this time_stamp))
    with (ego_box_at ext this curve start_s (ref_s_at this time_stamp)).
  destruct (dynamic_obstacles_at ext this _ index cache obstacle_cost);
    cbn [bind]; [|reflexivity].
  apply IH.
Qed.

(** X21. The lane-change flag and the ego's SL boundary handed to the
    constructor have no effect on any cost: [Calculate] returns the same,
    failure included, on an object that differs in these two members
    only.  [IsOffRoad] takes the flag and does not read it. *)
Theorem Calculate_ignores_lane_change_and_adc_boundary
    (is_change_lane_path : bool) (adc_sl_boundary : SLBoundary.t)
    (fuel : nat) (curr_level total_level : N) :
  Calculate ext
    (with_lane_change_and_boundary this is_change_lane_path adc_sl_boundary)
    fuel curve start_s end_s curr_level total_level
  = Calculate ext this fuel curve start_s end_s curr_level total_level.
Proof.
  unfold Calculate, CalculatePathCost, CalculateStaticObstacleCost,
    CalculateDynamicObstacleCost.
  rewrite path_cost_loop_frame, static_cost_loop_frame.
  cbn [with_lane_change_and_boundary TrajectoryCost.dynamic_obstacle_boxes_
         TrajectoryCost.num_of_time_stamps_].
  rewrite dynamic_cost_loop_frame. reflexivity.
Qed.

Lemma static_cost_loop_empty_cache (fuel : nat) :
  TrajectoryCost.static_obstacle_sl_boundaries_ this = [] ->
  forall (curr_s : R) (obstacle_cost cost' : ComparableCost),
    static_cost_loop ext this fuel curve start_s end_s curr_s obstacle_cost
    = Ok cost' ->
    cost' = obstacle_cost.
Proof.
  intros Hempty.
  induction fuel as [|fuel IH]; intros curr_s obstacle_cost cost' H; simpl in H;
    destruct (Rleb curr_s end_s); try discriminate; try congruence.
  apply IH in H. unfold static_obstacles_at in H. rewrite Hempty in H.
  exact H.
Qed.

(** X22. With both caches empty the obstacles cost nothing: [Calculate]
    returns the cost of [CalculatePathCost] unchanged, provided the
    station loop of [CalculateStaticObstacleCost], which still runs,
    comes to its end within the fuel. *)
Theorem Calculate_without_cached_obstacles (fuel : nat)
    (curr_level total_level : N) :
  TrajectoryCost.static_obstacle_sl_boundaries_ this = [] ->
  TrajectoryCost.dynamic_obstacle_boxes_ this = [] ->
  Calculate ext this fuel curve start_s end_s curr_level total_level
  = (path_cost <-
       CalculatePathCost ext this fuel curve start_s end_s curr_level total_level ;;
     _ <- CalculateStaticObstacleCost ext this fuel curve start_s end_s ;;
     Ok path_cost).
Proof.
  intros Hstatic Hdynamic. rewrite Calculate_unfold.
  destruct (CalculatePathCost ext this fuel curve start_s end_s curr_level
              total_level) as [p|e]; cbn [bind]; [|reflexivity].
  unfold CalculateStaticObstacleCost, CalculateDynamicObstacleCost.
  rewrite Hdynamic.
  destruct (static_cost_loop ext this fuel curve start_s end_s start_s cost_default)
    as [s|e] eqn:Hloop; cbn [bind]; [|reflexivity].
  apply (static_cost_loop_empty_cache fuel Hstatic) in Hloop. subst s.
  destruct p as [hc ob sm sf]. unfold cost_add, set_safety_cost, cost_default.
  simpl. rewrite !orb_false_r. f_equal. f_equal; lra.
Qed.

Lemma GetCostFromObsSL_safety_nonneg (adc_s adc_l : R)
    (obs_sl_boundary : SLBoundary.t) :
  (forall x, 0 <= Sigmoid ext x) ->
  0 <= DpPolyPathConfig.obstacle_collision_cost config ->
  0 <= safety_cost (GetCostFromObsSL ext this adc_s adc_l obs_sl_boundary).
Proof.
  intros Hsig Hcw. rewrite GetCostFromObsSL_safety_value.
  destruct (_ || _); [lra|].
  apply Rmult_le_pos; [assumption|apply Hsig].
Qed.

(** X23. With a non-negative [Sigmoid], a non-negative collision weight
    and a non-negative time interval, the [safety_cost] that [Calculate]
    returns is never negative, whatever the caches hold. *)
Theorem Calculate_safety_nonneg (fuel : nat) (curr_level total_level : N)
    (cost : ComparableCost) :
  (forall x, 0 <= Sigmoid ext x) ->
  0 <= DpPolyPathConfig.obstacle_collision_cost config ->
  0 <= interval ->
  Calculate ext this fuel curve start_s end_s curr_level total_level = Ok cost ->
  0 <= safety_cost cost.
Proof.
  intros Hsig Hcw Hint H. rewrite Calculate_unfold in H.
  destruct (CalculatePathCost ext this fuel curve start_s end_s curr_level
              total_level) as [p|e] eqn:Hp; cbn [bind] in H; [|discriminate].
  destruct (CalculateStaticObstacleCost ext this fuel curve start_s end_s)
    as [s|e] eqn:Hs; cbn [bind] in H; [|discriminate].
  destruct (CalculateDynamicObstacleCost ext this curve start_s end_s)
    as [d|e] eqn:Hd; cbn [bind] in H; [|discriminate].
  injection H as <-. simpl.
  destruct (CalculatePathCost_returns _ _ _ _ _ _ _ _ _ Hp)
    as (_ & _ & _ & _ & Hpsafe & _).
  destruct (CalculateStaticObstacleCost_sums _ _ _ _ _ _ _ Hs)
    as (n & Hbelow & Hstop & Hssafe).
  destruct (CalculateDynamicObstacleCost_returns _ _ _ _ _ _ Hd)
    as (Hdsafe & _).
  assert (Hstatic : 0 <= safety_cost s).
  { rewrite Hssafe.
    assert (Hsum : 0 <= Rsum (map (static_penalty_at ext this curve start_s)
                                (seq 0 n))).
    { apply Rsum_nonneg. apply Forall_forall. intros x Hx.
      apply in_map_iff in Hx. destruct Hx as (j & <- & _).
      unfold static_penalty_at. apply Rsum_nonneg. apply Forall_forall.
      intros y Hy. apply in_map_iff in Hy. destruct Hy as (b & <- & _).
      apply GetCostFromObsSL_safety_nonneg; assumption. }
    destruct n as [|n]; [simpl; lra|].
    apply Rmult_le_pos; [assumption|].
    specialize (Hbelow 0%nat ltac:(lia)). unfold static_station in *.
    simpl INR in Hbelow.
    assert (Hn : 0 < INR (S n)) by (apply lt_0_INR; lia).
    nra. }
  assert (Hdynamic : 0 <= safety_cost d).
  { rewrite Hdsafe. unfold spec_dynamic_safety_cost, kDynamicObsWeight.
    apply Rmult_le_pos; [|lra].
    apply Rsum_nonneg. apply Forall_forall. intros x Hx.
    apply in_map_iff in Hx. destruct Hx as (i & <- & _).
    unfold spec_step_penalty, penalties_at.
    apply Rsum_nonneg. apply Forall_forall. intros y Hy.
    apply in_map_iff in Hy. destruct Hy as (tr & <- & _).
    destruct (nth_error tr i); [|lra].
    apply GetCostBetweenObsBoxes_safety_nonneg; assumption. }
  lra.
Qed.

End ObjectFrame.

(** ** The scenario run through these properties *)

Lemma TrajectoryCost_ctor_caches_by_filter_witness :
  TrajectoryCost.static_obstacle_sl_boundaries_ ex_this
  = map Obstacle.PerceptionSLBoundary
      (filter (kept_as_static ex_ext ex_vehicle_param ex_init_sl_point)
         ex_obstacles)
  /\ TrajectoryCost.dynamic_obstacle_boxes_ ex_this
     = map (obstacle_trajectory 0.5 4)
         (filter (kept_as_dynamic ex_ext ex_vehicle_param ex_init_sl_point)
            ex_obstacles).
Proof.
  destruct (TrajectoryCost_ctor_caches_by_filter ex_ext ex_config
              ex_reference_line false ex_obstacles ex_vehicle_param
              ex_speed_data ex_init_sl_point ex_adc_sl_boundary ex_this
              ex_this_constructed) as (Hs & Hd & _).
  split; assumption.
Defined.

Lemma ex_backwards_steps :
  time_steps_floor ex_ext ex_config_backwards ex_speed_data = (-4)%Z.
Proof.
  unfold time_steps_floor. apply Zfloor_eq. simpl.
  unfold Rmin. destruct (Rle_dec 2 5); lra.
Qed.

Lemma TrajectoryCost_ctor_failures_witness :
  Machine.TrajectoryCost_ctor exact_arith ex_ext ex_config_no_interval
    ex_reference_line false ex_obstacles ex_vehicle_param ex_speed_data
    ex_init_sl_point ex_adc_sl_boundary
  = Fail UndefinedCast
  /\ Machine.TrajectoryCost_ctor exact_arith ex_ext ex_config_backwards
       ex_reference_line false ex_obstacles ex_vehicle_param ex_speed_data
       ex_init_sl_point ex_adc_sl_boundary
     = Fail UndefinedCast.
Proof.
  split.
  - apply (proj1 (TrajectoryCost_ctor_failures ex_ext ex_config_no_interval
                    ex_reference_line false ex_obstacles ex_vehicle_param
                    ex_speed_data ex_init_sl_point ex_adc_sl_boundary
                    exact_arith)).
    left. reflexivity.
  - apply (proj1 (TrajectoryCost_ctor_failures ex_ext ex_config_backwards
                    ex_reference_line false ex_obstacles ex_vehicle_param
                    ex_speed_data ex_init_sl_point ex_adc_sl_boundary
                    exact_arith)).
    right. left.
    change (machine_time_steps exact_arith ex_ext ex_config_backwards
              ex_speed_data)
      with (time_steps_floor ex_ext ex_config_backwards ex_speed_data).
    rewrite ex_backwards_steps. lia.
Defined.

Lemma Calculate_on_constructed_object_witness :
  exists n : nat,
    forall fuel, (n <= fuel)%nat ->
      exists cost, Calculate ex_ext ex_this fuel ex_curve 0 2 1 1 = Ok cost.
Proof.
  apply (proj2 (Calculate_on_constructed_object ex_ext ex_config
                  ex_reference_line false ex_vehicle_param ex_speed_data
                  ex_init_sl_point ex_adc_sl_boundary ex_obstacles ex_this
                  ex_curve 0 2 1 1 ex_this_constructed)).
  simpl. lra.
Defined.






Lemma CalculateDynamicObstacleCost_reads_below_num_time_steps_witness :
  CalculateDynamicObstacleCost ex_ext
    (with_dynamic_cache ex_this [[ex_box 0; ex_box 1; ex_box 2; ex_box 3]])
    ex_curve 0 2
  = CalculateDynamicObstacleCost ex_ext ex_this ex_curve 0 2.
Proof.
  apply (CalculateDynamicObstacleCost_reads_below_num_time_steps ex_ext ex_this
           ex_curve 0 2 [[ex_box 0; ex_box 1; ex_box 2; ex_box 3]]).
  intros i Hi. simpl in Hi.
  destruct i as [|[|[|[|i]]]]; [reflexivity|reflexivity|reflexivity|reflexivity|lia].
Defined.

Lemma Calculate_without_cached_obstacles_witness :
  Calculate ex_ext ex_this_alone 3 ex_curve 0 2 0 1
  = (path_cost <- CalculatePathCost ex_ext ex_this_alone 3 ex_curve 0 2 0 1 ;;
     _ <- CalculateStaticObstacleCost ex_ext ex_this_alone 3 ex_curve 0 2 ;;
     Ok path_cost).
Proof.
  apply (Calculate_without_cached_obstacles ex_ext ex_this_alone ex_curve 0 2
           3 0 1); reflexivity.
Defined.

Lemma Calculate_safety_nonneg_witness :
  exists (fuel : nat) (cost : ComparableCost),
    Calculate ex_ext ex_this fuel ex_curve 0 2 1 1 = Ok cost
    /\ 0 <= safety_cost cost.
Proof.
  destruct (three_costs_returned ex_ext ex_this ex_curve 0 2 1 1
              (proj1 ex_well_formed) (proj2 ex_well_formed)) as [n Hn].
  destruct (Hn n (le_n n)) as (p & s & d & Hp & Hs & Hd).
  assert (Hcalc : Calculate ex_ext ex_this n ex_curve 0 2 1 1
                  = Ok (cost_add (cost_add p s) d))
    by (rewrite Calculate_unfold, Hp, Hs, Hd; reflexivity).
  exists n, (cost_add (cost_add p s) d). split; [assumption|].
  apply (Calculate_safety_nonneg ex_ext ex_this ex_curve 0 2 n 1 1 _).
  - intros x. left. apply logistic_pos.
  - simpl. lra.
  - simpl. lra.
  - exact Hcalc.
Defined.

(** ** The horizon of the cached trajectories *)



(** ** What the costs read of the reference line and of the curve *)

Section RunsCompared.

Variable ext : Externals.
Variable this : TrajectoryCost.t.
Variables start_s end_s : R.

#[local] Abbreviation config := (TrajectoryCost.config_ this).
#[local] Abbreviation resolution := (DpPolyPathConfig.path_resolution config).

Lemma path_cost_loop_other_reference_line (reference_line : ReferenceLine.t)
    (curve : QuinticPolynomialCurve1d.t) (fuel : nat) :
  forall (curve_s : R) (cost cost2 : ComparableCost) (path_cost : R),
    has_collision cost = has_collision cost2 ->
    safety_cost cost = safety_cost cost2 ->
    result_map (fun st => (has_collision (fst st), safety_cost (fst st), snd st))
      (path_cost_loop ext (with_reference_line this reference_line) fuel curve
         start_s end_s curve_s cost path_cost)
    = result_map (fun st => (has_collision (fst st), safety_cost (fst st), snd st))
        (path_cost_loop ext this fuel curve start_s end_s curve_s cost2 path_cost).
Proof.
  induction fuel as [|fuel IH]; intros curve_s cost cost2 path_cost Hc Hs; simpl;
    destruct (Rltb curve_s (end_s - start_s)); simpl;
    try reflexivity; try (rewrite Hc, Hs; reflexivity).
  apply IH.
  - destruct (IsOffRoad ext (with_reference_line this reference_line) _ _ _ _),
      (IsOffRoad ext this _ _ _ _); simpl; assumption.
  - destruct (IsOffRoad ext (with_reference_line this reference_line) _ _ _ _),
      (IsOffRoad ext this _ _ _ _); simpl; assumption.
Qed.

(** X25. Being off the road never stops the scan and never changes a
    cost: with another reference line, so with any other lane widths,
    [CalculatePathCost] returns under the same fuel, with the same
    [smoothness_cost], [safety_cost] and [has_collision]; the reference
    line shows in [out_of_boundary] alone. *)
Theorem CalculatePathCost_reference_line_only_in_flag
    (reference_line : ReferenceLine.t) (curve : QuinticPolynomialCurve1d.t)
    (fuel : nat) (curr_level total_level : N) :
  result_map
    (fun cost => (has_collision cost, smoothness_cost cost, safety_cost cost))
    (CalculatePathCost ext (with_reference_line this reference_line) fuel curve
       start_s end_s curr_level total_level)
  = result_map
      (fun cost => (has_collision cost, smoothness_cost cost, safety_cost cost))
      (CalculatePathCost ext this fuel curve start_s end_s curr_level total_level).
Proof.
  unfold CalculatePathCost.
  pose proof (path_cost_loop_other_reference_line reference_line curve fuel 0
                cost_default cost_default 0 eq_refl eq_refl) as H.
  destruct (path_cost_loop ext (with_reference_line this reference_line) fuel
              curve start_s end_s 0 cost_default 0) as [[c pc]|e];
    destruct (path_cost_loop ext this fuel curve start_s end_s 0 cost_default 0)
      as [[c2 pc2]|e2]; simpl in H; try discriminate.
  - injection H as Hc Hs Hpc. simpl. rewrite Hc, Hs, Hpc. reflexivity.
  - simpl. congruence.
Qed.

Variables curve curve' : QuinticPolynomialCurve1d.t.
Hypothesis resolution_nonneg : 0 <= resolution.
Hypothesis range_ordered : start_s <= end_s.
Hypothesis agree : curves_agree_on (end_s - start_s) curve curve'.

Lemma path_cost_loop_same_on_segment (fuel : nat) :
  forall (curve_s : R) (cost : ComparableCost) (path_cost : R),
    0 <= curve_s ->
    path_cost_loop ext this fuel curve' start_s end_s curve_s cost path_cost
    = path_cost_loop ext this fuel curve start_s end_s curve_s cost path_cost.
Proof.
  induction fuel as [|fuel IH]; intros curve_s cost path_cost Hpos; simpl;
    [reflexivity|].
  destruct (Rltb curve_s (end_s - start_s)) eqn:Hlt; [|reflexivity].
  apply Rltb_true in Hlt.
  rewrite !(agree _ curve_s) by lra.
  apply IH. lra.
Qed.

Lemma static_cost_loop_same_on_segment (fuel : nat) :
  forall (curr_s : R) (obstacle_cost : ComparableCost),
    start_s <= curr_s ->
    static_cost_loop ext this fuel curve' start_s end_s curr_s obstacle_cost
    = static_cost_loop ext this fuel curve start_s end_s curr_s obstacle_cost.
Proof.
  induction fuel as [|fuel IH]; intros curr_s obstacle_cost Hpos; simpl;
    [reflexivity|].
  destruct (Rleb curr_s end_s) eqn:Hle; [|reflexivity].
  apply Rleb_true in Hle.
  rewrite (agree _ (curr_s - start_s)) by lra.
  apply IH. lra.
Qed.

Lemma dynamic_cost_loop_same_on_segment (n : nat) :
  forall (index : nat) (time_stamp : R) (obstacle_cost : ComparableCost),
    dynamic_cost_loop ext this n curve' start_s end_s index time_stamp
      obstacle_cost
    = dynamic_cost_loop ext this n curve start_s end_s index time_stamp
        obstacle_cost.
Proof.
  induction n as [|n IH]; intros index time_stamp obstacle_cost; simpl;
    [reflexivity|].
  destruct (Rltb (ref_s_at this time_stamp) start_s) eqn:Hskip; [apply IH|].
  destruct (Rgtb (ref_s_at this time_stamp) end_s) eqn:Hstop; [reflexivity|].
  apply Rltb_false in Hskip. apply Rgtb_false in Hstop.
  assert (Hbox : ego_box_at ext this curve' start_s (ref_s_at this time_stamp)
                 = ego_box_at ext this curve start_s (ref_s_at this time_stamp)).
  { unfold ego_box_at.
    rewrite !(agree _ (ref_s_at this time_stamp - start_s)) by lra.
    reflexivity. }
  rewrite Hbox.
  destruct (dynamic_obstacles_at ext this _ index _ obstacle_cost);
    cbn [bind]; [|reflexivity].
  apply IH.
Qed.

(** X27. [Calculate] reads the curve on its segment only: with
    [start_s <= end_s] and a sample resolution that is not negative, two
    curves that agree on [[0, end_s - start_s]] get the same result,
    failure included, whatever they are elsewhere. *)
Theorem Calculate_reads_curve_on_segment (fuel : nat)
    (curr_level total_level : N) :
  Calculate ext this fuel curve' start_s end_s curr_level total_level
  = Calculate ext this fuel curve start_s end_s curr_level total_level.
Proof.
  unfold Calculate, CalculatePathCost, CalculateStaticObstacleCost,
    CalculateDynamicObstacleCost.
  rewrite path_cost_loop_same_on_segment by lra.
  rewrite static_cost_loop_same_on_segment by lra.
  rewrite dynamic_cost_loop_same_on_segment.
  rewrite (agree 0%nat (end_s - start_s)) by lra.
  reflexivity.
Qed.

End RunsCompared.

Lemma ex_curves_agree : curves_agree_on (2 - 0) ex_curve ex_curve_beyond.
Proof.
  intros order param Hparam. simpl.
  rewrite !Rmax_left by lra. lra.
Qed.

Lemma Calculate_reads_curve_on_segment_witness :
  Calculate ex_ext ex_this 3 ex_curve_beyond 0 2 1 1
  = Calculate ex_ext ex_this 3 ex_curve 0 2 1 1.
Proof.
  apply (Calculate_reads_curve_on_segment ex_ext ex_this 0 2 ex_curve
           ex_curve_beyond).
  - simpl. lra.
  - lra.
  - exact ex_curves_agree.
Defined.

(** * The station loops over the machine's arithmetic *)

Lemma counter_after_shift (arith : DoubleArith) (step from : R) (k : nat) :
  counter_after arith step (double_add arith from step) k
  = counter_after arith step from (S k).
Proof.
  induction k as [|k IH]; simpl; [reflexivity|].
  rewrite IH. reflexivity.
Qed.

(** With the operations of the field the counter is at [from + k * step]. *)
Lemma counter_after_exact (step from : R) (k : nat) :
  counter_after exact_arith step from k = from + INR k * step.
Proof.
  induction k as [|k IH].
  - simpl. ring.
  - cbn [counter_after]. rewrite IH, S_INR. simpl. ring.
Qed.

(** A counter that gains at least [delta] with every round it makes while
    it stays below a bound does not stay: [stay] is the condition of the
    loop. *)
Lemma counter_after_leaves (arith : DoubleArith) (step delta from bound : R)
    (stay : R -> Prop) :
  0 < delta ->
  (forall c, stay c \/ ~ stay c) ->
  (forall c, stay c -> c <= bound) ->
  (forall c, from <= c -> stay c -> c + delta <= double_add arith c step) ->
  exists n : nat, ~ stay (counter_after arith step from n).
Proof.
  intros Hdelta Hdec Hbound Hgain.
  assert (Hrun : forall n,
             (exists j, ~ stay (counter_after arith step from j))
             \/ from + INR n * delta <= counter_after arith step from n).
  { induction n as [|n [Hleft|Hright]].
    - right. simpl. lra.
    - left. exact Hleft.
    - destruct (Hdec (counter_after arith step from n)) as [Hstay|Hout];
        [|left; exists n; exact Hout].
      right. cbn [counter_after]. rewrite S_INR.
      assert (Hn : 0 <= INR n) by apply pos_INR.
      assert (Hfrom : from <= counter_after arith step from n) by nra.
      specialize (Hgain _ Hfrom Hstay). lra. }
  destruct (INR_archimed delta (bound - from) Hdelta) as [n Hn].
  destruct (Hrun n) as [Hleft|Hright]; [exact Hleft|].
  exists n. intros Hstay. apply Hbound in Hstay. lra.
Qed.

Lemma map_seq_shift {A : Type} (f : nat -> A) (n : nat) :
  map f (seq 1 n) = map (fun j => f (S j)) (seq 0 n).
Proof. rewrite <- seq_shift, map_map. reflexivity. Qed.

(** The first index at which a sequence leaves a range is one index. *)
Lemma first_index_unique (below : nat -> Prop) (n n' : nat) :
  (forall j, (j < n)%nat -> below j) -> ~ below n ->
  (forall j, (j < n')%nat -> below j) -> ~ below n' ->
  n = n'.
Proof.
  intros Hb Hs Hb' Hs'.
  destruct (Nat.lt_trichotomy n n') as [H|[H|H]]; [|assumption|].
  - exfalso. apply Hs. apply Hb'. assumption.
  - exfalso. apply Hs'. apply Hb. assumption.
Qed.

Section MachineLoops.

Variable arith : DoubleArith.
Variable ext : Externals.
Variable this : TrajectoryCost.t.
Variable curve : QuinticPolynomialCurve1d.t.
Variables start_s end_s : R.

#[local] Abbreviation config := (TrajectoryCost.config_ this).
#[local] Abbreviation resolution := (DpPolyPathConfig.path_resolution config).
#[local] Abbreviation range := (path_range arith start_s end_s).

(** The loop of [CalculatePathCost], when it returns from the counter
    [curve_s]: it has visited the counter's values below the range, one
    after the other, added their penalties and left the object and the
    other fields of the cost alone. *)
Lemma machine_path_cost_loop_returns (fuel : nat) :
  forall (curve_s : R) (cost : ComparableCost) (path_cost : R) st,
    Machine.path_cost_loop arith ext fuel curve start_s end_s curve_s cost
      path_cost this = Ok st ->
    exists n : nat,
      (forall j, (j < n)%nat -> counter_after arith resolution curve_s j < range)
      /\ range <= counter_after arith resolution curve_s n
      /\ snd (fst st)
         = path_cost
           + Rsum (map (fun j =>
                          spec_path_term config curve
                            (counter_after arith resolution curve_s j))
                     (seq 0 n))
      /\ has_collision (fst (fst st)) = has_collision cost
      /\ smoothness_cost (fst (fst st)) = smoothness_cost cost
      /\ safety_cost (fst (fst st)) = safety_cost cost.
Proof.
  unfold path_range.
  induction fuel as [|fuel IH]; intros curve_s cost path_cost st H;
    simpl in H;
    destruct (Rltb curve_s (double_sub arith end_s start_s)) eqn:Hlt;
    try discriminate.
  - injection H as <-. exists 0%nat. apply Rltb_false in Hlt. simpl.
    repeat split; try lia; try lra.
  - rewrite path_cost_round in H. apply IH in H.
    destruct H as (n & Hbelow & Hstop & Hsum & Hc & Hsm & Hsf).
    exists (S n). apply Rltb_true in Hlt.
    rewrite counter_after_shift in Hstop.
    repeat split.
    + intros j Hj. destruct j as [|j]; [exact Hlt|].
      rewrite <- counter_after_shift. apply Hbelow. lia.
    + exact Hstop.
    + rewrite Hsum. cbn [seq map]. rewrite map_seq_shift, Rsum_cons.
      rewrite (map_ext _ _ (fun j => f_equal (spec_path_term config curve)
                                       (counter_after_shift arith resolution
                                          curve_s j))).
      simpl. lra.
    + rewrite Hc. destruct (IsOffRoad _ _ _ _ _ _); reflexivity.
    + rewrite Hsm. destruct (IsOffRoad _ _ _ _ _ _); reflexivity.
    + rewrite Hsf. destruct (IsOffRoad _ _ _ _ _ _); reflexivity.
  - injection H as <-. exists 0%nat. apply Rltb_false in Hlt. simpl.
    repeat split; try lia; try lra.
Qed.

(** The loop comes to an end as soon as the counter is not below the
    range: [n] rounds are enough when it is so after [n] rounds. *)
Lemma machine_path_cost_loop_terminates (n : nat) :
  forall (curve_s : R) (fuel : nat) (cost : ComparableCost) (path_cost : R),
    range <= counter_after arith resolution curve_s n ->
    (n <= fuel)%nat ->
    exists st,
      Machine.path_cost_loop arith ext fuel curve start_s end_s curve_s cost
        path_cost this = Ok st.
Proof.
  unfold path_range.
  induction n as [|n IH]; intros curve_s fuel cost path_cost Hstop Hfuel.
  - simpl in Hstop. apply Rltb_false in Hstop.
    destruct fuel; simpl; rewrite Hstop; eexists; reflexivity.
  - destruct fuel as [|fuel]; [lia|]. simpl.
    destruct (Rltb curve_s (double_sub arith end_s start_s));
      [|eexists; reflexivity].
    apply IH; [|lia]. rewrite counter_after_shift. assumption.
Qed.

(** [CalculatePathCost] in terms of what its loop returns. *)
Lemma machine_CalculatePathCost_unfold (fuel : nat) (curr_level total_level : N) :
  Machine.CalculatePathCost arith ext fuel curve start_s end_s curr_level
    total_level this
  = (st <- Machine.path_cost_loop arith ext fuel curve start_s end_s 0
             cost_default 0 this ;;
     Ok (set_smoothness_cost (fst (fst st))
           (snd (fst st)
            * DpPolyPathConfig.path_resolution (TrajectoryCost.config_ (snd st))
            + (if (curr_level =? total_level)%N
               then sampled_end_l_term arith (snd st) curve start_s end_s
               else 0)),
         snd st)).
Proof.
  unfold Machine.CalculatePathCost, sampled_end_l_term, path_range.
  destruct (Machine.path_cost_loop arith ext fuel curve start_s end_s 0
              cost_default 0 this) as [[[cost path_cost] this']|e]; simpl;
    [|reflexivity].
  destruct (curr_level =? total_level)%N; [reflexivity|].
  rewrite Rplus_0_r. reflexivity.
Qed.

Lemma machine_CalculatePathCost_returns (fuel : nat)
    (curr_level total_level : N) st :
  Machine.CalculatePathCost arith ext fuel curve start_s end_s curr_level
    total_level this = Ok st ->
  exists n : nat,
    (forall k, (k < n)%nat -> path_sample arith this k < range)
    /\ range <= path_sample arith this n
    /\ smoothness_cost (fst st)
       = sampled_smoothness_cost arith this curve start_s end_s
           curr_level total_level n
    /\ safety_cost (fst st) = 0
    /\ has_collision (fst st) = false
    /\ snd st = this.
Proof.
  rewrite machine_CalculatePathCost_unfold.
  destruct (Machine.path_cost_loop arith ext fuel curve start_s end_s 0
              cost_default 0 this) as [st0|e] eqn:Hloop; simpl; [|discriminate].
  intros H; injection H as <-.
  pose proof (machine_path_cost_loop_object ext arith fuel curve start_s end_s
                this 0 cost_default 0 st0 Hloop) as Hobj.
  apply machine_path_cost_loop_returns in Hloop.
  destruct Hloop as (n & Hbelow & Hstop & Hsum & Hc & _ & Hsf).
  exists n. simpl. rewrite Hobj.
  repeat split; try assumption.
  unfold sampled_smoothness_cost, path_sample. rewrite Hsum. lra.
Qed.

Lemma machine_CalculatePathCost_terminates (n fuel : nat)
    (curr_level total_level : N) :
  range <= path_sample arith this n ->
  (n <= fuel)%nat ->
  exists st,
    Machine.CalculatePathCost arith ext fuel curve start_s end_s curr_level
      total_level this = Ok st.
Proof.
  intros Hstop Hfuel.
  destruct (machine_path_cost_loop_terminates n 0 fuel cost_default 0 Hstop Hfuel)
    as [st Hst].
  rewrite machine_CalculatePathCost_unfold, Hst. simpl. eexists; reflexivity.
Qed.

(** C2. The [smoothness_cost] that [CalculatePathCost] returns is the sum,
    over the sample stations below [end_s - start_s], of
    [l^2 * weight_l * quasi_softmax |l| + dl^2 * weight_dl + ddl^2 * weight_ddl],
    times the resolution, plus the terminal-level term when it applies;
    [safety_cost] is zero and [has_collision] is not set.  The sample
    stations are the values [0], [resolution], [2 * resolution], ... of
    the counter [curve_s], each the machine's sum of the one before and
    the resolution; the range [end_s - start_s] is the machine's
    difference.  The call returns as soon as the fuel covers the index at
    which the counter leaves the range; there is such an index when the
    counter gains at least some positive [delta] with every round it
    makes within the range. *)
Theorem CalculatePathCost_is_sampled_sum (curr_level total_level : N) :
  (forall fuel st,
     Machine.CalculatePathCost arith ext fuel curve start_s end_s curr_level
       total_level this = Ok st ->
     exists n : nat,
       (forall k, (k < n)%nat ->
          path_sample arith this k < path_range arith start_s end_s)
       /\ path_range arith start_s end_s <= path_sample arith this n
       /\ smoothness_cost (fst st)
          = sampled_smoothness_cost arith this curve start_s end_s
              curr_level total_level n
       /\ safety_cost (fst st) = 0
       /\ has_collision (fst st) = false)
  /\ (forall n : nat,
        path_range arith start_s end_s <= path_sample arith this n ->
        forall fuel, (n <= fuel)%nat ->
          exists cost,
            Machine.CalculatePathCost arith ext fuel curve start_s end_s
              curr_level total_level this = Ok (cost, this))
  /\ (forall delta : R,
        0 < delta ->
        (forall c, 0 <= c < path_range arith start_s end_s ->
           c + delta <= double_add arith c resolution) ->
        exists n : nat,
          path_range arith start_s end_s <= path_sample arith this n).
Proof.
  split; [|split].
  - intros fuel st H. apply machine_CalculatePathCost_returns in H.
    destruct H as (n & H1 & H2 & H3 & H4 & H5 & _).
    exists n. repeat split; assumption.
  - intros n Hstop fuel Hfuel.
    destruct (machine_CalculatePathCost_terminates n fuel curr_level total_level
                Hstop Hfuel) as [[cost this'] Hst].
    exists cost. rewrite Hst.
    apply machine_CalculatePathCost_returns in Hst.
    destruct Hst as (_ & _ & _ & _ & _ & _ & Hobj). simpl in Hobj.
    rewrite Hobj. reflexivity.
  - intros delta Hdelta Hgain.
    destruct (counter_after_leaves arith resolution delta 0
                (path_range arith start_s end_s)
                (fun c => c < path_range arith start_s end_s) Hdelta)
      as [n Hn].
    + intros c. destruct (Rlt_le_dec c (path_range arith start_s end_s));
        [left; assumption|right; lra].
    + intros c Hc. lra.
    + intros c Hfrom Hstay. apply Hgain. split; assumption.
    + exists n. unfold path_sample. lra.
Qed.

(** X10. With non-negative weights, a non-negative [b] and a resolution
    that is not negative, the [smoothness_cost] that [CalculatePathCost]
    returns is never negative, whatever the curve, the range and the
    machine's rounding, provided that at the terminal level the end
    offset is not below half the initial offset: there the square root
    has no value. *)
Theorem CalculatePathCost_smoothness_nonneg
    (fuel : nat) (curr_level total_level : N) st :
  0 <= DpPolyPathConfig.path_l_cost config ->
  0 <= DpPolyPathConfig.path_dl_cost config ->
  0 <= DpPolyPathConfig.path_ddl_cost config ->
  0 <= DpPolyPathConfig.path_end_l_cost config ->
  0 <= DpPolyPathConfig.path_l_cost_param_b config ->
  0 <= resolution ->
  (curr_level = total_level ->
   SLPoint.l (TrajectoryCost.init_sl_point_ this) / 2
   <= QuinticPolynomialCurve1d.Evaluate curve 0 (path_range arith start_s end_s)) ->
  Machine.CalculatePathCost arith ext fuel curve start_s end_s curr_level
    total_level this = Ok st ->
  0 <= smoothness_cost (fst st).
Proof.
  intros Hl Hdl Hddl Hend Hb Hr Hroot H.
  apply machine_CalculatePathCost_returns in H.
  destruct H as (n & _ & _ & Hsm & _).
  rewrite Hsm. unfold sampled_smoothness_cost.
  assert (Hsum : 0 <= Rsum (map (fun k => spec_path_term config curve
                                             (path_sample arith this k))
                              (seq 0 n))).
  { apply Rsum_nonneg. apply Forall_forall. intros x Hx.
    apply in_map_iff in Hx. destruct Hx as (k & <- & _).
    apply spec_path_term_nonneg; assumption. }
  assert (Hterm : 0 <= (if (curr_level =? total_level)%N
                        then sampled_end_l_term arith this curve start_s end_s
                        else 0)).
  { destruct (curr_level =? total_level)%N eqn:Hlevel; [|lra].
    apply N.eqb_eq in Hlevel. specialize (Hroot Hlevel).
    unfold sampled_end_l_term. apply Rmult_le_pos; [|assumption].
    rewrite <- sqrt_0. apply sqrt_le_1_alt. lra. }
  assert (Hscaled : 0 <= Rsum (map (fun k => spec_path_term config curve
                                                (path_sample arith this k))
                                 (seq 0 n)) * resolution)
    by (apply Rmult_le_pos; assumption).
  lra.
Qed.

(** The loop of [CalculateStaticObstacleCost], when it returns from the
    counter [curr_s]. *)
Lemma machine_static_cost_loop_returns (fuel : nat) :
  forall (curr_s : R) (obstacle_cost : ComparableCost) st,
    Machine.static_cost_loop arith ext fuel curve start_s end_s curr_s
      obstacle_cost this = Ok st ->
    exists n : nat,
      (forall j, (j < n)%nat -> counter_after arith resolution curr_s j <= end_s)
      /\ end_s < counter_after arith resolution curr_s n
      /\ safety_cost (fst st)
         = safety_cost obstacle_cost
           + Rsum (map (fun j =>
                          station_static_penalty arith ext this curve start_s
                            (counter_after arith resolution curr_s j))
                     (seq 0 n)).
Proof.
  induction fuel as [|fuel IH]; intros curr_s obstacle_cost st H; simpl in H;
    destruct (Rleb curr_s end_s) eqn:Hle; try discriminate.
  - injection H as <-. exists 0%nat. apply Rleb_false in Hle. simpl.
    repeat split; try lia; try lra.
  - apply IH in H. destruct H as (n & Hbelow & Hstop & Hsum).
    exists (S n). apply Rleb_true in Hle.
    rewrite counter_after_shift in Hstop.
    repeat split.
    + intros j Hj. destruct j as [|j]; [exact Hle|].
      rewrite <- counter_after_shift. apply Hbelow. lia.
    + exact Hstop.
    + rewrite Hsum. cbn [seq map]. rewrite map_seq_shift, Rsum_cons.
      rewrite (map_ext _ _ (fun j => f_equal (station_static_penalty arith ext
                                                this curve start_s)
                                       (counter_after_shift arith resolution
                                          curr_s j))).
      unfold static_obstacles_at. rewrite static_obstacles_fold_safety.
      unfold station_static_penalty at 2. simpl. lra.
  - injection H as <-. exists 0%nat. apply Rleb_false in Hle. simpl.
    repeat split; try lia; try lra.
Qed.

Lemma machine_static_cost_loop_terminates (n : nat) :
  forall (curr_s : R) (fuel : nat) (obstacle_cost : ComparableCost),
    end_s < counter_after arith resolution curr_s n ->
    (n <= fuel)%nat ->
    exists st,
      Machine.static_cost_loop arith ext fuel curve start_s end_s curr_s
        obstacle_cost this = Ok st.
Proof.
  induction n as [|n IH]; intros curr_s fuel obstacle_cost Hstop Hfuel.
  - simpl in Hstop. apply Rleb_false in Hstop.
    destruct fuel; simpl; rewrite Hstop; eexists; reflexivity.
  - destruct fuel as [|fuel]; [lia|]. simpl.
    destruct (Rleb curr_s end_s); [|eexists; reflexivity].
    apply IH; [|lia]. rewrite counter_after_shift. assumption.
Qed.

(** X12. The [safety_cost] that [CalculateStaticObstacleCost] returns is
    the sample resolution times the sum, over the sample stations up to
    [end_s] included and over the cached static boundaries, of the safety
    cost of [GetCostFromObsSL] at that station and the curve's offset
    there.  The sample stations are the values [start_s],
    [start_s + resolution], ... of the counter [curr_s], each the
    machine's sum of the one before and the resolution.  The call returns
    as soon as the fuel covers the index at which the counter exceeds
    [end_s]; there is such an index when the counter gains at least some
    positive [delta] with every round it makes within the range. *)
Theorem CalculateStaticObstacleCost_is_sampled_sum :
  (forall fuel st,
     Machine.CalculateStaticObstacleCost arith ext fuel curve start_s end_s this
     = Ok st ->
     exists n : nat,
       (forall j, (j < n)%nat -> static_sample arith this start_s j <= end_s)
       /\ end_s < static_sample arith this start_s n
       /\ safety_cost (fst st)
          = Rsum (map (sampled_static_penalty arith ext this curve start_s)
                    (seq 0 n))
            * resolution)
  /\ (forall n : nat,
        end_s < static_sample arith this start_s n ->
        forall fuel, (n <= fuel)%nat ->
          exists cost,
            Machine.CalculateStaticObstacleCost arith ext fuel curve start_s
              end_s this = Ok (cost, this))
  /\ (forall delta : R,
        0 < delta ->
        (forall c, start_s <= c <= end_s ->
           c + delta <= double_add arith c resolution) ->
        exists n : nat, end_s < static_sample arith this start_s n).
Proof.
  split; [|split].
  - intros fuel st H. unfold Machine.CalculateStaticObstacleCost in H.
    destruct (Machine.static_cost_loop arith ext fuel curve start_s end_s
                start_s cost_default this) as [st0|e] eqn:Hloop; simpl in H;
      [|discriminate].
    injection H as <-.
    pose proof (machine_static_cost_loop_object ext arith fuel curve start_s
                  end_s this start_s cost_default st0 Hloop) as Hobj.
    apply machine_static_cost_loop_returns in Hloop.
    destruct Hloop as (n & Hbelow & Hstop & Hsum).
    exists n. simpl. rewrite Hobj, Hsum. simpl.
    repeat split; try assumption.
    unfold sampled_static_penalty, static_sample. lra.
  - intros n Hstop fuel Hfuel.
    destruct (machine_static_cost_loop_terminates n start_s fuel cost_default
                Hstop Hfuel) as [st0 Hst0].
    unfold Machine.CalculateStaticObstacleCost. rewrite Hst0. simpl.
    rewrite (machine_static_cost_loop_object ext arith fuel curve start_s end_s
               this start_s cost_default st0 Hst0).
    eexists; reflexivity.
  - intros delta Hdelta Hgain.
    destruct (counter_after_leaves arith resolution delta start_s end_s
                (fun c => c <= end_s) Hdelta) as [n Hn].
    + intros c. destruct (Rle_lt_dec c end_s); [left; assumption|right; lra].
    + intros c Hc. exact Hc.
    + intros c Hfrom Hstay. apply Hgain. split; assumption.
    + exists n. unfold static_sample. lra.
Qed.

End MachineLoops.

(** ** With the operations of the field

    Over [exact_arith] the class of [Machine] is the class above, and
    hands back the object it was called on. *)

Section ExactArithmetic.

Variable ext : Externals.
Variable this : TrajectoryCost.t.
Variable curve : QuinticPolynomialCurve1d.t.
Variables start_s end_s : R.

Lemma machine_ctor_exact (config : DpPolyPathConfig.t)
    (reference_line : ReferenceLine.t) (is_change_lane_path : bool)
    (obstacles : list Obstacle.t) (vehicle_param : VehicleParam.t)
    (heuristic_speed_data : SpeedData.t) (init_sl_point : SLPoint.t)
    (adc_sl_boundary : SLBoundary.t) :
  Machine.TrajectoryCost_ctor exact_arith ext config reference_line
    is_change_lane_path obstacles vehicle_param heuristic_speed_data
    init_sl_point adc_sl_boundary
  = TrajectoryCost_ctor ext config reference_line is_change_lane_path
      obstacles vehicle_param heuristic_speed_data init_sl_point
      adc_sl_boundary.
Proof. reflexivity. Qed.

Lemma machine_path_cost_loop_exact (fuel : nat) :
  forall (curve_s : R) (cost : ComparableCost) (path_cost : R),
    Machine.path_cost_loop exact_arith ext fuel curve start_s end_s curve_s
      cost path_cost this
    = result_map (fun st => (st, this))
        (path_cost_loop ext this fuel curve start_s end_s curve_s cost path_cost).
Proof.
  induction fuel as [|fuel IH]; intros curve_s cost path_cost; simpl;
    destruct (Rltb curve_s (end_s - start_s)); try reflexivity.
  apply IH.
Qed.

Lemma machine_CalculatePathCost_exact (fuel : nat) (curr_level total_level : N) :
  Machine.CalculatePathCost exact_arith ext fuel curve start_s end_s
    curr_level total_level this
  = result_map (fun cost => (cost, this))
      (CalculatePathCost ext this fuel curve start_s end_s curr_level
         total_level).
Proof.
  unfold Machine.CalculatePathCost, CalculatePathCost.
  rewrite machine_path_cost_loop_exact.
  destruct (path_cost_loop ext this fuel curve start_s end_s 0 cost_default 0)
    as [[cost path_cost]|e]; reflexivity.
Qed.

Lemma machine_static_cost_loop_exact (fuel : nat) :
  forall (curr_s : R) (obstacle_cost : ComparableCost),
    Machine.static_cost_loop exact_arith ext fuel curve start_s end_s curr_s
      obstacle_cost this
    = result_map (fun cost => (cost, this))
        (static_cost_loop ext this fuel curve start_s end_s curr_s obstacle_cost).
Proof.
  induction fuel as [|fuel IH]; intros curr_s obstacle_cost; simpl;
    destruct (Rleb curr_s end_s); try reflexivity.
  apply IH.
Qed.

Lemma machine_CalculateStaticObstacleCost_exact (fuel : nat) :
  Machine.CalculateStaticObstacleCost exact_arith ext fuel curve start_s end_s
    this
  = result_map (fun cost => (cost, this))
      (CalculateStaticObstacleCost ext this fuel curve start_s end_s).
Proof.
  unfold Machine.CalculateStaticObstacleCost, CalculateStaticObstacleCost.
  rewrite machine_static_cost_loop_exact.
  destruct (static_cost_loop ext this fuel curve start_s end_s start_s
              cost_default) as [cost|e]; reflexivity.
Qed.

Lemma machine_Calculate_exact (fuel : nat) (curr_level total_level : N) :
  Machine.Calculate exact_arith ext fuel curve start_s end_s curr_level
    total_level this
  = result_map (fun cost => (cost, this))
      (Calculate ext this fuel curve start_s end_s curr_level total_level).
Proof.
  unfold Machine.Calculate, Calculate.
  rewrite machine_CalculatePathCost_exact.
  destruct (CalculatePathCost ext this fuel curve start_s end_s curr_level
              total_level) as [p|e]; simpl; [|reflexivity].
  rewrite machine_CalculateStaticObstacleCost_exact.
  destruct (CalculateStaticObstacleCost ext this fuel curve start_s end_s)
    as [s|e]; simpl; [|reflexivity].
  destruct (CalculateDynamicObstacleCost ext this curve start_s end_s)
    as [d|e]; reflexivity.
Qed.

End ExactArithmetic.

(** ** The scenario over the machine's arithmetic

    The scenario's stations are whole numbers, which binary64 adds and
    subtracts without rounding. *)

Lemma CalculatePathCost_smoothness_nonneg_witness :
  exists st,
    Machine.CalculatePathCost exact_arith ex_ext 2 ex_curve 0 2 1 1 ex_this
    = Ok st
    /\ 0 <= smoothness_cost (fst st).
Proof.
  destruct (machine_CalculatePathCost_terminates exact_arith ex_ext ex_this
              ex_curve 0 2 2 2 1 1) as [st Hst].
  - unfold path_range, path_sample. simpl. lra.
  - lia.
  - exists st. split; [exact Hst|].
    apply (CalculatePathCost_smoothness_nonneg exact_arith ex_ext ex_this
             ex_curve 0 2 2 1 1 st).
    + simpl. lra.
    + simpl. lra.
    + simpl. lra.
    + simpl. lra.
    + simpl. lra.
    + simpl. lra.
    + intros _. simpl. lra.
    + exact Hst.
Defined.


(** * The dynamic cost in the specification's words *)


Section DynamicCostSpec.

Variable ext : Externals.
Variable this : TrajectoryCost.t.
Variable curve : QuinticPolynomialCurve1d.t.
Variables start_s end_s : R.

#[local] Abbreviation config := (TrajectoryCost.config_ this).
#[local] Abbreviation interval := (DpPolyPathConfig.eval_time_interval config).
#[local] Abbreviation num := (TrajectoryCost.num_of_time_stamps_ this).
#[local] Abbreviation cache := (TrajectoryCost.dynamic_obstacle_boxes_ this).








End DynamicCostSpec.



(** * The scenario in tenths, on binary64 *)

Lemma ln_2_pos : 0 < ln 2.
Proof. pose proof ln_lt_2. lra. Qed.

Lemma ln_powerRZ_2 (p : Z) : ln (powerRZ 2 p) = IZR p * ln 2.
Proof. rewrite powerRZ_Rpower by lra. apply ln_Rpower. Qed.

(** The exponent of the last digit of a number between [2^p] and
    [2^(p+1)], out of the subnormal range. *)
Lemma binary64_exponent_of (x : R) (p : Z) :
  (-1022 <= p)%Z ->
  powerRZ 2 p <= Rabs x < powerRZ 2 (p + 1) ->
  binary64_exponent x = (p - 52)%Z.
Proof.
  intros Hp [Hlo Hhi]. unfold binary64_exponent.
  assert (Hpos : 0 < powerRZ 2 p) by (apply powerRZ_lt; lra).
  assert (Hfloor : Zfloor (ln (Rabs x) / ln 2) = p).
  { apply Zfloor_eq.
    pose proof ln_2_pos as H2.
    assert (Hl : IZR p * ln 2 <= ln (Rabs x)).
    { rewrite <- ln_powerRZ_2.
      destruct Hlo as [Hlt|Heq]; [left; apply ln_increasing; assumption|].
      rewrite Heq. lra. }
    assert (Hh : ln (Rabs x) < (IZR p + 1) * ln 2).
    { rewrite <- plus_IZR, <- ln_powerRZ_2. apply ln_increasing; lra. }
    split.
    - apply Rmult_le_reg_r with (ln 2); [assumption|].
      unfold Rdiv. rewrite Rmult_assoc, Rinv_l by lra. lra.
    - apply Rmult_lt_reg_r with (ln 2); [assumption|].
      unfold Rdiv. rewrite Rmult_assoc, Rinv_l by lra. lra. }
  rewrite Hfloor. lia.
Qed.

Lemma nearest_even_near (y : R) (m : Z) :
  Rabs (y - IZR m) < 1 / 2 -> nearest_even y = m.
Proof.
  intros H. apply Rabs_def2 in H. destruct H as [Hhi Hlo].
  unfold nearest_even.
  destruct (Rle_lt_dec (IZR m) y) as [Hge|Hlt].
  - assert (Hf : Zfloor y = m) by (apply Zfloor_eq; lra).
    rewrite Hf.
    replace (Rltb (y - IZR m) (1 / 2)) with true
      by (symmetry; apply Rltb_true; lra).
    reflexivity.
  - assert (Hf : Zfloor y = (m - 1)%Z)
      by (apply Zfloor_eq; rewrite minus_IZR; lra).
    rewrite Hf, minus_IZR.
    replace (Rltb (y - (IZR m - 1)) (1 / 2)) with false
      by (symmetry; apply Rltb_false; lra).
    replace (Rltb (1 / 2) (y - (IZR m - 1))) with true
      by (symmetry; apply Rltb_true; lra).
    lia.
Qed.

Lemma nearest_even_tie (y : R) (n : Z) :
  y = IZR n + 1 / 2 ->
  nearest_even y = if Z.even n then n else (n + 1)%Z.
Proof.
  intros ->. unfold nearest_even.
  assert (Hf : Zfloor (IZR n + 1 / 2) = n) by (apply Zfloor_eq; lra).
  rewrite Hf.
  replace (Rltb (IZR n + 1 / 2 - IZR n) (1 / 2)) with false
    by (symmetry; apply Rltb_false; lra).
  replace (Rltb (1 / 2) (IZR n + 1 / 2 - IZR n)) with false
    by (symmetry; apply Rltb_false; lra).
  reflexivity.
Qed.

Lemma binary64_round_nonzero (x : R) (p : Z) :
  powerRZ 2 p <= Rabs x -> Reqb x 0 = false.
Proof.
  intros H. apply Reqb_false. intros ->. rewrite Rabs_R0 in H.
  assert (0 < powerRZ 2 p) by (apply powerRZ_lt; lra). lra.
Qed.

(** A number between [2^p] and [2^(p+1)] goes to [m * 2^(p-52)] when it
    is nearer to it than to its neighbours. *)
Lemma binary64_round_near (x : R) (p m : Z) :
  (-1022 <= p)%Z ->
  powerRZ 2 p <= Rabs x < powerRZ 2 (p + 1) ->
  Rabs (x * powerRZ 2 (52 - p) - IZR m) < 1 / 2 ->
  binary64_round x = IZR m * powerRZ 2 (p - 52).
Proof.
  intros Hp Hx Hm. unfold binary64_round.
  rewrite (binary64_round_nonzero x p) by apply Hx.
  rewrite (binary64_exponent_of x p Hp Hx).
  replace (- (p - 52))%Z with (52 - p)%Z by lia.
  rewrite (nearest_even_near _ m Hm). reflexivity.
Qed.

(** Halfway between two neighbours it goes to the even one. *)
Lemma binary64_round_tie (x : R) (p n : Z) :
  (-1022 <= p)%Z ->
  powerRZ 2 p <= Rabs x < powerRZ 2 (p + 1) ->
  x * powerRZ 2 (52 - p) = IZR n + 1 / 2 ->
  binary64_round x
  = IZR (if Z.even n then n else (n + 1)%Z) * powerRZ 2 (p - 52).
Proof.
  intros Hp Hx Hn. unfold binary64_round.
  rewrite (binary64_round_nonzero x p) by apply Hx.
  rewrite (binary64_exponent_of x p Hp Hx).
  replace (- (p - 52))%Z with (52 - p)%Z by lia.
  rewrite (nearest_even_tie _ n Hn). reflexivity.
Qed.

Lemma powerRZ_2_ge_1 (z : Z) : (0 <= z)%Z -> 1 <= powerRZ 2 z.
Proof.
  intros Hz. rewrite <- (Z2Nat.id z Hz), <- pow_powerRZ.
  apply pow_R1_Rle. lra.
Qed.

Lemma powerRZ_2_le (e e' : Z) : (e <= e')%Z -> powerRZ 2 e <= powerRZ 2 e'.
Proof.
  intros He. replace e' with (e + (e' - e))%Z by lia.
  rewrite powerRZ_add by lra.
  assert (0 < powerRZ 2 e) by (apply powerRZ_lt; lra).
  pose proof (powerRZ_2_ge_1 (e' - e) ltac:(lia)). nra.
Qed.

Lemma nearest_even_error (y : R) : Rabs (IZR (nearest_even y) - y) <= 1 / 2.
Proof.
  unfold nearest_even. pose proof (Zfloor_bound y) as [Hlo Hhi].
  destruct (Rltb (y - IZR (Zfloor y)) (1 / 2)) eqn:Hlow.
  - apply Rltb_true in Hlow. apply Rabs_le. lra.
  - apply Rltb_false in Hlow.
    destruct (Rltb (1 / 2) (y - IZR (Zfloor y))) eqn:Hhigh.
    + rewrite plus_IZR. apply Rabs_le. lra.
    + apply Rltb_false in Hhigh.
      destruct (Z.even (Zfloor y)); [|rewrite plus_IZR]; apply Rabs_le; lra.
Qed.

(** The rounding error is at most half a unit of the last place. *)
Lemma binary64_round_error (x : R) (p : Z) :
  (-1022 <= p)%Z ->
  Rabs x < powerRZ 2 (p + 1) ->
  Rabs (binary64_round x - x) <= powerRZ 2 (p - 53).
Proof.
  intros Hp Hx. unfold binary64_round.
  destruct (Reqb x 0) eqn:Hzero.
  - apply Reqb_true in Hzero. subst x.
    rewrite Rminus_0_r, Rabs_R0. apply powerRZ_le. lra.
  - apply Reqb_false in Hzero.
    set (e := binary64_exponent x).
    assert (He : (e <= p - 52)%Z).
    { unfold e, binary64_exponent.
      assert (Hfloor : (Zfloor (ln (Rabs x) / ln 2) <= p)%Z).
      { pose proof ln_2_pos as H2.
        assert (Hpos : 0 < Rabs x) by (apply Rabs_pos_lt; assumption).
        assert (Hl : ln (Rabs x) < (IZR p + 1) * ln 2).
        { rewrite <- plus_IZR, <- ln_powerRZ_2. apply ln_increasing; lra. }
        assert (Hq : ln (Rabs x) / ln 2 < IZR p + 1).
        { apply Rmult_lt_reg_r with (ln 2); [assumption|].
          unfold Rdiv. rewrite Rmult_assoc, Rinv_l by lra. lra. }
        pose proof (Zfloor_bound (ln (Rabs x) / ln 2)) as [Hlo _].
        assert (Hlt : IZR (Zfloor (ln (Rabs x) / ln 2)) < IZR (p + 1))
          by (rewrite plus_IZR; lra).
        apply lt_IZR in Hlt. lia. }
      lia. }
    assert (Hscale : powerRZ 2 (- e) * powerRZ 2 e = 1).
    { rewrite <- powerRZ_add by lra. replace (- e + e)%Z with 0%Z by lia.
      reflexivity. }
    set (y := x * powerRZ 2 (- e)).
    replace (IZR (nearest_even y) * powerRZ 2 e - x)
      with ((IZR (nearest_even y) - y) * powerRZ 2 e)
      by (unfold y; rewrite Rmult_minus_distr_r, (Rmult_assoc x), Hscale; ring).
    rewrite Rabs_mult.
    assert (Hpe : 0 < powerRZ 2 e) by (apply powerRZ_lt; lra).
    rewrite (Rabs_pos_eq (powerRZ 2 e)) by lra.
    pose proof (nearest_even_error y) as Herr.
    assert (Hhalf : powerRZ 2 (p - 53) = powerRZ 2 (p - 52) * / 2).
    { replace (p - 53)%Z with ((p - 52) + (-1))%Z by lia.
      rewrite powerRZ_add by lra. simpl. lra. }
    pose proof (powerRZ_2_le e (p - 52) He) as Hmono.
    rewrite Hhalf.
    assert (0 <= Rabs (IZR (nearest_even y) - y)) by apply Rabs_pos.
    nra.
Qed.

Lemma Rabs_le_inv (x a : R) : Rabs x <= a -> - a <= x <= a.
Proof. unfold Rabs. destruct (Rcase_abs x); lra. Qed.

(** From a counter in [[0, 1]] a step of a tenth gains a twentieth at
    least. *)
Lemma ex_tenth_gain (c : R) :
  0 <= c <= 1 -> c + 1 / 20 <= double_add binary64_arith c tenth.
Proof.
  intros Hc. cbn [double_add binary64_arith].
  pose proof (binary64_round_error (c + tenth) 1 ltac:(lia)) as Herr.
  assert (Hx : Rabs (c + tenth) < powerRZ 2 (1 + 1)).
  { unfold tenth. rewrite Rabs_pos_eq by lra. simpl. lra. }
  specialize (Herr Hx). apply Rabs_le_inv in Herr.
  simpl in Herr. unfold tenth in *. lra.
Qed.

Ltac binary64_near p m :=
  rewrite (binary64_round_near _ p m);
  [ simpl; lra | lia | simpl; rewrite Rabs_pos_eq by lra; lra
  | simpl; apply Rabs_def1; lra ].

Ltac binary64_tie p n :=
  rewrite (binary64_round_tie _ p n);
  [ simpl; lra | lia | simpl; rewrite Rabs_pos_eq by lra; lra | simpl; lra ].

Ltac next_count k H :=
  change (counter_after binary64_arith tenth 0 (S k))
    with (binary64_round (counter_after binary64_arith tenth 0 k + tenth));
  rewrite H; cbn [nth ex_tenth_counter]; unfold tenth.

(** The counter of a station loop from [0] in steps of a tenth. *)
Lemma ex_tenth_counter_values (k : nat) :
  (k <= 11)%nat ->
  counter_after binary64_arith tenth 0 k = nth k ex_tenth_counter 0.
Proof.
  assert (H0 : counter_after binary64_arith tenth 0 0 = nth 0 ex_tenth_counter 0)
    by reflexivity.
  assert (H1 : counter_after binary64_arith tenth 0 1 = nth 1 ex_tenth_counter 0).
  { next_count 0%nat H0. binary64_near (-4)%Z 7205759403792794%Z. }
  assert (H2 : counter_after binary64_arith tenth 0 2 = nth 2 ex_tenth_counter 0).
  { next_count 1%nat H1. binary64_near (-3)%Z 7205759403792794%Z. }
  assert (H3 : counter_after binary64_arith tenth 0 3 = nth 3 ex_tenth_counter 0).
  { next_count 2%nat H2. binary64_tie (-2)%Z 5404319552844595%Z. }
  assert (H4 : counter_after binary64_arith tenth 0 4 = nth 4 ex_tenth_counter 0).
  { next_count 3%nat H3. binary64_tie (-2)%Z 7205759403792794%Z. }
  assert (H5 : counter_after binary64_arith tenth 0 5 = nth 5 ex_tenth_counter 0).
  { next_count 4%nat H4. binary64_near (-1)%Z 4503599627370496%Z. }
  assert (H6 : counter_after binary64_arith tenth 0 6 = nth 6 ex_tenth_counter 0).
  { next_count 5%nat H5. binary64_near (-1)%Z 5404319552844595%Z. }
  assert (H7 : counter_after binary64_arith tenth 0 7 = nth 7 ex_tenth_counter 0).
  { next_count 6%nat H6. binary64_near (-1)%Z 6305039478318694%Z. }
  assert (H8 : counter_after binary64_arith tenth 0 8 = nth 8 ex_tenth_counter 0).
  { next_count 7%nat H7. binary64_near (-1)%Z 7205759403792793%Z. }
  assert (H9 : counter_after binary64_arith tenth 0 9 = nth 9 ex_tenth_counter 0).
  { next_count 8%nat H8. binary64_near (-1)%Z 8106479329266892%Z. }
  assert (H10 : counter_after binary64_arith tenth 0 10
                = nth 10 ex_tenth_counter 0).
  { next_count 9%nat H9. binary64_near (-1)%Z 9007199254740991%Z. }
  assert (H11 : counter_after binary64_arith tenth 0 11
                = nth 11 ex_tenth_counter 0).
  { next_count 10%nat H10. binary64_near 0%Z 4953959590107545%Z. }
  intros Hk.
  do 12 (destruct k as [|k]; [assumption|]). lia.
Qed.

(** Eleven of its values are below [1]; the twelfth is not. *)
Lemma ex_tenth_counter_below (k : nat) :
  (k < 11)%nat -> counter_after binary64_arith tenth 0 k < 1.
Proof.
  intros Hk. rewrite ex_tenth_counter_values by lia.
  do 11 (destruct k as [|k]; [simpl; lra|]). lia.
Qed.

Lemma ex_tenth_counter_beyond : 1 < counter_after binary64_arith tenth 0 11.
Proof. rewrite ex_tenth_counter_values by lia. simpl. lra. Qed.

(** In [R] ten steps of the same tenth are beyond [1] already. *)
Example ex_tenth_exact_counter :
  (forall k, (k < 10)%nat -> counter_after exact_arith tenth 0 k < 1)
  /\ 1 < counter_after exact_arith tenth 0 10.
Proof.
  split.
  - intros k Hk. rewrite counter_after_exact. unfold tenth.
    do 10 (destruct k as [|k]; [simpl; lra|]). lia.
  - rewrite counter_after_exact. unfold tenth. simpl. lra.
Qed.

Lemma ex_unit_range : path_range binary64_arith 0 1 = 1.
Proof.
  unfold path_range. cbn [double_sub binary64_arith].
  binary64_near 0%Z 4503599627370496%Z.
Qed.

(** The quotient of one second by a tenth is [10] on the machine, a little
    less in [R]. *)
Example ex_tenth_time_steps :
  machine_time_steps binary64_arith ex_ext ex_config_tenth ex_speed_data_second
  = 10%Z
  /\ time_steps_floor ex_ext ex_config_tenth ex_speed_data_second = 9%Z.
Proof.
  assert (Hmin : Rmin 1 5 = 1) by (apply Rmin_left; lra).
  split.
  - unfold machine_time_steps. simpl. rewrite Hmin. unfold tenth.
    rewrite (binary64_round_near _ 3 5629499534213120).
    + apply Zfloor_eq. simpl. lra.
    + lia.
    + simpl. rewrite Rabs_pos_eq by lra. lra.
    + simpl. apply Rabs_def1; lra.
  - unfold time_steps_floor. simpl. rewrite Hmin.
    apply Zfloor_eq. unfold tenth. simpl. lra.
Qed.

(** Along the curve of slope [1] every sample costs [4000]. *)
Lemma ex_slope_term (curve_s : R) :
  spec_path_term ex_config_tenth ex_curve_slope curve_s = 4000.
Proof.
  unfold spec_path_term. simpl. rewrite Rabs_R0, Rabs_R1. ring.
Qed.

Lemma ex_slope_smoothness (n : nat) :
  sampled_smoothness_cost binary64_arith ex_this_tenth ex_curve_slope 0 1 0 1 n
  = INR n * 4000 * tenth.
Proof.
  unfold sampled_smoothness_cost.
  rewrite (map_ext _ (fun _ => 4000))
    by (intros k; apply ex_slope_term).
  assert (Hsum : forall (xs : list nat),
             Rsum (map (fun _ => 4000) xs) = INR (length xs) * 4000).
  { induction xs as [|x xs IH]; [simpl; ring|].
    cbn [map length]. rewrite Rsum_cons, IH, S_INR. ring. }
  rewrite Hsum, length_seq. simpl. ring.
Qed.

Lemma CalculatePathCost_is_sampled_sum_witness :
  (exists n : nat,
     path_range binary64_arith 0 1 <= path_sample binary64_arith ex_this_tenth n)
  /\ exists cost,
       Machine.CalculatePathCost binary64_arith ex_ext 11 ex_curve_slope 0 1 0 1
         ex_this_tenth
       = Ok (cost, ex_this_tenth)
       /\ smoothness_cost cost = 11 * 4000 * tenth.
Proof.
  destruct (CalculatePathCost_is_sampled_sum binary64_arith ex_ext ex_this_tenth
              ex_curve_slope 0 1 0 1) as (Hvalue & Hreturns & Hleaves).
  split.
  { apply (Hleaves (1 / 20)); [lra|].
    intros c Hc. rewrite ex_unit_range in Hc. apply ex_tenth_gain. lra. }
  assert (Hbelow : forall k, (k < 11)%nat ->
                     path_sample binary64_arith ex_this_tenth k
                     < path_range binary64_arith 0 1).
  { intros k Hk. rewrite ex_unit_range. apply ex_tenth_counter_below. exact Hk. }
  assert (Hstop : path_range binary64_arith 0 1
                  <= path_sample binary64_arith ex_this_tenth 11).
  { rewrite ex_unit_range. left. exact ex_tenth_counter_beyond. }
  destruct (Hreturns 11%nat Hstop 11%nat (le_n _)) as [cost Hcost].
  exists cost. split; [exact Hcost|].
  destruct (Hvalue _ _ Hcost) as (n & Hbelow' & Hstop' & Hsm & _).
  cbn [fst] in Hsm. rewrite Hsm, ex_slope_smoothness.
  rewrite <- (first_index_unique
                (fun k => path_sample binary64_arith ex_this_tenth k
                          < path_range binary64_arith 0 1)
                11 n Hbelow ltac:(lra) Hbelow' ltac:(lra)).
  simpl. ring.
Defined.

Lemma CalculateStaticObstacleCost_is_sampled_sum_witness :
  (exists n : nat, 1 < static_sample binary64_arith ex_this_tenth 0 n)
  /\ exists cost,
       Machine.CalculateStaticObstacleCost binary64_arith ex_ext 11 ex_curve 0 1
         ex_this_tenth
       = Ok (cost, ex_this_tenth)
       /\ safety_cost cost
          = Rsum (map (sampled_static_penalty binary64_arith ex_ext
                         ex_this_tenth ex_curve 0)
                    (seq 0 11))
            * tenth.
Proof.
  destruct (CalculateStaticObstacleCost_is_sampled_sum binary64_arith ex_ext
              ex_this_tenth ex_curve 0 1) as (Hvalue & Hreturns & Hleaves).
  split.
  { apply (Hleaves (1 / 20)); [lra|].
    intros c Hc. apply ex_tenth_gain. lra. }
  assert (Hbelow : forall j, (j < 11)%nat ->
                     static_sample binary64_arith ex_this_tenth 0 j <= 1).
  { intros j Hj. left. apply ex_tenth_counter_below. exact Hj. }
  assert (Hstop : 1 < static_sample binary64_arith ex_this_tenth 0 11)
    by exact ex_tenth_counter_beyond.
  destruct (Hreturns 11%nat Hstop 11%nat (le_n _)) as [cost Hcost].
  exists cost. split; [exact Hcost|].
  destruct (Hvalue _ _ Hcost) as (n & Hbelow' & Hstop' & Hsf).
  rewrite (first_index_unique
             (fun j => static_sample binary64_arith ex_this_tenth 0 j <= 1)
             11 n Hbelow ltac:(lra) Hbelow' ltac:(lra)).
  exact Hsf.
Defined.

Lemma TrajectoryCost_ctor_caches_witness :
  (exists this,
     Machine.TrajectoryCost_ctor binary64_arith ex_ext ex_config_tenth
       ex_reference_line false ex_obstacles ex_vehicle_param
       ex_speed_data_second ex_init_sl_point ex_adc_sl_boundary
     = Ok this
     /\ Z.of_nat (TrajectoryCost.num_of_time_stamps_ this) = 10%Z
     /\ Forall (trajectory_time_aligned ex_obstacles tenth
                  (TrajectoryCost.num_of_time_stamps_ this))
          (TrajectoryCost.dynamic_obstacle_boxes_ this))
  /\ exists this',
       Machine.after_calls exact_arith ex_ext
         [CallCalculatePathCost 2 ex_curve 0 2 0 1;
          CallCalculateStaticObstacleCost 2 ex_curve 0 1]
         ex_this
       = Ok this'
       /\ TrajectoryCost.static_obstacle_sl_boundaries_ this'
          = TrajectoryCost.static_obstacle_sl_boundaries_ ex_this
       /\ TrajectoryCost.dynamic_obstacle_boxes_ this'
          = TrajectoryCost.dynamic_obstacle_boxes_ ex_this.
Proof.
  split.
  - destruct (TrajectoryCost_ctor_caches ex_ext binary64_arith ex_config_tenth
                ex_reference_line false ex_obstacles ex_vehicle_param
                ex_speed_data_second ex_init_sl_point ex_adc_sl_boundary)
      as (Hcaches & Hreturns).
    pose proof (proj1 ex_tenth_time_steps) as Hsteps.
    unfold machine_time_steps in Hsteps.
    destruct Hreturns as [this Hthis].
    + simpl. unfold tenth. lra.
    + rewrite Hsteps. unfold uint32_max. lia.
    + exists this. split; [exact Hthis|].
      destruct (Hcaches this Hthis) as (_ & Hnum & Haligned & _).
      split; [|exact Haligned].
      rewrite Hnum. exact Hsteps.
  - assert (Hcalls : Machine.after_calls exact_arith ex_ext
                       [CallCalculatePathCost 2 ex_curve 0 2 0 1;
                        CallCalculateStaticObstacleCost 2 ex_curve 0 1]
                       ex_this
                     = Ok ex_this).
    { cbn [Machine.after_calls Machine.invoke].
      rewrite machine_CalculatePathCost_exact, ex_path_cost.
      cbn [result_map bind snd].
      rewrite machine_CalculateStaticObstacleCost_exact, ex_static_cost.
      reflexivity. }
    exists ex_this. split; [exact Hcalls|].
    destruct (proj1 (TrajectoryCost_ctor_caches ex_ext exact_arith ex_config
                       ex_reference_line false ex_obstacles ex_vehicle_param
                       ex_speed_data ex_init_sl_point ex_adc_sl_boundary)
                ex_this ex_this_constructed) as (_ & _ & _ & Hleft).
    exact (Hleft _ _ Hcalls).
Defined.
